(** * Open Runtimes Kubernetes executor: a shallow embedding

    The executor is a TypeScript HTTP service.  Every handler is a
    sequence of synchronous steps separated by [await]s on the cluster
    API, on timers and on the pod network.  The embedding is explicit
    state passing over an execution state [Exec]: a [World] (wall clock,
    Deployments, pod network, the reaper's shutdown flag), a counter of
    suspension points, and the trace of calls the process has issued.
    At each [await] an environment function may change the world; this
    is the only place where it can, as in the single-threaded event loop
    the program runs on.

    Strings are sequences of code units below 256; integers that hold
    millisecond timestamps are in [Z] (doubles are exact on them below
    2^53); durations given in fractional seconds are in [Q]. *)

From Stdlib Require Import ZArith QArith Qround Lia String Ascii List Bool.
From stdpp Require Import base option list gmap strings pretty.

Local Open Scope string_scope.
Local Open Scope Z_scope.

(** ** JavaScript primitives used by the handlers *)
Module Js.

(** [if (s)] on a string: only the empty string is falsy. *)
Definition truthy (s : string) : bool :=
  match s with EmptyString => false | String _ _ => true end.

(** [if (x)] on a possibly undefined string. *)
Definition truthyOpt (x : option string) : bool :=
  match x with Some s => truthy s | None => false end.

(** [x || d] on a possibly undefined string. *)
Definition orElse (x : option string) (d : string) : string :=
  match x with
  | Some s => if truthy s then s else d
  | None => d
  end.

Definition code (c : ascii) : Z := Z.of_N (N_of_ascii c).

(** White space skipped by [parseInt] (code units below 256). *)
Definition isWhiteSpace (c : ascii) : bool :=
  let n := code c in
  ((9 <=? n) && (n <=? 13)) || (n =? 32) || (n =? 160).

Fixpoint trimStart (s : string) : string :=
  match s with
  | String c s' => if isWhiteSpace c then trimStart s' else s
  | EmptyString => EmptyString
  end.

Definition digitOf (c : ascii) : option Z :=
  let n := code c in
  if (48 <=? n) && (n <=? 57) then Some (n - 48) else None.

(** The longest prefix of decimal digits; [None] when there is none. *)
Fixpoint parseDigits (acc : option Z) (s : string) : option Z :=
  match s with
  | String c s' =>
      match digitOf c with
      | Some d => parseDigits (Some (10 * default 0 acc + d)) s'
      | None => acc
      end
  | EmptyString => acc
  end.

(** [parseInt(s, 10)]; [None] stands for [NaN]. *)
Definition parseInt (s : string) : option Z :=
  match trimStart s with
  | String "-"%char s' => Z.opp <$> parseDigits None s'
  | String "+"%char s' => parseDigits None s'
  | s' => parseDigits None s'
  end.

(** [c.toLowerCase()] on one code unit: A-Z and the Latin-1 capitals. *)
Definition lowerChar (c : ascii) : ascii :=
  let n := code c in
  if ((65 <=? n) && (n <=? 90))
     || ((192 <=? n) && (n <=? 222) && negb (n =? 215))
  then ascii_of_N (Z.to_N (n + 32)) else c.

Fixpoint toLowerCase (s : string) : string :=
  match s with
  | String c s' => String (lowerChar c) (toLowerCase s')
  | EmptyString => EmptyString
  end.

(** [s.startsWith(p)] *)
Definition startsWith (s p : string) : bool := String.prefix p s.

(** [a < b] on strings: lexicographic on code units. *)
Definition lt (a b : string) : bool := String.ltb a b.

(** [n.toString()] on an integer. *)
Definition toString (n : Z) : string := pretty n.

(** [s.split(sep)] for a separator of one code unit: never empty. *)
Fixpoint split (sep : ascii) (s : string) : list string :=
  match s with
  | EmptyString => [EmptyString]
  | String c s' =>
      if Ascii.eqb c sep then EmptyString :: split sep s'
      else match split sep s' with
           | p :: ps => String c p :: ps
           | [] => [String c EmptyString]
           end
  end.

(** Whether [c] occurs in [s]. *)
Fixpoint occurs (c : ascii) (s : string) : bool :=
  match s with
  | EmptyString => false
  | String c' s' => Ascii.eqb c' c || occurs c s'
  end.


(** [s.includes(p)] *)
Fixpoint includes (s p : string) : bool :=
  String.prefix p s
  || match s with
     | String _ s' => includes s' p
     | EmptyString => false
     end.

(** The double quote, as a string. *)
Definition quote : string := String (ascii_of_nat 34) EmptyString.

(** [s.replace(/"/g, '\\"')]: a backslash before every double quote. *)
Fixpoint escapeQuotes (s : string) : string :=
  match s with
  | String c s' =>
      if Ascii.eqb c (ascii_of_nat 34)
      then String "\" (String c (escapeQuotes s'))
      else String c (escapeQuotes s')
  | EmptyString => EmptyString
  end.

End Js.

(** ** utils/errors.ts *)
Module Errors.

Inductive ErrorType :=
| GENERAL_UNKNOWN | GENERAL_ROUTE_NOT_FOUND | GENERAL_UNAUTHORIZED
| EXECUTION_BAD_REQUEST | EXECUTION_TIMEOUT | EXECUTION_BAD_JSON
| RUNTIME_NOT_FOUND | RUNTIME_CONFLICT | RUNTIME_FAILED | RUNTIME_TIMEOUT
| LOGS_TIMEOUT | COMMAND_TIMEOUT | COMMAND_FAILED.

Definition typeName (t : ErrorType) : string :=
  match t with
  | GENERAL_UNKNOWN => "general_unknown"
  | GENERAL_ROUTE_NOT_FOUND => "general_route_not_found"
  | GENERAL_UNAUTHORIZED => "general_unauthorized"
  | EXECUTION_BAD_REQUEST => "execution_bad_request"
  | EXECUTION_TIMEOUT => "execution_timeout"
  | EXECUTION_BAD_JSON => "execution_bad_json"
  | RUNTIME_NOT_FOUND => "runtime_not_found"
  | RUNTIME_CONFLICT => "runtime_conflict"
  | RUNTIME_FAILED => "runtime_failed"
  | RUNTIME_TIMEOUT => "runtime_timeout"
  | LOGS_TIMEOUT => "logs_timeout"
  | COMMAND_TIMEOUT => "command_timeout"
  | COMMAND_FAILED => "command_failed"
  end.

Record ErrorResponse := {
  type : string;
  message : string;
  code : Z;
}.

(** The third argument defaults to 500; the call sites leave it out or
    pass 500. *)
Definition createErrorResponse (t : ErrorType) (msg : string) : ErrorResponse :=
  {| type := typeName t; message := msg; code := 500 |}.

(** [c.json(createErrorResponse(...), status)] *)
Record HttpError := {
  httpStatus : Z;
  payload : ErrorResponse;
}.

Definition jsonError (t : ErrorType) (msg : string) (status : Z) : HttpError :=
  {| httpStatus := status; payload := createErrorResponse t msg |}.

End Errors.

(** ** The cluster, the clock and the pod network, as one handler sees them *)
Module K8s.

(** The fields of [k8s.V1Deployment] the executor reads or writes.
    Each of them is optional in the client's types. *)
Record V1Deployment := {
  metadataName : option string;
  labels : gmap string string;
  annotations : gmap string string;
  specReplicas : option Z;
  statusReadyReplicas : option Z;
}.

(** What a pod answers to an HTTP request, and after how many
    milliseconds: a response with some status code, a connection
    error, or nothing at all. *)
Inductive NetReply :=
| Responds (status : Z) (latency : Z)
| Refuses (latency : Z)
| Silent.

Record World := {
  now : Z;                                   (* Date.now() *)
  deployments : gmap string V1Deployment;    (* by metadata.name *)
  net : string -> NetReply;                  (* by URL *)
  shutdownRequested : bool;                  (* maintenance/loop.ts *)
}.

Inductive JsonValue :=
| JNum (n : Z)
| JStr (s : string).

(** One operation of a JSON-patch body. *)
Record PatchOp := {
  op : string;
  path : string;
  value : JsonValue;
}.

(** The calls a handler issues, with their outcome. *)
Inductive Call :=
| ReadDeployment (name : string) (result : option V1Deployment)
| ListDeployments (labelKey labelValue : string) (items : list V1Deployment)
| PatchDeployment (name : string) (body : list PatchOp) (ok : bool)
| Sleep (ms : Z)
| Fetch (url : string) (response : option Z) (took : Z).

Record Event := {
  issuedAt : Z;
  call : Call;
}.

Record Exec := {
  world : World;
  tick : nat;
  trace : list Event;
}.

(** What the rest of the system does to the world during the
    [k]-th suspension of the handler. *)
Definition Env := nat -> World -> World.

Definition setNow (t : Z) (w : World) : World :=
  {| now := t; deployments := deployments w; net := net w;
     shutdownRequested := shutdownRequested w |}.

Definition setDeployments (m : gmap string V1Deployment) (w : World) : World :=
  {| now := now w; deployments := m; net := net w;
     shutdownRequested := shutdownRequested w |}.

Definition setShutdown (b : bool) (w : World) : World :=
  {| now := now w; deployments := deployments w; net := net w;
     shutdownRequested := b |}.

Definition setReplicas (n : Z) (d : V1Deployment) : V1Deployment :=
  {| metadataName := metadataName d; labels := labels d;
     annotations := annotations d; specReplicas := Some n;
     statusReadyReplicas := statusReadyReplicas d |}.

Definition onWorld (f : World -> World) (s : Exec) : Exec :=
  {| world := f (world s); tick := tick s; trace := trace s |}.

Definition record (t : Z) (c : Call) (s : Exec) : Exec :=
  {| world := world s; tick := tick s;
     trace := trace s ++ [{| issuedAt := t; call := c |}] |}.

(** The server side of a JSON-patch: [replace] on [/spec/replicas]
    with a number; any other operation is refused. *)
Definition applyOp (o : PatchOp) (d : V1Deployment) : option V1Deployment :=
  if String.eqb (op o) "replace" && String.eqb (path o) "/spec/replicas" then
    match value o with
    | JNum n => Some (setReplicas n d)
    | JStr _ => None
    end
  else None.

Fixpoint applyPatch (body : list PatchOp) (d : V1Deployment) : option V1Deployment :=
  match body with
  | [] => Some d
  | o :: body' =>
      match applyOp o d with
      | Some d' => applyPatch body' d'
      | None => None
      end
  end.

Definition hasLabel (k v : string) (d : V1Deployment) : bool :=
  bool_decide (labels d !! k = Some v).

Section Api.
Variable env : Env.

(** An [await]: the environment runs, then the handler resumes. *)
Definition suspend (s : Exec) : Exec :=
  {| world := env (tick s) (world s); tick := S (tick s); trace := trace s |}.

(** [k8sAppsApi.readNamespacedDeployment]: [None] is the rejected
    promise (the object is not there). *)
Definition readNamespacedDeployment (name : string) (s : Exec)
  : option V1Deployment * Exec :=
  let t := now (world s) in
  let s1 := suspend s in
  let r := deployments (world s1) !! name in
  (r, record t (ReadDeployment name r) s1).

(** [k8sAppsApi.listNamespacedDeployment] with a [key=value] selector. *)
Definition listNamespacedDeployment (k v : string) (s : Exec)
  : list V1Deployment * Exec :=
  let t := now (world s) in
  let s1 := suspend s in
  let items := List.filter (hasLabel k v)
                 (List.map snd (map_to_list (deployments (world s1)))) in
  (items, record t (ListDeployments k v items) s1).

(** [k8sAppsApi.patchNamespacedDeployment]: [false] is the rejected
    promise. *)
Definition patchNamespacedDeployment (name : string) (body : list PatchOp)
    (s : Exec) : bool * Exec :=
  let t := now (world s) in
  let s1 := suspend s in
  match deployments (world s1) !! name with
  | Some d =>
      match applyPatch body d with
      | Some d' =>
          (true, record t (PatchDeployment name body true)
                   (onWorld (setDeployments (<[name := d']> (deployments (world s1)))) s1))
      | None => (false, record t (PatchDeployment name body false) s1)
      end
  | None => (false, record t (PatchDeployment name body false) s1)
  end.

(** [await new Promise((resolve) => setTimeout(resolve, ms))] *)
Definition sleep (ms : Z) (s : Exec) : Exec :=
  let t := now (world s) in
  record t (Sleep ms) (suspend (onWorld (setNow (t + ms)) s)).

(** Modelled from the spec: utils/delay.ts is not among the sources;
    the spec lists [delay(500ms|1s|2s)] among the fixed delays at
    which a handler is suspended. *)
Definition delay (ms : Z) (s : Exec) : Exec := sleep ms s.

(** [fetch(url, { method: 'GET', signal })] with a timer that aborts
    the request after [abortMs]: [Some status] when a response
    arrives before the abort, [None] when the promise is rejected. *)
Definition fetchWithAbort (url : string) (abortMs : Z) (s : Exec)
  : option Z * Exec :=
  let t := now (world s) in
  let s1 := suspend s in
  let t1 := now (world s1) in
  match net (world s1) url with
  | Responds st lat =>
      let lat := Z.max 0 lat in
      if lat <? abortMs
      then (Some st, record t (Fetch url (Some st) lat) (onWorld (setNow (t1 + lat)) s1))
      else (None, record t (Fetch url None abortMs) (onWorld (setNow (t1 + abortMs)) s1))
  | Refuses lat =>
      let took := Z.min (Z.max 0 lat) abortMs in
      (None, record t (Fetch url None took) (onWorld (setNow (t1 + took)) s1))
  | Silent =>
      (None, record t (Fetch url None abortMs) (onWorld (setNow (t1 + abortMs)) s1))
  end.

End Api.

(** Environments under which the wall clock never runs backwards. *)
Definition monotone (env : Env) : Prop :=
  forall k w, now w <= now (env k w).

(** Environments that let time pass, may change Deployments, but
    neither delete one nor touch the shutdown flag. *)
Definition calm (env : Env) : Prop :=
  forall k w,
    now w <= now (env k w)
    /\ shutdownRequested (env k w) = shutdownRequested w
    /\ (forall name, is_Some (deployments w !! name) ->
                     is_Some (deployments (env k w) !! name)).



(** *** JSON-patch on annotations

    The executor also patches annotations, with [replace] on paths of
    the form /metadata/annotations/<key>.  A path is a JSON pointer
    (RFC 6901): reference tokens separated by [/], in which [~1] stands
    for [/] and [~0] for [~].  A [replace] needs its target to exist
    (RFC 6902, 4.3). *)

Fixpoint unescape (s : string) : string :=
  match s with
  | String c s' =>
      if Ascii.eqb c "~" then
        match s' with
        | String d s'' =>
            if Ascii.eqb d "1" then String "/" (unescape s'')
            else if Ascii.eqb d "0" then String "~" (unescape s'')
            else String c (unescape s')
        | EmptyString => String c EmptyString
        end
      else String c (unescape s')
  | EmptyString => EmptyString
  end.

(** The reference tokens of a pointer; [None] when it is not one. *)
Definition pointer (p : string) : option (list string) :=
  match p with
  | EmptyString => Some []
  | String c rest =>
      if Ascii.eqb c "/" then Some (List.map unescape (Js.split "/" rest)) else None
  end.

Definition setAnnotation (k v : string) (d : V1Deployment) : V1Deployment :=
  {| metadataName := metadataName d; labels := labels d;
     annotations := <[k := v]> (annotations d); specReplicas := specReplicas d;
     statusReadyReplicas := statusReadyReplicas d |}.

(** The server side of one operation: [replace] of the replica count
    by a number, or of an annotation that is there by a string. *)
Definition applyOperation (o : PatchOp) (d : V1Deployment) : option V1Deployment :=
  if String.eqb (op o) "replace" then
    match pointer (path o) with
    | Some [a; b] =>
        if String.eqb a "spec" && String.eqb b "replicas" then
          match value o with
          | JNum n => Some (setReplicas n d)
          | JStr _ => None
          end
        else None
    | Some [a; b; k] =>
        if String.eqb a "metadata" && String.eqb b "annotations" then
          match value o with
          | JStr v =>
              if bool_decide (is_Some (annotations d !! k))
              then Some (setAnnotation k v d)
              else None
          | JNum _ => None
          end
        else None
    | _ => None
    end
  else None.

Fixpoint applyOperations (body : list PatchOp) (d : V1Deployment) : option V1Deployment :=
  match body with
  | [] => Some d
  | o :: body' =>
      match applyOperation o d with
      | Some d' => applyOperations body' d'
      | None => None
      end
  end.

Section JsonPatch.
Variable env : Env.

(** [k8sAppsApi.patchNamespacedDeployment] with the JSON-patch content
    type, on a server that knows both kinds of path: [false] is the
    rejected promise, and a rejected patch changes nothing. *)
Definition patchNamespacedDeploymentJsonPatch (name : string) (body : list PatchOp)
    (s : Exec) : bool * Exec :=
  let t := now (world s) in
  let s1 := suspend env s in
  match deployments (world s1) !! name with
  | Some d =>
      match applyOperations body d with
      | Some d' =>
          (true, record t (PatchDeployment name body true)
                   (onWorld (setDeployments (<[name := d']> (deployments (world s1)))) s1))
      | None => (false, record t (PatchDeployment name body false) s1)
      end
  | None => (false, record t (PatchDeployment name body false) s1)
  end.

End JsonPatch.

End K8s.

(** ** utils/runtime.ts *)
Module Runtime.
Import K8s.

Definition getDeploymentName (runtimeId : string) : string := "dep-" ++ runtimeId.
Definition getServiceName (runtimeId : string) : string := "svc-" ++ runtimeId.

Record RuntimeStatus := {
  status : string;
  initialised : Z;
  listening : Z;
  created : option Z;       (* [None] is NaN *)
  updated : option Z;
}.

Definition statusOf (d : V1Deployment) : RuntimeStatus :=
  let a := annotations d in
  {| status := Js.orElse (a !! "appwrite.io/status") "pending";
     initialised := if bool_decide (a !! "appwrite.io/initialised" = Some "1") then 1 else 0;
     listening := if bool_decide (a !! "appwrite.io/listening" = Some "1") then 1 else 0;
     created := Js.parseInt (Js.orElse (a !! "appwrite.io/created") "0");
     updated := Js.parseInt (Js.orElse (a !! "appwrite.io/updated") "0") |}.

Definition Qltb (a b : Q) : bool := negb (Qle_bool b a).

Section WithEnv.
Variable env : Env.

Definition runtimeExists (runtimeId : string) (s : Exec) : bool * Exec :=
  match readNamespacedDeployment env (getDeploymentName runtimeId) s with
  | (Some _, s1) => (true, s1)
  | (None, s1) => (false, s1)
  end.

Definition getRuntimeStatus (runtimeId : string) (s : Exec)
  : option RuntimeStatus * Exec :=
  match readNamespacedDeployment env (getDeploymentName runtimeId) s with
  | (Some d, s1) => (Some (statusOf d), s1)
  | (None, s1) => (None, s1)
  end.

Definition podUrl (podIP : string) : string := "http://" ++ podIP ++ ":3000".

(** The loop of [checkPodListening]; [timeout] is in seconds.
    [None] only when [fuel] runs out. *)
Fixpoint listenLoop (fuel : nat) (podIP : string) (timeout : Q)
    (startTime : Z) (s : Exec) : option (bool * Exec) :=
  match fuel with
  | O => None
  | S fuel' =>
      if Qltb (inject_Z (now (world s) - startTime)) (timeout * 1000)%Q then
        match fetchWithAbort env (podUrl podIP) 2000 s with
        | (Some _, s1) => Some (true, s1)
        | (None, s1) => listenLoop fuel' podIP timeout startTime (sleep env 500 s1)
        end
      else Some (false, s)
  end.

Definition listenFuel (timeout : Q) : nat :=
  Z.to_nat (Qceiling (timeout * 1000)%Q / 500) + 2.

Definition checkPodListening (podIP : string) (timeout : Q) (s : Exec)
  : option (bool * Exec) :=
  listenLoop (listenFuel timeout) podIP timeout (now (world s)) s.

End WithEnv.


Definition pauseAt (t : Z) (ms : Z) : Event :=
  {| issuedAt := t; call := Sleep ms |}.



(** *** waitForRuntimeReady *)

(** How [waitForRuntimeReady] ends: it returns, or it throws the error
    object. *)
Inductive Waited :=
| Returned
| Thrown (e : Errors.ErrorResponse).

(** [createErrorResponse(ErrorType.RUNTIME_TIMEOUT, ..., 500)] *)
Definition readyTimeoutError : Errors.ErrorResponse :=
  Errors.createErrorResponse Errors.RUNTIME_TIMEOUT "Runtime failed to become ready in time".

Section Waiting.
Variable env : Env.

(** The loop of [waitForRuntimeReady]; [timeout] is in seconds.
    [None] only when [fuel] runs out. *)
Fixpoint waitLoop (fuel : nat) (runtimeId : string) (timeout : Q)
    (startTime : Z) (s : Exec) : option (Waited * Exec) :=
  match fuel with
  | O => None
  | S fuel' =>
      if Qltb (inject_Z (now (world s) - startTime)) (timeout * 1000)%Q then
        match getRuntimeStatus env runtimeId s with
        | (Some st, s1) =>
            if negb (String.eqb (status st) "pending") then Some (Returned, s1)
            else waitLoop fuel' runtimeId timeout startTime (sleep env 500 s1)
        | (None, s1) => waitLoop fuel' runtimeId timeout startTime (sleep env 500 s1)
        end
      else Some (Thrown readyTimeoutError, s)
  end.

Definition waitForRuntimeReady (runtimeId : string) (timeout : Q) (s : Exec)
  : option (Waited * Exec) :=
  waitLoop (listenFuel timeout) runtimeId timeout (now (world s)) s.

End Waiting.

(** A read of the Deployment [name] issued at [t]. *)
Definition lookAt (t : Z) (name : string) (result : option V1Deployment) : Event :=
  {| issuedAt := t; call := ReadDeployment name result |}.

(** What a status read makes of its result: not there, or still
    pending, or ready. *)
Definition pendingOrGone (result : option V1Deployment) : Prop :=
  match result with
  | Some d => status (statusOf d) = "pending"
  | None => True
  end.

(** The calls of one [waitForRuntimeReady], and whether it returns:
    reads of the Deployment, each issued while less than [timeout]
    seconds have passed since [start], with a sleep of 500 ms after each
    read that found no Deployment or a pending one. *)
Inductive Awaiting (name : string) (start : Z) (timeout : Q)
  : list Event -> bool -> Prop :=
| awaiting_expired :
    Awaiting name start timeout [] false
| awaiting_ready (t : Z) (d : V1Deployment) :
    (inject_Z (t - start) < timeout * 1000)%Q ->
    status (statusOf d) <> "pending" ->
    Awaiting name start timeout [lookAt t name (Some d)] true
| awaiting_again (t t' : Z) (result : option V1Deployment) (evs : list Event) (b : bool) :
    (inject_Z (t - start) < timeout * 1000)%Q ->
    pendingOrGone result ->
    Awaiting name start timeout evs b ->
    Awaiting name start timeout (lookAt t name result :: pauseAt t' 500 :: evs) b.

Definition waitedOf (b : bool) : Waited :=
  if b then Returned else Thrown readyTimeoutError.

End Runtime.

(** ** POST /v1/runtimes: validation and the conflict check *)
Module Create.
Import K8s Runtime Errors.

(** The body of a create request after destructuring; [runtimeId] and
    [image] have no default and may be undefined. *)
Record CreateRequest := {
  runtimeId : option string;
  image : option string;
  entrypoint : string;
  source : string;
  destination : string;
  outputDirectory : string;
  variables : gmap string string;
  runtimeEntrypoint : string;
  command : string;
  timeout : Q;
  remove : bool;
  cpus : Q;
  memory : Q;
  version : string;
  restartPolicy : string;
}.

Definition msgMissingFields : string := "Missing required fields: runtimeId, image".
Definition msgBeingCreated : string :=
  "A runtime with the same ID is already being created. Attempt an execution soon.".
Definition msgAlreadyExists : string := "Runtime already exists".

Section Handler.
Variable env : Env.
(** The success payload, and the rest of the handler (build Job,
    Service, Deployment, status stamp), which the conflict check
    guards. *)
Variable Created : Type.
Variable construct : CreateRequest -> Exec -> (HttpError + Created) * Exec.

Definition postRuntimes (req : CreateRequest) (s : Exec)
  : (HttpError + Created) * Exec :=
  if negb (Js.truthyOpt (runtimeId req)) || negb (Js.truthyOpt (image req)) then
    (inl (jsonError EXECUTION_BAD_REQUEST msgMissingFields 400), s)
  else
    let id := default "" (runtimeId req) in
    match runtimeExists env id s with
    | (true, s1) =>
        match getRuntimeStatus env id s1 with
        | (Some st, s2) =>
            if String.eqb (status st) "pending"
            then (inl (jsonError RUNTIME_CONFLICT msgBeingCreated 409), s2)
            else (inl (jsonError RUNTIME_CONFLICT msgAlreadyExists 409), s2)
        | (None, s2) => (inl (jsonError RUNTIME_CONFLICT msgAlreadyExists 409), s2)
        end
    | (false, s1) => construct req s1
    end.

End Handler.


(** *** The secret, the hostname and the variables of the runtime *)

(** A digit of [Number.prototype.toString(16)]. *)
Definition hexDigit (n : N) : ascii :=
  if (n <? 10)%N then ascii_of_N (48 + n) else ascii_of_N (87 + n).

(** [b.toString(16)] on a byte. *)
Definition toString16 (b : Byte.byte) : string :=
  let n := Byte.to_N b in
  if (n <? 16)%N then String (hexDigit n) EmptyString
  else String (hexDigit (n / 16)) (String (hexDigit (n mod 16)) EmptyString).

(** [s.padStart(n, c)] *)
Definition padStart (n : nat) (c : ascii) (s : string) : string :=
  string_of_list_ascii (repeat c (n - String.length s)) ++ s.

(** [Array.from(bytes).map((b) => b.toString(16).padStart(2, '0')).join('')];
    [bytes] is what [crypto.getRandomValues] gave. *)
Definition hex (bytes : list Byte.byte) : string :=
  String.concat "" (List.map (fun b => padStart 2 "0" (toString16 b)) bytes).

Section Variables.
(** [String(n)] on a number. *)
Variable numberText : Q -> string.


End Variables.


Definition isHexDigit (c : ascii) : bool :=
  let n := N_of_ascii c in
  (((48 <=? n) && (n <=? 57)) || ((97 <=? n) && (n <=? 102)))%N.

End Create.

(** ** POST /v1/runtimes/:runtimeId/executions *)
Module Execution.
Import K8s Runtime Errors.

(** *** Cold start: scale to one replica and wait for the pod *)

Definition readyTimeout : Z := 60 * 1000.
Definition msgNotReady : string := "Runtime failed to become ready in time".

Definition scaleTo (n : Z) : list PatchOp :=
  [{| op := "replace"; path := "/spec/replicas"; value := JNum n |}].

(** How the wait loop ends. *)
Inductive Polled :=
| Ready          (* readyReplicas === 1 was read *)
| Expired        (* the loop condition failed *)
| Rejected.      (* a read threw *)

(** How this part of the handler ends. *)
Inductive Step :=
| Continue                      (* on to the pod lookup *)
| Respond (e : HttpError)       (* return c.json(...) *)
| Throw.                        (* an exception leaves the handler *)

Section ColdStart.
Variable env : Env.

Fixpoint pollReady (fuel : nat) (name : string) (startTime : Z) (s : Exec)
  : option (Polled * Exec) :=
  match fuel with
  | O => None
  | S fuel' =>
      if now (world s) - startTime <? readyTimeout then
        match readNamespacedDeployment env name s with
        | (Some currentDeployment, s1) =>
            if bool_decide (statusReadyReplicas currentDeployment = Some 1)
            then Some (Ready, s1)
            else pollReady fuel' name startTime (delay env 500 s1)
        | (None, s1) => Some (Rejected, s1)
        end
      else Some (Expired, s)
  end.

Definition pollFuel : nat := 122.

(** From [const currentReplicas = ...] to the 504 response;
    [deployment] is the object read just before. *)
Definition coldStart (runtimeId : string) (deployment : V1Deployment) (s : Exec)
  : option (Step * Exec) :=
  let name := getDeploymentName runtimeId in
  let currentReplicas := default 0 (specReplicas deployment) in
  let '(patched, s1) :=
    if currentReplicas =? 0
    then patchNamespacedDeployment env name (scaleTo 1) s
    else (true, s) in
  if patched then
    match pollReady pollFuel name (now (world s1)) s1 with
    | Some (Ready, s2) => Some (Continue, s2)
    | Some (Expired, s2) =>
        Some (Respond (jsonError RUNTIME_TIMEOUT msgNotReady 504), s2)
    | Some (Rejected, s2) => Some (Throw, s2)
    | None => None
    end
  else Some (Throw, s1).

End ColdStart.


Definition readAt (t : Z) (name : string) (result : option V1Deployment) : Event :=
  {| issuedAt := t; call := ReadDeployment name result |}.

Definition sleepAt (t : Z) (ms : Z) : Event :=
  {| issuedAt := t; call := Sleep ms |}.

Definition isRead (ev : Event) : bool :=
  match call ev with ReadDeployment _ _ => true | _ => false end.

(** The number of polls in a run of events. *)
Definition polls (evs : list Event) : nat := length (List.filter isRead evs).




(** *** Response headers *)

(** A surfaced header value: a string, or an array of strings. *)
Inductive HeaderValue :=
| Single (v : string)
| Multi (vs : list string).

Definition internalPrefix : string := "x-open-runtimes-".

(** The callback of [executionResponse.headers.forEach], applied to
    one [(key, value)] pair.  [responseHeaders] holds the own
    properties of the object; the names for which an object literal
    inherits a value (constructor, __proto__) are outside the model. *)
Definition addHeader (responseHeaders : gmap string HeaderValue)
    (kv : string * string) : gmap string HeaderValue :=
  let lowerKey := Js.toLowerCase (fst kv) in
  let value := snd kv in
  if Js.startsWith lowerKey internalPrefix then responseHeaders
  else
    match responseHeaders !! lowerKey with
    | Some (Multi vs) => <[lowerKey := Multi (vs ++ [value])]> responseHeaders
    | Some (Single v) =>
        if Js.truthy v
        then <[lowerKey := Multi [v; value]]> responseHeaders
        else <[lowerKey := Single value]> responseHeaders
    | None => <[lowerKey := Single value]> responseHeaders
    end.

Definition collectHeaders (hs : list (string * string)) : gmap string HeaderValue :=
  fold_left addHeader hs ∅.

(** [value[value.length - 1] || ''] *)
Definition lastOrEmpty (vs : list string) : string := List.last vs "".

Definition collapse (v : HeaderValue) : HeaderValue :=
  match v with
  | Multi vs => Single (lastOrEmpty vs)
  | Single x => Single x
  end.

(** [format] is the request header [x-executor-response-format]. *)
Definition surfacedHeaders (format : option string)
    (hs : list (string * string)) : gmap string HeaderValue :=
  let responseFormat := Js.orElse format "0.10.0" in
  if Js.lt responseFormat "0.11.0"
  then collapse <$> collectHeaders hs
  else collectHeaders hs.




(** *** The last-execution stamp *)

(** The body of the patch issued once the function has answered;
    [t] is [Date.now()]. *)
Definition stampBody (t : Z) : list PatchOp :=
  [{| op := "replace";
      path := "/metadata/annotations/appwrite.io~1last-execution-time";
      value := JStr (Js.toString t) |}].

(** The [try] block around the patch: a rejected patch is ignored. *)
Definition stampLastExecution (env : Env) (runtimeId : string) (s : Exec) : Exec :=
  snd (patchNamespacedDeploymentJsonPatch env (getDeploymentName runtimeId)
         (stampBody (now (world s))) s).

End Execution.

(** ** utils/pod-exec.ts *)
Module PodExec.

(** [chunk.toString('utf-8')]: the decoder reads bytes and gives
    UTF-16 code units; an ill-formed sequence gives U+FFFD. *)
Module Utf8.

Record State := {
  needed : nat;      (* continuation bytes still expected *)
  codePoint : N;
  lower : N;
  upper : N;
}.

Definition idle : State :=
  {| needed := 0; codePoint := 0; lower := 128; upper := 191 |}.

Definition pending (k : nat) (cp lo hi : N) : State :=
  {| needed := k; codePoint := cp; lower := lo; upper := hi |}.

Definition replacement : N := 65533.

(** The code units of one code point. *)
Definition units (cp : N) : list N :=
  if (cp <? 65536)%N then [cp]
  else [(55296 + (cp - 65536) / 1024)%N; (56320 + (cp - 65536) mod 1024)%N].

(** A byte read when no sequence is open. *)
Definition lead (b : N) : list N * State :=
  if (b <=? 127)%N then ([b], idle)
  else if ((194 <=? b) && (b <=? 223))%N then
    ([], pending 1 (N.land b 31) 128 191)
  else if ((224 <=? b) && (b <=? 239))%N then
    ([], pending 2 (N.land b 15)
           (if (b =? 224)%N then 160 else 128)%N
           (if (b =? 237)%N then 159 else 191)%N)
  else if ((240 <=? b) && (b <=? 244))%N then
    ([], pending 3 (N.land b 7)
           (if (b =? 240)%N then 144 else 128)%N
           (if (b =? 244)%N then 143 else 191)%N)
  else ([replacement], idle).

Fixpoint decodeFrom (st : State) (bs : list N) : list N :=
  match bs with
  | [] => match needed st with O => [] | S _ => [replacement] end
  | b :: bs' =>
      match needed st with
      | O => let '(out, st') := lead b in out ++ decodeFrom st' bs'
      | S k =>
          if ((lower st <=? b) && (b <=? upper st))%N then
            let cp := (codePoint st * 64 + N.land b 63)%N in
            match k with
            | O => units cp ++ decodeFrom idle bs'
            | S _ => decodeFrom (pending k cp 128 191) bs'
            end
          else
            let '(out, st') := lead b in
            replacement :: out ++ decodeFrom st' bs'
      end
  end.

Definition decode (bs : list Byte.byte) : list N :=
  decodeFrom idle (List.map Byte.to_N bs).

End Utf8.

(** What the exec stream delivers for one command: the chunks written
    to stdout and the final status. *)
Record ExecResult := {
  stdoutChunks : list (list Byte.byte);
  stderrChunks : list (list Byte.byte);
  exitStatus : string;
}.

(** [readFileFromPod]: the decoded chunks, concatenated; [None] is the
    rejected promise. *)
Definition readFileFromPod (r : ExecResult) : option (list N) :=
  if String.eqb (exitStatus r) "Success"
  then Some (List.concat (List.map Utf8.decode (stdoutChunks r)))
  else None.

(** [fileExistsInPod] *)
Definition fileExistsInPod (r : ExecResult) : bool :=
  String.eqb (exitStatus r) "Success".

(** *** tailFileInPod *)

(** What the exec connection does after [exec.exec] has started
    [tail -F]: it writes to one of the two streams, reports a final
    status, or goes away (the pod is deleted, the connection drops). *)
Inductive TransportEvent :=
| StdoutChunk (chunk : string)
| StderrChunk (chunk : string)
| StatusReport (status : string)
| Closed.

(** The exec connection and the calls made on the caller's callbacks
    so far. *)
Record Tail := {
  connected : bool;
  onDataCalls : list string;
  onErrorCalls : list string;
}.

(** The state in which [tailFileInPod] returns. *)
Definition started : Tail :=
  {| connected := true; onDataCalls := []; onErrorCalls := [] |}.

(** The two [Writable]s and the status callback; a connection that is
    gone delivers nothing. *)
Definition deliver (hasOnError : bool) (e : TransportEvent) (c : Tail) : Tail :=
  if connected c then
    match e with
    | StdoutChunk chunk =>
        {| connected := true; onDataCalls := onDataCalls c ++ [chunk];
           onErrorCalls := onErrorCalls c |}
    | StderrChunk chunk =>
        if hasOnError
        then {| connected := true; onDataCalls := onDataCalls c;
                onErrorCalls := onErrorCalls c ++ [chunk] |}
        else c
    | StatusReport status =>
        if negb (String.eqb status "Success") && hasOnError
        then {| connected := true; onDataCalls := onDataCalls c;
                onErrorCalls := onErrorCalls c ++ ["Tail command failed: " ++ status] |}
        else c
    | Closed =>
        {| connected := false; onDataCalls := onDataCalls c;
           onErrorCalls := onErrorCalls c |}
    end
  else c.

(** The function [tailFileInPod] returns: its body is empty. *)
Definition cleanup (c : Tail) : Tail := c.

(** What happens after [tailFileInPod] has returned: the transport
    does something, or the caller invokes the returned handle. *)
Inductive Action :=
| Transport (e : TransportEvent)
| Cancel.

Definition act (hasOnError : bool) (c : Tail) (a : Action) : Tail :=
  match a with
  | Transport e => deliver hasOnError e c
  | Cancel => cleanup c
  end.

Definition tailFileInPod (hasOnError : bool) (history : list Action) : Tail :=
  fold_left (act hasOnError) history started.

(** A history without its calls of the handle. *)
Definition withoutCancel (history : list Action) : list Action :=
  List.filter (fun a => match a with Cancel => false | Transport _ => true end) history.


(** What a history delivers: the part of it that comes before the
    connection goes away, its stdout chunks, and the messages of the
    errors it gives rise to. *)
Fixpoint untilClosed (history : list Action) : list Action :=
  match history with
  | [] => []
  | Transport Closed :: _ => []
  | a :: history' => a :: untilClosed history'
  end.

Definition stdoutOf (history : list Action) : list string :=
  List.concat
    (List.map (fun a => match a with
                        | Transport (StdoutChunk chunk) => [chunk]
                        | _ => []
                        end) history).

Definition errorsOf (history : list Action) : list string :=
  List.concat
    (List.map (fun a => match a with
                        | Transport (StderrChunk chunk) => [chunk]
                        | Transport (StatusReport status) =>
                            if String.eqb status "Success" then []
                            else ["Tail command failed: " ++ status]
                        | _ => []
                        end) history).

End PodExec.

(** ** Execution logs of a v5 runtime (routes/runtimes.ts) *)
Module ExecutionLogs.
Import PodExec.

Definition MAX_LOG_SIZE : Z := 1048576.

Definition newline : string := String (ascii_of_nat 10) EmptyString.

(** The code units of a string literal. *)
Definition lit (s : string) : list N := List.map N_of_ascii (list_ascii_of_string s).

(** [(MAX_LOG_SIZE / 1048576).toFixed(2)] is the text 1.00 *)
Definition noticeFor (what : string) : list N :=
  lit (newline ++ what ++ " file has been truncated to 1.00MB.").

Definition jsLength (content : list N) : Z := Z.of_nat (length content).

(** [content.slice(0, n)] for [0 <= n] *)
Definition sliceTo (n : Z) (content : list N) : list N :=
  firstn (Z.to_nat n) content.

Definition limitSize (what : string) (content : list N) : list N :=
  if MAX_LOG_SIZE <? jsLength content
  then sliceTo MAX_LOG_SIZE content ++ noticeFor what
  else content.

(** One of the two inner [try] blocks: [r] is what [cat] on the file
    gives. *)
Definition surfaced (what : string) (r : ExecResult) : list N :=
  match readFileFromPod r with
  | Some content => limitSize what content
  | None => []
  end.

Definition logFile (logId : string) : string := "/mnt/logs/" ++ logId ++ "_logs.log".
Definition errorFile (logId : string) : string := "/mnt/logs/" ++ logId ++ "_errors.log".

(** The whole block: [cat] runs a read of a path in the runtime
    container; [podName] is [pod.metadata?.name]. *)
Definition extractLogs (version logId : string) (logging : bool)
    (podName : option string) (cat : string -> ExecResult) : list N * list N :=
  if String.eqb version "v5" && Js.truthy logId && logging && Js.truthyOpt podName
  then (surfaced "Log" (cat (logFile logId)), surfaced "Error" (cat (errorFile logId)))
  else ([], []).

(** The size in bytes of the file behind an exec result. *)
Definition byteSize (r : ExecResult) : Z :=
  Z.of_nat (length (List.concat (stdoutChunks r))).

End ExecutionLogs.

(** ** maintenance/loop.ts: one cycle of the reaper, lease held *)
Module Maintenance.
Import K8s.

(** [parseInt(process.env.OPR_EXECUTOR_INACTIVE_THRESHOLD || '300', 10) * 1000];
    [None] is NaN. *)
Definition INACTIVE_THRESHOLD (envVar : option string) : option Z :=
  (fun n => n * 1000) <$> Js.parseInt (Js.orElse envVar "300").

(** [lastExecutionTimeStr ? parseInt(lastExecutionTimeStr, 10) : 0] *)
Definition lastExecutionTime (dep : V1Deployment) : option Z :=
  let lastExecutionTimeStr := annotations dep !! "appwrite.io/last-execution-time" in
  if Js.truthyOpt lastExecutionTimeStr
  then Js.parseInt (default "" lastExecutionTimeStr)
  else Some 0.

(** [now - lastExecutionTime > INACTIVE_THRESHOLD], false as soon as
    one side is NaN. *)
Definition inactive (threshold : option Z) (t : Z) (dep : V1Deployment) : bool :=
  match lastExecutionTime dep, threshold with
  | Some l, Some th => th <? t - l
  | _, _ => false
  end.

(** The negation of the [continue] guard. *)
Definition candidate (dep : V1Deployment) : bool :=
  Js.truthyOpt (labels dep !! "appwrite.io/runtime-id")
  && Js.truthyOpt (metadataName dep)
  && bool_decide (specReplicas dep = Some 1).

Definition scaleDown : list PatchOp :=
  [{| op := "replace"; path := "/spec/replicas"; value := JNum 0 |}].

(** How the [for] loop is left. *)
Inductive Ending :=
| Completed       (* every item was visited *)
| Interrupted     (* [shutdownRequested] was seen: [break] *)
| Failed.         (* a patch threw: the [catch] around the loop *)

Section Cycle.
Variable env : Env.
Variable threshold : option Z.

Fixpoint reapItems (items : list V1Deployment) (s : Exec) : Ending * Exec :=
  match items with
  | [] => (Completed, s)
  | dep :: rest =>
      if shutdownRequested (world s) then (Interrupted, s)
      else if negb (candidate dep) then reapItems rest s
      else if inactive threshold (now (world s)) dep then
        match patchNamespacedDeployment env (default "" (metadataName dep)) scaleDown s with
        | (true, s1) => reapItems rest s1
        | (false, s1) => (Failed, s1)
        end
      else reapItems rest s
  end.

(** The [try] block of one cycle, entered once [acquireLease] has
    answered true. *)
Definition maintenanceCycle (s : Exec) : Ending * Exec :=
  let '(items, s1) := listNamespacedDeployment env "appwrite.io/role" "runtime" s in
  reapItems items s1.

End Cycle.

(** The name a patch is addressed to. *)
Definition nameOf (dep : V1Deployment) : string := default "" (metadataName dep).

(** The event of a scale-down of [dep] issued at [t]. *)
Definition scaleDownOf (dep : V1Deployment) (t : Z) (ok : bool) : Event :=
  {| issuedAt := t; call := PatchDeployment (nameOf dep) scaleDown ok |}.

End Maintenance.

(** ** GET /v1/runtimes: the page limit (routes/runtimes.ts) *)
Module Listing.

Definition defaultLimit : Z := 25.
Definition maxLimit : Z := 100.

(** [limitParam] is [c.req.query('limit')]: undefined when absent. *)
Definition pageLimit (limitParam : option string) : Z :=
  if Js.truthyOpt limitParam then
    match Js.parseInt (default "" limitParam) with
    | Some parsedLimit =>
        if 0 <? parsedLimit then Z.min parsedLimit maxLimit else defaultLimit
    | None => defaultLimit
    end
  else defaultLimit.

(** The headers of the 200 response. *)
Definition listHeaders (limit : Z) (continueToken remaining : string)
  : gmap string string :=
  <["X-PAGINATION-LIMIT" := Js.toString limit]>
    (<["X-PAGINATION-CONTINUE" := continueToken]>
       (<["X-PAGINATION-REMAINING" := remaining]> ∅)).

(** What [listNamespacedDeployment] answers: the items (here their
    names), the continue token and the remaining count. *)
Record Page := {
  items : list string;
  continueToken : option string;
  remainingItemCount : option Z;
}.

Record ListResponse := {
  body : list string;
  headers : gmap string string;
}.

(** The handler; [list limit continue] is the cluster call, [None]
    when it throws. *)
Definition getRuntimes (limitParam continueParam : option string)
    (list : Z -> option string -> option Page)
  : Errors.HttpError + ListResponse :=
  let limit := pageLimit limitParam in
  match list limit continueParam with
  | Some page =>
      inr {| body := items page;
             headers := listHeaders limit
                          (default "" (continueToken page))
                          (default "" (Js.toString <$> remainingItemCount page)) |}
  | None =>
      inl (Errors.jsonError Errors.GENERAL_UNKNOWN "Failed to list runtimes" 500)
  end.

(** What the claim calls clamping to an interval. *)
Definition clamp (lo hi x : Z) : Z := Z.max lo (Z.min x hi).

End Listing.

(** ** JavaScript strings as sequences of UTF-16 code units *)
Module Text.

(** WhiteSpace and LineTerminator code units: what [trim] removes and
    [parseInt] skips. *)
Definition isWhiteSpace (u : N) : bool :=
  (((9 <=? u) && (u <=? 13)) || (u =? 32) || (u =? 160) || (u =? 5760)
   || ((8192 <=? u) && (u <=? 8202)) || (u =? 8232) || (u =? 8233)
   || (u =? 8239) || (u =? 8287) || (u =? 12288) || (u =? 65279))%N.

Fixpoint trimStart (s : list N) : list N :=
  match s with
  | u :: s' => if isWhiteSpace u then trimStart s' else s
  | [] => []
  end.

Definition trimEnd (s : list N) : list N := rev (trimStart (rev s)).

Definition trim (s : list N) : list N := trimEnd (trimStart s).

(** [if (s)] on a string. *)
Definition truthy (s : list N) : bool :=
  match s with [] => false | _ :: _ => true end.

Definition digitOf (u : N) : option Z :=
  if ((48 <=? u) && (u <=? 57))%N then Some (Z.of_N u - 48) else None.

Fixpoint parseDigits (acc : option Z) (s : list N) : option Z :=
  match s with
  | u :: s' =>
      match digitOf u with
      | Some d => parseDigits (Some (10 * default 0 acc + d)) s'
      | None => acc
      end
  | [] => acc
  end.

(** [parseInt(s, 10)]; [None] stands for [NaN]. *)
Definition parseInt (s : list N) : option Z :=
  match trimStart s with
  | 45%N :: s' => Z.opp <$> parseDigits None s'
  | 43%N :: s' => parseDigits None s'
  | s' => parseDigits None s'
  end.

(** [s.split(sep)] for a separator of one code unit. *)
Fixpoint split (sep : N) (s : list N) : list (list N) :=
  match s with
  | [] => [[]]
  | u :: s' =>
      if (u =? sep)%N then [] :: split sep s'
      else match split sep s' with
           | p :: ps => (u :: p) :: ps
           | [] => [[u]]
           end
  end.

(** [s.split(sep, limit)] *)
Definition splitLimit (sep : N) (limit : nat) (s : list N) : list (list N) :=
  firstn limit (split sep s).

(** A relative index of [slice]: NaN counts as 0, a negative index
    counts from the end. *)
Definition toIndex (len : Z) (i : option Z) : Z :=
  let n := default 0 i in
  if n <? 0 then Z.max (len + n) 0 else Z.min n len.

(** [s.slice(start, end)] *)
Definition slice (start finish : option Z) (s : list N) : list N :=
  let len := Z.of_nat (length s) in
  let from := toIndex len start in
  let to := toIndex len finish in
  firstn (Z.to_nat (to - from)) (skipn (Z.to_nat from) s).

(** [s.replace(/\n/g, '\\n')] *)
Fixpoint escapeNewlines (s : list N) : list N :=
  match s with
  | u :: s' => if (u =? 10)%N then 92%N :: 110%N :: escapeNewlines s'
               else u :: escapeNewlines s'
  | [] => []
  end.

(** The code units of a decimal numeral: a minus sign and the digits. *)
Definition decimalUnit (u : N) : Prop := (u = 45 \/ 48 <= u <= 57)%N.

End Text.

(** ** utils/logs.ts *)
Module Logs.

Definition getLogOffset (logs : list N) : Z :=
  let contentSplit := Text.splitLimit 10 2 logs in
  let offset := Z.of_nat (length (default [] (head contentSplit))) in
  offset + 1.

Record Part := {
  timestamp : list N;
  length : option Z;       (* [None] is NaN *)
}.

Section ParseTiming.
(** [isoAfter datetime timingStr]: the text of the date
    [datetime + Math.ceil(parseFloat(timingStr) * 1000000) / 1000]
    as [toISOString] gives it, with [+00:00] for the final Z; [None]
    when the date is invalid and [toISOString] throws. *)
Variable isoAfter : Z -> list N -> option (list N).

(** The body of the [for] loop on one row. *)
Definition parseRow (datetime : Z) (row : list N) : option Part :=
  let fields := Text.splitLimit 32 2 row in
  let timingStr := default [] (fields !! 0%nat) in
  let lengthStr := fields !! 1%nat in
  let len := Text.parseInt
               (match lengthStr with
                | Some l => if Text.truthy l then l else [48%N]
                | None => [48%N]
                end) in
  match isoAfter datetime timingStr with
  | Some stamp => Some {| timestamp := stamp; length := len |}
  | None => None
  end.

Fixpoint parseRows (datetime : Z) (rows : list (list N)) : option (list Part) :=
  match rows with
  | [] => Some []
  | row :: rows' =>
      if negb (Text.truthy (Text.trim row)) then parseRows datetime rows'
      else
        match parseRow datetime row with
        | Some part =>
            match parseRows datetime rows' with
            | Some parts => Some (part :: parts)
            | None => None
            end
        | None => None
        end
  end.

(** [datetime] is [startDateTime || new Date()] in milliseconds;
    [None] is an exception. *)
Definition parseTiming (timing : list N) (datetime : Z) : option (list Part) :=
  if negb (Text.truthy (Text.trim timing)) then Some []
  else parseRows datetime (Text.split 10 timing).

End ParseTiming.

(** One entry of the build output. *)
Record Entry := {
  stamp : list N;
  content : list N;
}.

(** NaN-aware sum and absolute value. *)
Definition plus (a b : option Z) : option Z :=
  match a, b with Some x, Some y => Some (x + y) | _, _ => None end.

(** The loop over the parts: the entries pushed, and the offset it
    leaves. *)
Fixpoint entriesFrom (logsContent : list N) (introOffset : Z) (offset : option Z)
    (parts : list Part) : list Entry * option Z :=
  match parts with
  | [] => ([], offset)
  | part :: parts' =>
      let logContent :=
        Text.slice (plus (Some introOffset) offset)
                   (plus (plus (Some introOffset) offset) (Z.abs <$> length part))
                   logsContent in
      let '(rest, final) :=
        entriesFrom logsContent introOffset (plus offset (length part)) parts' in
      ({| stamp := timestamp part; content := logContent |} :: rest, final)
  end.

(** What the log stream appends for one entry:
    [`${timestamp} ${escapedContent}\n`]. *)
Definition streamLine (e : Entry) : list N :=
  (stamp e ++ 32%N :: Text.escapeNewlines (content e) ++ [10%N])%list.

(** What it appends for the entries of one chunk of timings. *)
Definition streamText (entries : list Entry) : list N :=
  List.concat (List.map streamLine entries).

End Logs.

(** ** The format of a timing file

    The build command runs under script(1) with a timing log: one line
    per write, the delay in seconds and the number of bytes written,
    separated by a space. *)
Module Timing.

Definition line (delay : list N) (count : Z) : list N :=
  (delay ++ 32%N :: ExecutionLogs.lit (Js.toString count))%list.

Definition file (entries : list (list N * Z)) : list N :=
  List.concat (List.map (fun e => (line (fst e) (snd e) ++ [10%N])%list) entries).

(** The sum of the lengths of a list of parts, NaN counted as 0. *)
Definition total (parts : list Logs.Part) : Z :=
  fold_right (fun p acc => default 0 (Logs.length p) + acc) 0 parts.

End Timing.

(** ** middleware/auth.ts *)
Module Auth.

Inductive Verdict :=
| Next                                     (* [await next()] *)
| Unauthorized (status : Z) (error : string).

(** [authHeader] is [c.req.header('authorization')], [expected] is
    [process.env.OPR_EXECUTOR_SECRET]; both may be undefined. *)
Definition authMiddleware (authHeader expected : option string) : Verdict :=
  let secretKey := Js.orElse (authHeader ≫= fun h => Js.split " " h !! 1%nat) "" in
  let expectedSecret := Js.orElse expected "" in
  if negb (Js.truthy secretKey) || negb (String.eqb secretKey expectedSecret)
  then Unauthorized 401 "Missing executor key"
  else Next.

End Auth.

(** ** utils/runtime.ts: updateRuntimeStatus *)
Module StatusUpdate.
Import K8s Runtime.

(** The [updates] argument: each field may be undefined.  The numbers
    are integers at every call site. *)
Record Updates := {
  status : option string;
  initialised : option Z;
  listening : option Z;
  updated : option Z;
}.

Definition replaceAnnotation (escapedKey v : string) : PatchOp :=
  {| op := "replace"; path := "/metadata/annotations/" ++ escapedKey; value := JStr v |}.

Definition pushIf (field : option string) (escapedKey : string) : list PatchOp :=
  match field with
  | Some v => [replaceAnnotation escapedKey v]
  | None => []
  end.

(** The [patch] array as the four [if]s build it. *)
Definition patchOf (updates : Updates) : list PatchOp :=
  (pushIf (status updates) "appwrite.io~1status"
   ++ pushIf (Js.toString <$> initialised updates) "appwrite.io~1initialised"
   ++ pushIf (Js.toString <$> listening updates) "appwrite.io~1listening"
   ++ pushIf (Js.toString <$> updated updates) "appwrite.io~1updated")%list.

(** [false] is the rejected promise. *)
Definition updateRuntimeStatus (env : Env) (runtimeId : string) (updates : Updates)
    (s : Exec) : bool * Exec :=
  let deploymentName := getDeploymentName runtimeId in
  let patch := patchOf updates in
  if (0 <? length patch)%nat
  then patchNamespacedDeploymentJsonPatch env deploymentName patch s
  else (true, s).

(** What the annotations named by [updates] must be for the patch to
    apply: present. *)
Definition present (updates : Updates) (d : V1Deployment) : Prop :=
  (is_Some (status updates) -> is_Some (annotations d !! "appwrite.io/status"))
  /\ (is_Some (initialised updates) -> is_Some (annotations d !! "appwrite.io/initialised"))
  /\ (is_Some (listening updates) -> is_Some (annotations d !! "appwrite.io/listening"))
  /\ (is_Some (updated updates) -> is_Some (annotations d !! "appwrite.io/updated")).

(** What a status read gives after the update. *)
Definition readBack (updates : Updates) (before : RuntimeStatus) : RuntimeStatus :=
  {| Runtime.status :=
       match status updates with
       | Some v => Js.orElse (Some v) "pending"
       | None => Runtime.status before
       end;
     Runtime.initialised :=
       match initialised updates with
       | Some n => if n =? 1 then 1 else 0
       | None => Runtime.initialised before
       end;
     Runtime.listening :=
       match listening updates with
       | Some n => if n =? 1 then 1 else 0
       | None => Runtime.listening before
       end;
     Runtime.created := Runtime.created before;
     Runtime.updated :=
       match updated updates with
       | Some n => Some n
       | None => Runtime.updated before
       end |}.

End StatusUpdate.

(** ** k8s/definitions.ts *)
Module Definitions.

Record EnvVar := {
  name : string;
  value : string;
}.

Record VolumeMount := {
  mountName : string;
  mountPath : string;
}.

Record Resources := {
  cpu : string;
  memory : string;
}.

Record Container := {
  containerName : string;
  image : string;
  workingDir : option string;
  command : list string;
  args : list string;
  env : list EnvVar;
  containerPorts : list Z;
  volumeMounts : list VolumeMount;
  requests : option Resources;
  limits : option Resources;
}.

(** A pod template's spec; every volume is an [emptyDir]. *)
Record PodSpec := {
  restartPolicy : string;
  volumes : list string;
  initContainers : list Container;
  containers : list Container;
}.

Record V1Job := {
  jobName : string;
  jobLabels : gmap string string;
  ttlSecondsAfterFinished : Z;
  backoffLimit : Z;
  jobTemplate : PodSpec;
}.

Record V1Service := {
  serviceName : string;
  serviceLabels : gmap string string;
  selector : gmap string string;
  ports : list (Z * Z);            (* port, targetPort *)
}.

Record V1Deployment := {
  deploymentName : string;
  labels : gmap string string;
  annotations : gmap string string;
  replicas : Z;
  matchLabels : gmap string string;
  templateLabels : gmap string string;
  template : PodSpec;
}.

Record RuntimeResourcesParams := {
  runtimeId : string;
  runtimeImage : string;
  artifactPath : string;
  version : string;
  entrypoint : string;
  runtimeEntrypoint : string;
  variables : gmap string string;
  secret : string;
  cpus : Q;
  memoryMb : Q;
  hostname : string;
}.

Record BuildJobParams := {
  buildJobName : string;
  buildRuntimeId : string;
  buildImage : string;
  sourceCode : string;
  buildCommand : string;
  buildArtifactPath : string;
  buildVersion : string;
  buildVariables : gmap string string;
}.

(** [Object.entries(variables).map(([key, value]) => ({ name: key, value: String(value) }))] *)
Definition envVars (variables : gmap string string) : list EnvVar :=
  List.map (fun kv => {| name := fst kv; value := snd kv |}) (map_to_list variables).

Definition runtimeLabels (runtimeId : string) : gmap string string :=
  <["appwrite.io/role" := "runtime"]> (<["appwrite.io/runtime-id" := runtimeId]> ∅).

Definition createRuntimeServiceDefinition (runtimeId : string) : V1Service :=
  let labels := runtimeLabels runtimeId in
  {| serviceName := "svc-" ++ runtimeId;
     serviceLabels := labels;
     selector := labels;
     ports := [(3000, 3000)] |}.

Section WithConfig.
(** s3/config.ts and s3/scripts.ts: the validated settings and the two
    shell scripts. *)
Variables S3_ENDPOINT S3_BUCKET S3_ACCESS_KEY_ID S3_SECRET_ACCESS_KEY S3_REGION : string.
Variables getS3DownloadScript getS3DeleteScript : string.
(** A number inside a template literal. *)
Variable numberText : Q -> string.

Definition createBuildJobDefinition (p : BuildJobParams) : V1Job :=
  let command := buildCommand p in
  let version := buildVersion p in
  let sourceFile := if Js.includes (sourceCode p) "tar.gz" then "code.tar.gz" else "code.tar" in
  let buildCommand :=
    if String.eqb version "v2" then
      "touch /var/tmp/logs.txt && (" ++ command
        ++ ") >> /var/tmp/logs.txt 2>&1 && cat /var/tmp/logs.txt"
    else
      "mkdir -p /tmp/logging && touch /tmp/logging/timings.txt && touch /tmp/logging/logs.txt && script --log-out /tmp/logging/logs.txt --flush --log-timing /tmp/logging/timings.txt --return --quiet --command "
        ++ Js.quote ++ Js.escapeQuotes command ++ Js.quote in
  let codeMountPath := if String.eqb version "v2" then "/usr/code" else "/mnt/code" in
  let workdir := if String.eqb version "v2" then "/usr/code" else "" in
  {| jobName := buildJobName p;
     jobLabels := <["appwrite.io/role" := "build"]>
                    (<["appwrite.io/runtime-id" := buildRuntimeId p]> ∅);
     ttlSecondsAfterFinished := 3600;
     backoffLimit := 0;
     jobTemplate :=
       {| restartPolicy := "Never";
          volumes := (["source-dir"; "build-dir"]
                      ++ (if String.eqb version "v5" then ["logging-dir"] else []))%list;
          initContainers :=
            [{| containerName := "prepare-source";
                image := "alpine:latest";
                workingDir := None;
                command := ["/bin/sh"; "-c"];
                args := ["echo " ++ Js.quote ++ "$SOURCE_CODE_BASE64" ++ Js.quote
                           ++ " | base64 -d > /source/" ++ sourceFile ++ " && "
                           ++ "tar -xzf /source/" ++ sourceFile
                           ++ " -C /source 2>/dev/null || tar -xf /source/" ++ sourceFile
                           ++ " -C /source"];
                env := [{| name := "SOURCE_CODE_BASE64"; value := sourceCode p |}];
                containerPorts := [];
                volumeMounts := [{| mountName := "source-dir"; mountPath := "/source" |}];
                requests := None;
                limits := None |}];
          containers :=
            [{| containerName := "build-container";
                image := buildImage p;
                workingDir := Some (Js.orElse (Some workdir) "/source");
                command := ["/bin/sh"; "-c"];
                args := [buildCommand ++ " && "
                           ++ "tar -czf /tmp/artifact.tar.gz . && "
                           ++ "aws configure set aws_access_key_id $S3_ACCESS_KEY_ID && "
                           ++ "aws configure set aws_secret_access_key $S3_SECRET_ACCESS_KEY && "
                           ++ "aws configure set region $S3_REGION && "
                           ++ "aws --endpoint-url $S3_ENDPOINT s3 cp /tmp/artifact.tar.gz s3://$S3_BUCKET/"
                           ++ buildArtifactPath p];
                env := ([{| name := "S3_ENDPOINT"; value := S3_ENDPOINT |};
                         {| name := "S3_BUCKET"; value := S3_BUCKET |};
                         {| name := "S3_ACCESS_KEY_ID"; value := S3_ACCESS_KEY_ID |};
                         {| name := "S3_SECRET_ACCESS_KEY"; value := S3_SECRET_ACCESS_KEY |};
                         {| name := "S3_REGION"; value := S3_REGION |}]
                        ++ envVars (buildVariables p))%list;
                containerPorts := [];
                volumeMounts :=
                  ([{| mountName := "source-dir"; mountPath := "/tmp" |};
                    {| mountName := "build-dir"; mountPath := codeMountPath |}]
                   ++ (if String.eqb version "v5"
                       then [{| mountName := "logging-dir"; mountPath := "/tmp/logging" |}]
                       else []))%list;
                requests := None;
                limits := None |}] |} |}.

(** [now] is [Date.now()]. *)
Definition createRuntimeDeploymentDefinition (p : RuntimeResourcesParams) (now : Z)
  : V1Deployment :=
  let version := version p in
  let labels := runtimeLabels (runtimeId p) in
  let codeMountPath := if String.eqb version "v2" then "/usr/code" else "/mnt/code" in
  let workdir := if String.eqb version "v2" then "/usr/code" else "" in
  let entrypointCommand :=
    if Js.truthy (runtimeEntrypoint p) then ["/bin/sh"; "-c"; runtimeEntrypoint p]
    else if String.eqb version "v2" && negb (Js.truthy (entrypoint p)) then []
    else ["tail"; "-f"; "/dev/null"] in
  let annotations : gmap string string :=
    <["appwrite.io/status" := "pending"]>
      (<["appwrite.io/initialised" := "0"]>
         (<["appwrite.io/listening" := "0"]>
            (<["appwrite.io/created" := Js.toString now]>
               (<["appwrite.io/updated" := Js.toString now]>
                  (<["appwrite.io/version" := version]>
                     (<["appwrite.io/secret" := secret p]>
                        (<["appwrite.io/hostname" := hostname p]> ∅))))))) in
  let resources := {| cpu := numberText (cpus p); memory := numberText (memoryMb p) ++ "Mi" |} in
  {| deploymentName := "dep-" ++ runtimeId p;
     labels := labels;
     annotations := annotations;
     replicas := 0;
     matchLabels := labels;
     templateLabels := labels;
     template :=
       {| restartPolicy := "Always";
          volumes := (["code-dir"]
                      ++ (if String.eqb version "v5" then ["logs-dir"] else []))%list;
          initContainers :=
            [{| containerName := "fetch-artifact";
                image := "amazon/aws-cli:latest";
                workingDir := None;
                command := ["/bin/sh"; "-c"];
                args := [getS3DownloadScript];
                env := [{| name := "AWS_ACCESS_KEY_ID"; value := S3_ACCESS_KEY_ID |};
                        {| name := "AWS_SECRET_ACCESS_KEY"; value := S3_SECRET_ACCESS_KEY |};
                        {| name := "AWS_REGION"; value := S3_REGION |};
                        {| name := "S3_ENDPOINT"; value := S3_ENDPOINT |};
                        {| name := "S3_BUCKET"; value := S3_BUCKET |};
                        {| name := "ARTIFACT_PATH"; value := artifactPath p |}];
                containerPorts := [];
                volumeMounts := [{| mountName := "code-dir"; mountPath := "/code" |}];
                requests := None;
                limits := None |}];
          containers :=
            [{| containerName := "runtime-container";
                image := runtimeImage p;
                workingDir := Some (Js.orElse (Some workdir) codeMountPath);
                command := entrypointCommand;
                args := [];
                env := envVars (variables p);
                containerPorts := [3000];
                volumeMounts :=
                  ([{| mountName := "code-dir"; mountPath := codeMountPath |}]
                   ++ (if String.eqb version "v5"
                       then [{| mountName := "logs-dir"; mountPath := "/mnt/logs" |}]
                       else []))%list;
                requests := Some resources;
                limits := Some resources |}] |} |}.

Definition createCleanupJobDefinition (jobName runtimeId : string) : V1Job :=
  {| jobName := jobName;
     jobLabels := ∅;
     ttlSecondsAfterFinished := 60;
     backoffLimit := 1;
     jobTemplate :=
       {| restartPolicy := "Never";
          volumes := [];
          initContainers := [];
          containers :=
            [{| containerName := "cleanup-container";
                image := "amazon/aws-cli:latest";
                workingDir := None;
                command := ["/bin/sh"; "-c"];
                args := [getS3DeleteScript];
                env := [{| name := "AWS_ACCESS_KEY_ID"; value := S3_ACCESS_KEY_ID |};
                        {| name := "AWS_SECRET_ACCESS_KEY"; value := S3_SECRET_ACCESS_KEY |};
                        {| name := "AWS_REGION"; value := S3_REGION |};
                        {| name := "S3_ENDPOINT"; value := S3_ENDPOINT |};
                        {| name := "S3_BUCKET"; value := S3_BUCKET |};
                        {| name := "RUNTIME_ID"; value := runtimeId |}];
                containerPorts := [];
                volumeMounts := [];
                requests := None;
                limits := None |}] |} |}.

End WithConfig.

(** Every volume a container of the pod mounts is one the pod declares. *)
Definition mountsDeclared (pod : PodSpec) : Prop :=
  Forall (fun c => Forall (fun m => In (mountName m) (volumes pod)) (volumeMounts c))
         (initContainers pod ++ containers pod)%list.

(** The Deployment as the cluster stores it, seen through the fields
    the executor reads back; no replica is ready yet. *)
Definition stored (d : V1Deployment) : K8s.V1Deployment :=
  {| K8s.metadataName := Some (deploymentName d);
     K8s.labels := labels d;
     K8s.annotations := annotations d;
     K8s.specReplicas := Some (replicas d);
     K8s.statusReadyReplicas := None |}.

End Definitions.

(** ** maintenance/loop.ts: acquireLease *)
Module Lease.

Definition LEASE_NAME : string := "executor-maintenance-lock".
Definition LEASE_DURATION : Z := 30.

(** [hostname] is [process.env.HOSTNAME]. *)
Definition LEASE_IDENTITY (hostname : option string) (pid : Z) : string :=
  Js.orElse hostname "unknown" ++ "-" ++ Js.toString pid.

(** The fields of a lease's spec; times are in milliseconds. *)
Record V1LeaseSpec := {
  holderIdentity : option string;
  leaseDurationSeconds : option Z;
  acquireTime : option Z;
  renewTime : option Z;
  leaseTransitions : option Z;
}.

(** What [readNamespacedLeaseWithHttpInfo] answers: it throws, or it
    gives a status code and the lease, whose spec may be undefined. *)
Inductive ReadResult :=
| ReadThrows
| ReadInfo (httpStatusCode : option Z) (spec : option V1LeaseSpec).

(** The calls on the coordination API. *)
Inductive Call :=
| Read
| Create (body : V1LeaseSpec)
| Replace (body : V1LeaseSpec).

(** [{ ...spec }] on a spec that may be undefined. *)
Definition spread (spec : option V1LeaseSpec) : V1LeaseSpec :=
  default {| holderIdentity := None; leaseDurationSeconds := None; acquireTime := None;
             renewTime := None; leaseTransitions := None |} spec.

(** [identity] is LEASE_IDENTITY; [t0] is the clock when the function
    is entered, [t1] the clock once the read has answered; [writeOk]
    tells whether the create or replace call succeeds.  The answer, and
    the calls issued. *)
Definition acquireLease (identity : string) (t0 t1 : Z) (read : ReadResult)
    (writeOk : bool) : bool * list Call :=
  match read with
  | ReadThrows => (false, [Read])
  | ReadInfo httpStatusCode spec =>
      if bool_decide (httpStatusCode = Some 404) then
        (writeOk,
         [Read; Create {| holderIdentity := Some identity;
                          leaseDurationSeconds := Some LEASE_DURATION;
                          acquireTime := Some t0;
                          renewTime := Some t0;
                          leaseTransitions := None |}])
      else if 400 <=? default 0 httpStatusCode then (false, [Read])
      else
        let renewTime := default 0 (spec ≫= renewTime) in
        let duration :=
          match spec ≫= leaseDurationSeconds with
          | Some n => if n =? 0 then LEASE_DURATION else n
          | None => LEASE_DURATION
          end in
        if bool_decide (spec ≫= holderIdentity = Some identity) then
          let current := spread spec in
          (writeOk,
           [Read; Replace {| holderIdentity := holderIdentity current;
                             leaseDurationSeconds := leaseDurationSeconds current;
                             acquireTime := acquireTime current;
                             renewTime := Some t1;
                             leaseTransitions := leaseTransitions current |}])
        else if duration * 1000 <? t0 - renewTime then
          let current := spread spec in
          (writeOk,
           [Read; Replace {| holderIdentity := Some identity;
                             leaseDurationSeconds := leaseDurationSeconds current;
                             acquireTime := Some t1;
                             renewTime := Some t1;
                             leaseTransitions := leaseTransitions current |}])
        else (false, [Read])
  end.

(** The spec a call writes. *)
Definition written (c : Call) : option V1LeaseSpec :=
  match c with
  | Read => None
  | Create body | Replace body => Some body
  end.

End Lease.

(** ** maintenance/loop.ts: starting and stopping the loop

    The module keeps three variables; [runMaintenanceLoop] is an async
    function that sleeps on a timer, runs a cycle, and starts over.
    Timers are named by numbers; a timer object is always truthy. *)
Module Loop.

(** Where the one live call of [runMaintenanceLoop] is suspended. *)
Inductive Pc :=
| NotCalled
| Sleeping (timer : nat)   (* on the promise that the callback of [timer] resolves *)
| Working                  (* on acquireLease or on a call of the cycle *)
| Finished.                (* it has returned *)

Record State := {
  isRunning : bool;
  shutdownRequested : bool;
  maintenanceTimeoutId : option nat;
  armed : list nat;        (* timers set, not yet fired, not cleared *)
  nextTimer : nat;
  pc : Pc;
}.

Definition initial : State :=
  {| isRunning := false; shutdownRequested := false; maintenanceTimeoutId := None;
     armed := []; nextTimer := 0; pc := NotCalled |}.

(** What happens to the process. *)
Inductive Event :=
| Run                (* runMaintenanceLoop() is called *)
| Stop               (* stopMaintenanceLoop() is called *)
| Fire (timer : nat) (* the event loop runs the callback of a timer that is due *)
| CycleDone.         (* the awaits after the sleep have all been answered *)

(** [clearTimeout(timer)] *)
Definition clearTimeout (timer : nat) (timers : list nat) : list nat :=
  List.filter (fun t => negb (Nat.eqb t timer)) timers.

(** The code after the loop. *)
Definition leave (st : State) : State :=
  {| isRunning := false; shutdownRequested := shutdownRequested st;
     maintenanceTimeoutId := None; armed := armed st; nextTimer := nextTimer st;
     pc := Finished |}.

(** The head of the [while] loop, up to the [await] of the sleep. *)
Definition loopHead (st : State) : State :=
  if shutdownRequested st then leave st
  else
    let timeoutId := nextTimer st in
    {| isRunning := isRunning st; shutdownRequested := false;
       maintenanceTimeoutId := Some timeoutId; armed := timeoutId :: armed st;
       nextTimer := S timeoutId; pc := Sleeping timeoutId |}.

(** After the sleep: [break] on a shutdown request, the lease and the
    cycle otherwise. *)
Definition afterSleep (st : State) : State :=
  if shutdownRequested st then leave st
  else {| isRunning := isRunning st; shutdownRequested := shutdownRequested st;
          maintenanceTimeoutId := maintenanceTimeoutId st; armed := armed st;
          nextTimer := nextTimer st; pc := Working |}.

Definition runMaintenanceLoop (st : State) : State :=
  if isRunning st then st
  else loopHead {| isRunning := true; shutdownRequested := false;
                   maintenanceTimeoutId := maintenanceTimeoutId st; armed := armed st;
                   nextTimer := nextTimer st; pc := pc st |}.

Definition stopMaintenanceLoop (st : State) : State :=
  if negb (isRunning st) then st
  else {| isRunning := isRunning st; shutdownRequested := true;
          maintenanceTimeoutId := None;
          armed := match maintenanceTimeoutId st with
                   | Some timer => clearTimeout timer (armed st)
                   | None => armed st
                   end;
          nextTimer := nextTimer st; pc := pc st |}.

Definition isMaintenanceLoopRunning (st : State) : bool := isRunning st.

(** A timer that is due: its callback resolves the promise of the
    sleep, and the function goes on if it waits on that promise. *)
Definition fire (timer : nat) (st : State) : State :=
  if existsb (Nat.eqb timer) (armed st) then
    let st1 := {| isRunning := isRunning st; shutdownRequested := shutdownRequested st;
                  maintenanceTimeoutId := maintenanceTimeoutId st;
                  armed := clearTimeout timer (armed st);
                  nextTimer := nextTimer st; pc := pc st |} in
    match pc st with
    | Sleeping t => if Nat.eqb t timer then afterSleep st1 else st1
    | _ => st1
    end
  else st.

Definition step (st : State) (e : Event) : State :=
  match e with
  | Run => runMaintenanceLoop st
  | Stop => stopMaintenanceLoop st
  | Fire timer => fire timer st
  | CycleDone => match pc st with Working => loopHead st | _ => st end
  end.

Definition run (events : list Event) : State := fold_left step events initial.

(** What holds of every state the process reaches. *)
Definition loopInvariant (st : State) : Prop :=
  match pc st with
  | Sleeping timer =>
      isRunning st = true
      /\ (maintenanceTimeoutId st = Some timer \/ ~ In timer (armed st))
  | Working => isRunning st = true
  | NotCalled | Finished => isRunning st = false
  end.

(** The loop sleeps on a timer that nothing will fire. *)
Definition hung (timer : nat) (st : State) : Prop :=
  pc st = Sleeping timer /\ isRunning st = true /\ shutdownRequested st = true
  /\ ~ In timer (armed st).

End Loop.

(** ** GET /v1/runtimes/:runtimeId/logs: up to the pod lookup *)
Module LogStream.
Import K8s Runtime Errors.

(** How the [for] loop that waits for the Deployment is left. *)
Inductive Awaited :=
| Broke (deployment : V1Deployment)   (* [break] after a read that succeeded *)
| GaveUp                              (* [return] from the [catch] when [i === 9] *)
| RanOut.                             (* the loop condition failed *)

(** How this part of the handler ends. *)
Inductive Outcome :=
| Respond (e : HttpError)
| EmptyText                           (* [c.text('')] *)
| Proceed (deployment : V1Deployment) (runtimeStatus : RuntimeStatus).

Section Handler.
Variable env : Env.

(** The loop from its [i]-th round on; [rounds] is [10 - i]. *)
Fixpoint awaitFrom (rounds : nat) (i : Z) (name : string) (s : Exec) : Awaited * Exec :=
  match rounds with
  | O => (RanOut, s)
  | S rounds' =>
      match readNamespacedDeployment env name s with
      | (Some deployment, s1) => (Broke deployment, s1)
      | (None, s1) =>
          if i =? 9 then (GaveUp, s1)
          else awaitFrom rounds' (i + 1) name (delay env 500 s1)
      end
  end.

Definition awaitDeployment (name : string) (s : Exec) : Awaited * Exec :=
  awaitFrom 10 0 name s.

(** The wait for a status, for at most 10 s; [None] only when [fuel]
    runs out. *)
Fixpoint statusLoop (fuel : nat) (runtimeId : string) (checkStart : Z) (s : Exec)
  : option (option RuntimeStatus * Exec) :=
  match fuel with
  | O => None
  | S fuel' =>
      if now (world s) - checkStart <? 10000 then
        match getRuntimeStatus env runtimeId s with
        | (Some runtimeStatus, s1) => Some (Some runtimeStatus, s1)
        | (None, s1) => statusLoop fuel' runtimeId checkStart (delay env 500 s1)
        end
      else Some (None, s)
  end.

Definition statusFuel : nat := 22.

Definition logsPrelude (runtimeId : string) (s : Exec) : option (Outcome * Exec) :=
  match awaitDeployment (getDeploymentName runtimeId) s with
  | (GaveUp, s1) =>
      Some (Respond (jsonError RUNTIME_NOT_FOUND "Runtime not ready. Deployment not found." 404),
            s1)
  | (RanOut, s1) => Some (Respond (jsonError RUNTIME_NOT_FOUND "Runtime not found" 404), s1)
  | (Broke deployment, s1) =>
      let version := Js.orElse (annotations deployment !! "appwrite.io/version") "v5" in
      if String.eqb version "v2" then Some (EmptyText, s1)
      else
        match statusLoop statusFuel runtimeId (now (world s1)) s1 with
        | Some (Some runtimeStatus, s2) => Some (Proceed deployment runtimeStatus, s2)
        | Some (None, s2) =>
            Some (Respond (jsonError RUNTIME_TIMEOUT "Runtime status not found" 500), s2)
        | None => None
        end
  end.

End Handler.

(** The calls of the wait from round [i] on: reads that miss the
    Deployment, each followed by a sleep of 500 ms, and a last read
    that finds it, or misses it in round 9. *)
Inductive Attempts (name : string) : Z -> list Event -> Awaited -> Prop :=
| attempts_found (i t : Z) (d : V1Deployment) :
    Attempts name i [lookAt t name (Some d)] (Broke d)
| attempts_last (t : Z) :
    Attempts name 9 [lookAt t name None] GaveUp
| attempts_again (i t t' : Z) (evs : list Event) (r : Awaited) :
    i <> 9 ->
    Attempts name (i + 1) evs r ->
    Attempts name i (lookAt t name None :: pauseAt t' 500 :: evs) r.

Definition isLook (ev : Event) : bool :=
  match call ev with ReadDeployment _ _ => true | _ => false end.

Definition isPause (ev : Event) : bool :=
  match call ev with Sleep _ => true | _ => false end.

End LogStream.

(** ** Concrete inputs used below *)
Module Inputs.
Import K8s PodExec.

(** The two bytes of the letter e with an acute accent (U+00E9). *)
Definition eAcute : list Byte.byte := [Byte.xc3; Byte.xa9].

(** A text of [n] such letters, as bytes. *)
Definition accented (n : nat) : list Byte.byte := List.concat (repeat eAcute n).

(** What [cat] gives on a file holding that text, in one chunk. *)
Definition accentedFile (n : nat) : ExecResult :=
  {| stdoutChunks := [accented n]; stderrChunks := []; exitStatus := "Success" |}.

(** An environment that does nothing, and one that lets one
    millisecond pass at each suspension. *)
Definition still : Env := fun _ w => w.
Definition ticking : Env := fun _ w => setNow (now w + 1) w.

(** A create request for [id]; [img] may be undefined. *)
Definition request (id : string) (img : option string) : Create.CreateRequest :=
  {| Create.runtimeId := Some id; Create.image := img; Create.entrypoint := "";
     Create.source := ""; Create.destination := ""; Create.outputDirectory := "";
     Create.variables := ∅; Create.runtimeEntrypoint := ""; Create.command := "";
     Create.timeout := 600; Create.remove := false; Create.cpus := 1;
     Create.memory := 512; Create.version := "v5"; Create.restartPolicy := "Always" |}.

(** The Deployment of runtime [id] as [createRuntimeDeploymentDefinition]
    labels it, with the given annotations, replicas and ready replicas. *)
Definition runtimeDeployment (id : string) (ann : gmap string string)
    (replicas : Z) (ready : option Z) : V1Deployment :=
  {| metadataName := Some (Runtime.getDeploymentName id);
     labels := <["appwrite.io/role" := "runtime"]>
                 (<["appwrite.io/runtime-id" := id]> ∅);
     annotations := ann;
     specReplicas := Some replicas;
     statusReadyReplicas := ready |}.


Definition pendingAnnotations : gmap string string :=
  <["appwrite.io/status" := "pending"]> ∅.

(** A cluster that holds one Deployment, at time [t], with a pod
    network that answers as [reply]. *)
Definition clusterOf (t : Z) (name : string) (d : V1Deployment) (reply : NetReply)
  : Exec :=
  {| world := {| now := t; deployments := <[name := d]> ∅;
                 net := fun _ => reply; shutdownRequested := false |};
     tick := 0; trace := [] |}.

(** Scenario S5: dep-r5 is warm and was last executed 400 s before
    the clock's 1000 s. *)
Definition idleRuntime : V1Deployment :=
  runtimeDeployment "r5" (<["appwrite.io/last-execution-time" := "600000"]> ∅) 1 (Some 1).
Definition idleCluster : Exec := clusterOf 1000000 "dep-r5" idleRuntime Silent.



(** Scenario S4: dep-r4 is cold.  Each suspension takes 20 ms, and
    from the [n]-th suspension on the Deployment reports one ready
    replica. *)
Definition coldRuntime : V1Deployment := runtimeDeployment "r4" ∅ 0 None.
Definition coldCluster : Exec := clusterOf 0 "dep-r4" coldRuntime Silent.

Definition markReady (d : V1Deployment) : V1Deployment :=
  {| metadataName := metadataName d; labels := labels d; annotations := annotations d;
     specReplicas := specReplicas d; statusReadyReplicas := Some 1 |}.

Definition readyFrom (n : nat) : Env :=
  fun k w =>
    setNow (now w + 20)
      (if (n <=? k)%nat
       then setDeployments (markReady <$> deployments w) w
       else w).

(** A pod that answers 404 within 5 ms, one that answers nothing. *)
Definition answering : Exec := clusterOf 0 "dep-r4" coldRuntime (Responds 404 5).
Definition silent : Exec := clusterOf 0 "dep-r4" coldRuntime Silent.

(** Two warm runtimes, both long inactive, and an environment that
    deletes the first of them, or asks the reaper to stop, during the
    first suspension. *)
Definition idleA : V1Deployment :=
  runtimeDeployment "a" (<["appwrite.io/last-execution-time" := "0"]> ∅) 1 (Some 1).
Definition idleB : V1Deployment :=
  runtimeDeployment "b" (<["appwrite.io/last-execution-time" := "0"]> ∅) 1 (Some 1).

Definition twoIdle : Exec :=
  {| world := {| now := 1000000;
                 deployments := <["dep-a" := idleA]> (<["dep-b" := idleB]> ∅);
                 net := fun _ => Silent; shutdownRequested := false |};
     tick := 0; trace := [] |}.

Definition deleting (name : string) : Env :=
  fun _ w => setDeployments (delete name (deployments w)) w.

Definition stopping : Env := fun _ w => setShutdown true w.


(** A log as script(1) writes it: a first line of its own, then the
    output of the build. *)
Definition scriptLog : list N :=
  (ExecutionLogs.lit "Script started" ++ 10%N :: ExecutionLogs.lit "abcdefgh")%list.

(** Two writes, of 3 and of 5 bytes, half a second and a second and a
    quarter after the start; and a clock function that answers with the
    delay itself. *)
Definition timings : list (list N * Z) :=
  [(ExecutionLogs.lit "0.5", 3); (ExecutionLogs.lit "1.25", 5)].

Definition echoDelay : Z -> list N -> option (list N) := fun _ delay => Some delay.

Definition twoParts : list Logs.Part :=
  [{| Logs.timestamp := ExecutionLogs.lit "0.5"; Logs.length := Some 3 |};
   {| Logs.timestamp := ExecutionLogs.lit "1.25"; Logs.length := Some 5 |}].

(** Two entries for the log stream, the first with a line break inside. *)
Definition twoEntries : list Logs.Entry :=
  [{| Logs.stamp := ExecutionLogs.lit "t1";
      Logs.content := (ExecutionLogs.lit "a" ++ 10%N :: ExecutionLogs.lit "b")%list |};
   {| Logs.stamp := ExecutionLogs.lit "t2"; Logs.content := ExecutionLogs.lit "c" |}].

(** The parameters of a v5 runtime r9, and its Deployment as built at
    time 5000 with an empty S3 configuration. *)
Definition r9 : Definitions.RuntimeResourcesParams :=
  {| Definitions.runtimeId := "r9"; Definitions.runtimeImage := "img:v5";
     Definitions.artifactPath := "r9/build.tar.gz"; Definitions.version := "v5";
     Definitions.entrypoint := "index.js"; Definitions.runtimeEntrypoint := "";
     Definitions.variables := ∅; Definitions.secret := "5ec2e7";
     Definitions.cpus := 1; Definitions.memoryMb := 512; Definitions.hostname := "h9" |}.

Definition r9Deployment : Definitions.V1Deployment :=
  Definitions.createRuntimeDeploymentDefinition "" "" "" "" "" "" (fun _ => "1") r9 5000.

(** The cluster just after the creation of r9, and later, once a cold
    start has scaled it to one replica. *)
Definition r9Cluster : Exec :=
  clusterOf 5000 "dep-r9" (Definitions.stored r9Deployment) Silent.

Definition r9Warm : Exec :=
  clusterOf 900000 "dep-r9" (setReplicas 1 (Definitions.stored r9Deployment)) Silent.

(** What the create handler writes once the Deployment is there. *)
Definition r9Up : StatusUpdate.Updates :=
  {| StatusUpdate.status := Some "Up 1.50s"; StatusUpdate.initialised := Some 1;
     StatusUpdate.listening := None; StatusUpdate.updated := Some 6500 |}.

(** An ASCII file that arrives in two chunks. *)
Definition hiChunks : list (list Byte.byte) := [[Byte.x68; Byte.x69]; [Byte.x21]].

(** An ASCII file one byte longer than the limit. *)
Definition longAscii : list Byte.byte := repeat Byte.x61 (Z.to_nat 1048577).

(** Response headers: an internal one, a content type, two cookies. *)
Definition responseHeaders : list (string * string) :=
  [("X-Open-Runtimes-Log-Id", "log1"); ("Content-Type", "text/plain");
   ("Set-Cookie", "a=1"); ("Set-Cookie", "b=2")].

End Inputs.

(** * Properties *)

Local Open Scope list_scope.

Example parseInt_examples :
  Js.parseInt "42" = Some 42 /\ Js.parseInt "  -7px" = Some (-7)
  /\ Js.parseInt "abc" = None /\ Js.parseInt "" = None
  /\ Js.parseInt "1e3" = Some 1 /\ Js.parseInt "+" = None.
Proof. vm_compute. tauto. Qed.

Example pageLimit_examples :
  Listing.pageLimit None = 25 /\ Listing.pageLimit (Some "500") = 100
  /\ Listing.pageLimit (Some "0") = 25 /\ Listing.pageLimit (Some "7") = 7.
Proof. vm_compute. tauto. Qed.

(** ** GET /v1/runtimes: the page limit *)

Lemma parseInt_empty : Js.parseInt "" = None.
Proof. reflexivity. Qed.

Lemma parseInt_truthy (p : string) (n : Z) :
  Js.parseInt p = Some n -> Js.truthy p = true.
Proof. destruct p; [discriminate | reflexivity]. Qed.

Lemma pageLimit_parsed (p : string) :
  Listing.pageLimit (Some p) =
    match Js.parseInt p with
    | Some n => if 0 <? n then Z.min n 100 else 25
    | None => 25
    end.
Proof.
  unfold Listing.pageLimit. simpl.
  destruct p as [|c p]; [reflexivity|]. reflexivity.
Qed.

(** C9, as stated, fails: the parameter 0 parses to 0, clamping 0 to the
    interval from 1 to 100 gives 1, and the handler answers with the
    default 25. *)
Lemma page_limit_zero_not_clamped :
  Js.parseInt "0" = Some 0
  /\ Listing.clamp 1 100 0 = 1
  /\ Listing.pageLimit (Some "0") = 25
  /\ Listing.pageLimit (Some "0") <> Listing.clamp 1 100 0.
Proof. vm_compute. split_and!; (reflexivity || discriminate). Qed.

(** C9, amended: the effective limit is the smaller of the parsed value
    and 100 when the parameter parses to a positive integer, and the
    default 25 in every other case (absent, not a number, zero or
    negative); it always lies between 1 and 100, every parsed value above
    100 gives 100, the cluster is asked for that many items, and the
    X-PAGINATION-LIMIT header of the answer is its decimal rendering. *)
Theorem page_limit_effective (limitParam continueParam : option string)
    (list : Z -> option string -> option Listing.Page) :
  let limit := Listing.pageLimit limitParam in
  (limitParam = None -> limit = 25)
  /\ (forall p n, limitParam = Some p -> Js.parseInt p = Some n -> 0 < n ->
        limit = Z.min n 100)
  /\ (forall p n, limitParam = Some p -> Js.parseInt p = Some n -> n <= 0 ->
        limit = 25)
  /\ (forall p, limitParam = Some p -> Js.parseInt p = None -> limit = 25)
  /\ (forall p n, limitParam = Some p -> Js.parseInt p = Some n -> 100 < n ->
        limit = 100)
  /\ 1 <= limit <= 100
  /\ (forall page, list limit continueParam = Some page ->
        exists r, Listing.getRuntimes limitParam continueParam list = inr r
                  /\ Listing.body r = Listing.items page
                  /\ Listing.headers r !! "X-PAGINATION-LIMIT" = Some (Js.toString limit)).
Proof.
  intros limit. subst limit.
  split_and!.
  - intros ->. reflexivity.
  - intros p n -> Hp Hn. rewrite pageLimit_parsed, Hp.
    destruct (Z.ltb_spec 0 n); [reflexivity | lia].
  - intros p n -> Hp Hn. rewrite pageLimit_parsed, Hp.
    destruct (Z.ltb_spec 0 n); [lia | reflexivity].
  - intros p -> Hp. rewrite pageLimit_parsed, Hp. reflexivity.
  - intros p n -> Hp Hn. rewrite pageLimit_parsed, Hp.
    destruct (Z.ltb_spec 0 n); lia.
  - destruct limitParam as [p|]; [|vm_compute; discriminate].
    rewrite pageLimit_parsed. destruct (Js.parseInt p) as [n|]; [|lia].
    destruct (Z.ltb_spec 0 n); lia.
  - destruct limitParam as [p|]; [|vm_compute; discriminate].
    rewrite pageLimit_parsed. destruct (Js.parseInt p) as [n|]; [|lia].
    destruct (Z.ltb_spec 0 n); lia.
  - intros page Hpage. unfold Listing.getRuntimes. rewrite Hpage.
    eexists. split; [reflexivity|]. split; [reflexivity|].
    simpl. unfold Listing.listHeaders. apply lookup_insert_eq.
Qed.

(** ** tailFileInPod: the returned handle *)

(** C4, as stated, fails: after the handle has been called the exec
    connection is still up, and a chunk that arrives later is passed to
    the data callback. *)
Lemma tail_chunk_after_cancel :
  PodExec.connected
    (PodExec.tailFileInPod true [PodExec.Cancel]) = true
  /\ PodExec.onDataCalls
       (PodExec.tailFileInPod true
          [PodExec.Cancel; PodExec.Transport (PodExec.StdoutChunk "late")])
     = ["late"].
Proof. split; reflexivity. Qed.

Lemma tail_app (hasOnError : bool) (h1 h2 : list PodExec.Action) :
  PodExec.tailFileInPod hasOnError (h1 ++ h2)
  = fold_left (PodExec.act hasOnError) h2 (PodExec.tailFileInPod hasOnError h1).
Proof. unfold PodExec.tailFileInPod. apply fold_left_app. Qed.

Lemma tail_fold_withoutCancel (hasOnError : bool) (h : list PodExec.Action)
    (c : PodExec.Tail) :
  fold_left (PodExec.act hasOnError) (PodExec.withoutCancel h) c
  = fold_left (PodExec.act hasOnError) h c.
Proof.
  revert c. induction h as [|a h IH]; intros c; [reflexivity|].
  destruct a as [e|]; simpl; apply IH.
Qed.

Lemma tail_closed_stays (hasOnError : bool) (h : list PodExec.Action)
    (c : PodExec.Tail) :
  PodExec.connected c = false ->
  fold_left (PodExec.act hasOnError) h c = c.
Proof.
  intros Hc. induction h as [|a h IH]; [reflexivity|].
  simpl. destruct a as [e|]; simpl.
  - unfold PodExec.deliver. rewrite Hc. exact IH.
  - exact IH.
Qed.

(** C4, amended: the returned handle does nothing.  Calling it leaves
    the exec connection and the callbacks as they are; a history of the
    connection gives the same calls with or without calls of the handle
    in it; while the connection is up, a stdout chunk that arrives after
    a cancel is passed to the data callback; only the connection going
    away (the pod is deleted, the connection is closed) ends the
    delivery. *)
Theorem tail_cancel_does_nothing (hasOnError : bool)
    (before after : list PodExec.Action) (chunk : string) :
  (forall c, PodExec.cleanup c = c)
  /\ PodExec.tailFileInPod hasOnError (before ++ PodExec.Cancel :: after)
     = PodExec.tailFileInPod hasOnError (before ++ after)
  /\ PodExec.tailFileInPod hasOnError (PodExec.withoutCancel before)
     = PodExec.tailFileInPod hasOnError before
  /\ PodExec.connected (PodExec.tailFileInPod hasOnError (before ++ [PodExec.Cancel]))
     = PodExec.connected (PodExec.tailFileInPod hasOnError before)
  /\ (PodExec.connected (PodExec.tailFileInPod hasOnError before) = true ->
      PodExec.onDataCalls
        (PodExec.tailFileInPod hasOnError
           (before ++ [PodExec.Cancel; PodExec.Transport (PodExec.StdoutChunk chunk)]))
      = PodExec.onDataCalls (PodExec.tailFileInPod hasOnError before) ++ [chunk])
  /\ PodExec.tailFileInPod hasOnError
       (before ++ PodExec.Transport PodExec.Closed :: after)
     = PodExec.tailFileInPod hasOnError (before ++ [PodExec.Transport PodExec.Closed]).
Proof.
  split_and!.
  - reflexivity.
  - rewrite !tail_app. reflexivity.
  - unfold PodExec.tailFileInPod. apply tail_fold_withoutCancel.
  - rewrite tail_app. reflexivity.
  - intros Hc. rewrite tail_app.
    cbn [fold_left PodExec.act]. unfold PodExec.cleanup, PodExec.deliver.
    rewrite Hc. reflexivity.
  - rewrite !tail_app. cbn [fold_left PodExec.act].
    apply tail_closed_stays. unfold PodExec.deliver.
    destruct (PodExec.connected (PodExec.tailFileInPod hasOnError before)) eqn:E;
      [reflexivity | exact E].
Qed.

(** ** Response headers of an execution *)

(** C6 at the input on which the code departs from it: the same name
    twice, the first value empty.  The second value replaces the first;
    no list is built. *)
Lemma headers_empty_first_value_lost :
  Execution.collectHeaders [("set-cookie", ""); ("set-cookie", "a=1")] !! "set-cookie"
    = Some (Execution.Single "a=1")
  /\ Execution.surfacedHeaders (Some "0.11.0")
       [("set-cookie", ""); ("set-cookie", "a=1")] !! "set-cookie"
    = Some (Execution.Single "a=1")
  /\ Execution.collectHeaders [("set-cookie", "b=2"); ("set-cookie", "a=1")] !! "set-cookie"
    = Some (Execution.Multi ["b=2"; "a=1"]).
Proof. vm_compute. auto. Qed.

(** ** Execution logs: the size limit *)

Lemma decode_accented (n : nat) :
  PodExec.Utf8.decode (Inputs.accented n) = repeat 233%N n.
Proof.
  unfold PodExec.Utf8.decode. induction n as [|n IH]; [reflexivity|].
  change (Inputs.accented (S n)) with (Byte.xc3 :: Byte.xa9 :: Inputs.accented n).
  cbn [List.map]. change (Byte.to_N Byte.xc3) with 195%N.
  change (Byte.to_N Byte.xa9) with 169%N.
  cbn -[PodExec.Utf8.decodeFrom] in *.
  change (PodExec.Utf8.decodeFrom PodExec.Utf8.idle
            (195%N :: 169%N :: List.map Byte.to_N (Inputs.accented n)))
    with (233%N :: PodExec.Utf8.decodeFrom PodExec.Utf8.idle
                     (List.map Byte.to_N (Inputs.accented n))).
  rewrite IH. reflexivity.
Qed.

Lemma length_accented (n : nat) : length (Inputs.accented n) = (2 * n)%nat.
Proof.
  unfold Inputs.accented. induction n as [|n IH]; [reflexivity|].
  cbn [repeat List.concat]. rewrite length_app, IH. simpl. lia.
Qed.

Lemma surfaced_accented (n : nat) :
  Z.of_nat n <= ExecutionLogs.MAX_LOG_SIZE ->
  ExecutionLogs.byteSize (Inputs.accentedFile n) = 2 * Z.of_nat n
  /\ ExecutionLogs.surfaced "Log" (Inputs.accentedFile n) = repeat 233%N n.
Proof.
  intros Hn. split.
  - unfold ExecutionLogs.byteSize, Inputs.accentedFile.
    cbn [PodExec.stdoutChunks List.concat]. rewrite app_nil_r, length_accented. lia.
  - unfold ExecutionLogs.surfaced, PodExec.readFileFromPod, Inputs.accentedFile.
    cbn [PodExec.exitStatus PodExec.stdoutChunks List.map List.concat].
    change ("Success" =? "Success")%string with true. cbn iota.
    rewrite app_nil_r, decode_accented.
    unfold ExecutionLogs.limitSize, ExecutionLogs.jsLength.
    rewrite repeat_length.
    destruct (Z.ltb_spec ExecutionLogs.MAX_LOG_SIZE (Z.of_nat n)); [lia | reflexivity].
Qed.

(** C8 at the input on which the code departs from it: a log file of
    600000 two-byte letters is 1200000 bytes long, more than 1048576, and
    is surfaced whole, 600000 code units, with no notice: the limit is
    counted on the decoded string, not on the bytes of the file. *)
Lemma log_limit_counts_code_units :
  ExecutionLogs.MAX_LOG_SIZE < ExecutionLogs.byteSize (Inputs.accentedFile (Z.to_nat 600000))
  /\ ExecutionLogs.surfaced "Log" (Inputs.accentedFile (Z.to_nat 600000))
     = repeat 233%N (Z.to_nat 600000)
  /\ fst (ExecutionLogs.extractLogs "v5" "log1" true (Some "pod-r4")
            (fun _ => Inputs.accentedFile (Z.to_nat 600000)))
     = repeat 233%N (Z.to_nat 600000).
Proof.
  destruct (surfaced_accented (Z.to_nat 600000)) as [Hsize Hout].
  - unfold ExecutionLogs.MAX_LOG_SIZE. lia.
  - rewrite Hsize. split_and!; [unfold ExecutionLogs.MAX_LOG_SIZE; lia | exact Hout |].
    unfold ExecutionLogs.extractLogs.
    change (("v5" =? "v5")%string && Js.truthy "log1" && true
            && Js.truthyOpt (Some "pod-r4")) with true.
    cbn iota. cbn [fst]. exact Hout.
Qed.

(** Each chunk is decoded on its own: a two-byte letter that arrives
    split over two chunks is surfaced as two replacement characters,
    whatever the size of the file. *)
Example split_letter_is_garbled :
  PodExec.readFileFromPod
    {| PodExec.stdoutChunks := [[Byte.xc3; Byte.xa9]];
       PodExec.stderrChunks := []; PodExec.exitStatus := "Success" |}
  = Some [233%N]
  /\ PodExec.readFileFromPod
       {| PodExec.stdoutChunks := [[Byte.xc3]; [Byte.xa9]];
          PodExec.stderrChunks := []; PodExec.exitStatus := "Success" |}
     = Some [65533%N; 65533%N].
Proof. split; reflexivity. Qed.

(** ** POST /v1/runtimes: the conflict check *)

Section CreateConflict.
Import K8s Runtime Errors Create.
Variable env : Env.
Variable Created : Type.

Lemma read_world (name : string) (s : Exec) :
  world (snd (readNamespacedDeployment env name s)) = env (tick s) (world s)
  /\ tick (snd (readNamespacedDeployment env name s)) = S (tick s)
  /\ fst (readNamespacedDeployment env name s)
     = deployments (env (tick s) (world s)) !! name
  /\ trace (snd (readNamespacedDeployment env name s))
     = trace s ++ [{| issuedAt := now (world s);
                      call := ReadDeployment name
                                (deployments (env (tick s) (world s)) !! name) |}].
Proof. split_and!; reflexivity. Qed.

Lemma runtimeExists_spec (id : string) (s : Exec) :
  runtimeExists env id s
  = (bool_decide (is_Some (deployments (env (tick s) (world s)) !! getDeploymentName id)),
     snd (readNamespacedDeployment env (getDeploymentName id) s)).
Proof.
  unfold runtimeExists, readNamespacedDeployment. cbn [suspend world fst snd].
  destruct (deployments (env (tick s) (world s)) !! getDeploymentName id) eqn:E;
    reflexivity.
Qed.

Lemma getRuntimeStatus_spec (id : string) (s : Exec) :
  getRuntimeStatus env id s
  = (statusOf <$> deployments (env (tick s) (world s)) !! getDeploymentName id,
     snd (readNamespacedDeployment env (getDeploymentName id) s)).
Proof.
  unfold getRuntimeStatus, readNamespacedDeployment. cbn [suspend world fst snd].
  destruct (deployments (env (tick s) (world s)) !! getDeploymentName id) eqn:E;
    reflexivity.
Qed.

(** The conflict branch, once validation has passed and the existence
    read has found the Deployment. *)
Lemma postRuntimes_conflict
    (construct : CreateRequest -> Exec -> (HttpError + Created) * Exec)
    (req : CreateRequest) (s : Exec) (id img : string) (d : V1Deployment) :
  runtimeId req = Some id -> id <> "" ->
  image req = Some img -> img <> "" ->
  deployments (env (tick s) (world s)) !! getDeploymentName id = Some d ->
  let name := getDeploymentName id in
  let s1 := snd (readNamespacedDeployment env name s) in
  let s2 := snd (readNamespacedDeployment env name s1) in
  postRuntimes env Created construct req s
  = (inl (jsonError RUNTIME_CONFLICT
            (match deployments (world s2) !! name with
             | Some d2 =>
                 if String.eqb (Js.orElse (annotations d2 !! "appwrite.io/status") "pending")
                      "pending"
                 then msgBeingCreated else msgAlreadyExists
             | None => msgAlreadyExists
             end) 409), s2).
Proof.
  intros Hid Hne Himg Hine Hd name s1 s2.
  unfold postRuntimes. rewrite Hid, Himg.
  change (default "" (Some id)) with id. cbn [Js.truthyOpt].
  assert (Js.truthy id = true) as -> by (destruct id; [congruence | reflexivity]).
  assert (Js.truthy img = true) as -> by (destruct img; [congruence | reflexivity]).
  cbn [negb orb].
  rewrite runtimeExists_spec, Hd.
  rewrite bool_decide_eq_true_2 by eauto.
  rewrite getRuntimeStatus_spec.
  change (snd (readNamespacedDeployment env (getDeploymentName id) s)) with s1.
  change (snd (readNamespacedDeployment env (getDeploymentName id) s1)) with s2.
  change (world s2) with (env (tick s1) (world s1)).
  change (getDeploymentName id) with name.
  destruct (deployments (env (tick s1) (world s1)) !! name) as [d2|];
    cbn [fmap option_fmap option_map]; [|reflexivity].
  unfold statusOf. cbn [status].
  destruct (String.eqb _ "pending"); reflexivity.
Qed.

(** C1, amended: for every create request that carries a runtimeId and
    an image and whose existence read finds the Deployment dep-{id}, the
    answer is HTTP 409 with an error of type runtime_conflict; the
    handler issues two reads and nothing else, leaves the cluster as the
    environment left it and never enters the construction path; the
    message is the creation-in-progress one exactly when the status read
    still finds the Deployment with a status annotation that is pending
    (or missing or empty), and the plain one otherwise; the two messages
    differ. *)
Theorem create_conflict
    (construct : CreateRequest -> Exec -> (HttpError + Created) * Exec)
    (req : CreateRequest) (s : Exec) (id img : string) (d : V1Deployment) :
  runtimeId req = Some id -> id <> "" ->
  image req = Some img -> img <> "" ->
  deployments (env (tick s) (world s)) !! getDeploymentName id = Some d ->
  let name := getDeploymentName id in
  let r := postRuntimes env Created construct req s in
  let seen := deployments (world (snd r)) !! name in
  let pending :=
    exists d2, seen = Some d2
               /\ Js.orElse (annotations d2 !! "appwrite.io/status") "pending" = "pending" in
  (exists msg,
     fst r = inl (jsonError RUNTIME_CONFLICT msg 409)
     /\ httpStatus (jsonError RUNTIME_CONFLICT msg 409) = 409
     /\ type (payload (jsonError RUNTIME_CONFLICT msg 409)) = "runtime_conflict"
     /\ (msg = msgBeingCreated <-> pending)
     /\ (msg = msgAlreadyExists <-> ~ pending))
  /\ (forall d2, seen = Some d2 ->
        annotations d2 !! "appwrite.io/status" = Some "pending" ->
        fst r = inl (jsonError RUNTIME_CONFLICT msgBeingCreated 409))
  /\ msgBeingCreated <> msgAlreadyExists
  /\ world (snd r) = env (S (tick s)) (env (tick s) (world s))
  /\ trace (snd r)
     = trace s ++ [{| issuedAt := now (world s); call := ReadDeployment name (Some d) |};
                   {| issuedAt := now (env (tick s) (world s));
                      call := ReadDeployment name seen |}]
  /\ (forall construct', postRuntimes env Created construct' req s = r).
Proof.
  intros Hid Hne Himg Hine Hd name r seen pending.
  pose proof (postRuntimes_conflict construct req s id img d Hid Hne Himg Hine Hd) as Hr.
  cbv zeta in Hr. fold name in Hr. fold r in Hr.
  assert (Hneq : msgBeingCreated <> msgAlreadyExists) by discriminate.
  assert (Hs2 : snd r = snd (readNamespacedDeployment env name
                               (snd (readNamespacedDeployment env name s))))
    by (rewrite Hr; reflexivity).
  assert (Hw : world (snd r) = env (S (tick s)) (env (tick s) (world s)))
    by (rewrite Hs2; reflexivity).
  rewrite <- Hs2 in Hr. fold seen in Hr.
  split_and!.
  - destruct seen as [d2|] eqn:E2.
    + destruct (String.eqb_spec
                  (Js.orElse (annotations d2 !! "appwrite.io/status") "pending") "pending")
        as [Hp|Hp].
      * exists msgBeingCreated. rewrite Hr. split_and!; try reflexivity.
        -- split; [intros _; exists d2; auto | reflexivity].
        -- split; [intros H; congruence | intros H; exfalso; apply H; exists d2; auto].
      * exists msgAlreadyExists. rewrite Hr. split_and!; try reflexivity.
        -- split; [intros H; congruence | intros (d3 & Hd3 & Hs3); congruence].
        -- split; [intros _ (d3 & Hd3 & Hs3); congruence | reflexivity].
    + exists msgAlreadyExists. rewrite Hr. split_and!; try reflexivity.
      * split; [intros H; congruence | intros (d3 & Hd3 & _); congruence].
      * split; [intros _ (d3 & Hd3 & _); congruence | reflexivity].
  - intros d2 Hd2 Hpend. rewrite Hr, Hd2, Hpend. reflexivity.
  - exact Hneq.
  - exact Hw.
  - rewrite Hs2. cbn [snd readNamespacedDeployment record suspend trace world tick].
    rewrite <- app_assoc. unfold seen. rewrite Hw. unfold name. rewrite Hd. reflexivity.
  - intros construct'.
    rewrite (postRuntimes_conflict construct' req s id img d Hid Hne Himg Hine Hd).
    unfold r.
    rewrite (postRuntimes_conflict construct req s id img d Hid Hne Himg Hine Hd).
    reflexivity.
Qed.

End CreateConflict.

(** C1, as stated, fails: the Deployment dep-r3 exists, the create
    request names r3 and carries no image, and the answer is HTTP 400
    with an error of type execution_bad_request. *)
Lemma create_without_image_is_refused_earlier :
  K8s.deployments
    (K8s.world (Inputs.clusterOf 0 "dep-r3"
                  (Inputs.runtimeDeployment "r3" Inputs.pendingAnnotations 0 None) K8s.Silent))
    !! Runtime.getDeploymentName "r3"
  = Some (Inputs.runtimeDeployment "r3" Inputs.pendingAnnotations 0 None)
  /\ fst (Create.postRuntimes Inputs.still unit (fun _ s => (inr tt, s))
            (Inputs.request "r3" None)
            (Inputs.clusterOf 0 "dep-r3"
               (Inputs.runtimeDeployment "r3" Inputs.pendingAnnotations 0 None) K8s.Silent))
     = inl {| Errors.httpStatus := 400;
              Errors.payload := {| Errors.type := "execution_bad_request";
                                   Errors.message := Create.msgMissingFields;
                                   Errors.code := 500 |} |}.
Proof. split; vm_compute; reflexivity. Qed.

(** The conflict theorem at a request for r3 with an image, against a
    cluster in which dep-r3 is pending. *)
Lemma create_conflict_witness :
  Create.runtimeId (Inputs.request "r3" (Some "img:v5")) = Some "r3"
  /\ "r3" <> ""
  /\ Create.image (Inputs.request "r3" (Some "img:v5")) = Some "img:v5"
  /\ "img:v5" <> ""
  /\ fst (Create.postRuntimes Inputs.still unit (fun _ s => (inr tt, s))
            (Inputs.request "r3" (Some "img:v5"))
            (Inputs.clusterOf 0 "dep-r3"
               (Inputs.runtimeDeployment "r3" Inputs.pendingAnnotations 0 None) K8s.Silent))
     = inl (Errors.jsonError Errors.RUNTIME_CONFLICT Create.msgBeingCreated 409).
Proof.
  split_and!; [reflexivity | discriminate | reflexivity | discriminate |].
  refine (proj1 (proj2 (create_conflict Inputs.still unit (fun _ s => (inr tt, s))
                          (Inputs.request "r3" (Some "img:v5"))
                          (Inputs.clusterOf 0 "dep-r3"
                             (Inputs.runtimeDeployment "r3" Inputs.pendingAnnotations 0 None)
                             K8s.Silent)
                          "r3" "img:v5"
                          (Inputs.runtimeDeployment "r3" Inputs.pendingAnnotations 0 None)
                          eq_refl _ eq_refl _ _))
            (Inputs.runtimeDeployment "r3" Inputs.pendingAnnotations 0 None) _ _);
    first [discriminate | vm_compute; reflexivity].
Defined.

(** ** The reaper *)

Section Reaper.
Import K8s Maintenance.
Variable env : Env.
Variable threshold : option Z.

Lemma patch_scaleDown (name : string) (s : Exec) :
  patchNamespacedDeployment env name scaleDown s
  = match deployments (env (tick s) (world s)) !! name with
    | Some d =>
        (true,
         {| world := setDeployments
                       (<[name := setReplicas 0 d]> (deployments (env (tick s) (world s))))
                       (env (tick s) (world s));
            tick := S (tick s);
            trace := trace s ++ [{| issuedAt := now (world s);
                                    call := PatchDeployment name scaleDown true |}] |})
    | None =>
        (false,
         {| world := env (tick s) (world s);
            tick := S (tick s);
            trace := trace s ++ [{| issuedAt := now (world s);
                                    call := PatchDeployment name scaleDown false |}] |})
    end.
Proof.
  unfold patchNamespacedDeployment. cbn [suspend world].
  destruct (deployments (env (tick s) (world s)) !! name) as [d|]; reflexivity.
Qed.


(** Whatever the environment does, every call the loop issues is a
    scale-down of an item that passed the guard and was inactive at the
    time of the call. *)
Lemma reapItems_issues (items : list V1Deployment) (s : Exec) :
  exists evs,
    trace (snd (reapItems env threshold items s)) = trace s ++ evs
    /\ Forall (fun ev => exists dep ok,
                 In dep items /\ candidate dep = true
                 /\ inactive threshold (issuedAt ev) dep = true
                 /\ ev = scaleDownOf dep (issuedAt ev) ok) evs.
Proof.
  revert s. induction items as [|dep rest IH]; intros s.
  - exists []. split; [symmetry; apply app_nil_r | constructor].
  - cbn [reapItems].
    destruct (shutdownRequested (world s)).
    { exists []. split; [symmetry; apply app_nil_r | constructor]. }
    destruct (candidate dep) eqn:Hc; cbn [negb].
    2:{ destruct (IH s) as (evs & Ht & Hf). exists evs. split; [exact Ht|].
        eapply Forall_impl; [exact Hf|]. intros ev (d & ok & Hin & H).
        exists d, ok. split; [right; exact Hin | exact H]. }
    destruct (inactive threshold (now (world s)) dep) eqn:Hi.
    2:{ destruct (IH s) as (evs & Ht & Hf). exists evs. split; [exact Ht|].
        eapply Forall_impl; [exact Hf|]. intros ev (d & ok & Hin & H).
        exists d, ok. split; [right; exact Hin | exact H]. }
    fold (nameOf dep). rewrite patch_scaleDown.
    destruct (deployments (env (tick s) (world s)) !! nameOf dep) as [d|].
    + match goal with |- context [reapItems env threshold rest ?s1] =>
        destruct (IH s1) as (evs & Ht & Hf) end.
      eexists (_ :: evs). split.
      * rewrite Ht. cbn [trace]. rewrite <- app_assoc. reflexivity.
      * constructor.
        -- exists dep, true. cbn [issuedAt]. split_and!; auto. left; reflexivity.
        -- eapply Forall_impl; [exact Hf|]. intros ev (d0 & ok & Hin & H).
           exists d0, ok. split; [right; exact Hin | exact H].
    + eexists [_]. split; [reflexivity|].
      constructor; [|constructor].
      exists dep, false. cbn [issuedAt]. split_and!; auto. left; reflexivity.
Qed.









End Reaper.


Lemma calm_ticking : K8s.calm Inputs.ticking.
Proof.
  intros k w. unfold Inputs.ticking. split_and!; [cbn; lia | reflexivity | auto].
Defined.




(** Scenario S5, run: after one cycle dep-r5 has zero replicas. *)
Example reap_idle_scenario :
  K8s.specReplicas <$>
    K8s.deployments
      (K8s.world (snd (Maintenance.maintenanceCycle Inputs.still (Maintenance.INACTIVE_THRESHOLD None)
                         Inputs.idleCluster))) !! "dep-r5"
  = Some (Some 0).
Proof. vm_compute. reflexivity. Qed.

(** A cycle cut short.  When the patch of the first item fails (the
    Deployment was deleted meanwhile), the loop is left through the
    catch around it and the second item, as inactive as the first, is
    not addressed; when a shutdown is requested during the first patch,
    the loop breaks before the second item. *)
Example reaper_cut_short :
  Maintenance.reapItems (Inputs.deleting "dep-a") (Maintenance.INACTIVE_THRESHOLD None)
    [Inputs.idleA; Inputs.idleB] Inputs.twoIdle
  = (Maintenance.Failed,
     {| K8s.world := K8s.setDeployments (<["dep-b" := Inputs.idleB]> ∅)
                       (K8s.world Inputs.twoIdle);
        K8s.tick := 1;
        K8s.trace := [Maintenance.scaleDownOf Inputs.idleA 1000000 false] |})
  /\ fst (Maintenance.reapItems Inputs.stopping (Maintenance.INACTIVE_THRESHOLD None)
            [Inputs.idleA; Inputs.idleB] Inputs.twoIdle)
     = Maintenance.Interrupted
  /\ List.map K8s.call
       (K8s.trace (snd (Maintenance.reapItems Inputs.stopping
                          (Maintenance.INACTIVE_THRESHOLD None)
                          [Inputs.idleA; Inputs.idleB] Inputs.twoIdle)))
     = [K8s.PatchDeployment "dep-a" Maintenance.scaleDown true].
Proof. split_and!; vm_compute; reflexivity. Qed.



(** ** Cold start *)

Section ColdStartProperties.
Import K8s Runtime Errors Execution.
Variable env : Env.

Lemma read_spec (name : string) (s : Exec) :
  readNamespacedDeployment env name s
  = (deployments (env (tick s) (world s)) !! name,
     {| world := env (tick s) (world s); tick := S (tick s);
        trace := trace s ++ [readAt (now (world s)) name
                               (deployments (env (tick s) (world s)) !! name)] |}).
Proof. reflexivity. Qed.

Lemma delay_spec (ms : Z) (s : Exec) :
  delay env ms s
  = {| world := env (tick s) (setNow (now (world s) + ms) (world s));
       tick := S (tick s);
       trace := trace s ++ [sleepAt (now (world s)) ms] |}.
Proof. reflexivity. Qed.


Lemma read_clock (name : string) (s : Exec) :
  monotone env -> now (world s) <= now (world (snd (readNamespacedDeployment env name s))).
Proof. intros Hm. rewrite read_spec. cbn [snd world]. apply Hm. Qed.









End ColdStartProperties.

(** ** checkPodListening *)

Section PodListening.
Import K8s Runtime.
Variable env : Env.

Lemma Qltb_lt (a b : Q) : Qltb a b = true <-> (a < b)%Q.
Proof.
  unfold Qltb. rewrite negb_true_iff. split.
  - intros H. apply Qnot_le_lt. intros Hle. apply Qle_bool_iff in Hle. congruence.
  - intros H. destruct (Qle_bool b a) eqn:E; [|reflexivity].
    apply Qle_bool_iff in E. exfalso. exact (Qlt_not_le _ _ H E).
Qed.

Lemma Qltb_ge (a b : Q) : Qltb a b = false <-> (b <= a)%Q.
Proof.
  unfold Qltb. rewrite negb_false_iff. apply Qle_bool_iff.
Qed.


Lemma sleep_spec (ms : Z) (s : Exec) :
  sleep env ms s
  = {| world := env (tick s) (setNow (now (world s) + ms) (world s));
       tick := S (tick s);
       trace := trace s ++ [pauseAt (now (world s)) ms] |}.
Proof. reflexivity. Qed.






End PodListening.

(** ** Scenarios, run *)

(** Scenario S4: the cold Deployment is patched to one replica, polled
    twice with a sleep of 500 ms in between, and the second poll sees
    it ready. *)
Example cold_start_scenario :
  match Execution.coldStart (Inputs.readyFrom 3) "r4" Inputs.coldRuntime Inputs.coldCluster with
  | Some (step, s') =>
      step = Execution.Continue
      /\ List.map (fun ev => (K8s.issuedAt ev,
                              match K8s.call ev with
                              | K8s.PatchDeployment _ body _ => Some body
                              | _ => None
                              end,
                              Execution.isRead ev)) (K8s.trace s')
         = [(0, Some (Execution.scaleTo 1), false); (20, None, true);
            (40, None, false); (560, None, true)]
  | None => False
  end.
Proof. vm_compute. split; reflexivity. Qed.

(** A Deployment that never becomes ready: the step answers 504 once
    60 s have passed. *)
Example cold_start_timeout_scenario :
  match Execution.coldStart Inputs.ticking "r4" Inputs.coldRuntime Inputs.coldCluster with
  | Some (step, s') =>
      step = Execution.Respond
               {| Errors.httpStatus := 504;
                  Errors.payload := {| Errors.type := "runtime_timeout";
                                       Errors.message := Execution.msgNotReady;
                                       Errors.code := 500 |} |}
      /\ Execution.polls (K8s.trace s') = 120%nat
      /\ 60000 <= K8s.now (K8s.world s')
  | None => False
  end.
Proof. vm_compute. split_and!; (reflexivity || discriminate). Qed.

(** A warm Deployment gets no patch. *)
Example warm_start_scenario :
  match Execution.coldStart Inputs.still "r5" Inputs.idleRuntime Inputs.idleCluster with
  | Some (step, s') =>
      step = Execution.Continue
      /\ List.map K8s.call (K8s.trace s')
         = [K8s.ReadDeployment "dep-r5" (Some Inputs.idleRuntime)]
  | None => False
  end.
Proof. vm_compute. split; reflexivity. Qed.

(** A pod that answers 404 is listening; a pod that answers nothing is
    not, after two requests of 2 s each in a window of 3 s. *)
Example listening_scenarios :
  match Runtime.checkPodListening Inputs.ticking "10.0.0.4" 3 Inputs.answering,
        Runtime.checkPodListening Inputs.ticking "10.0.0.4" 3 Inputs.silent with
  | Some (a, sa), Some (b, sb) =>
      a = true /\ b = false
      /\ List.map K8s.call (K8s.trace sa) = [K8s.Fetch "http://10.0.0.4:3000" (Some 404) 5]
      /\ List.map K8s.call (K8s.trace sb)
         = [K8s.Fetch "http://10.0.0.4:3000" None 2000; K8s.Sleep 500;
            K8s.Fetch "http://10.0.0.4:3000" None 2000; K8s.Sleep 500]
  | _, _ => False
  end.
Proof. vm_compute. split_and!; reflexivity. Qed.

(** ** Response headers: what holds of them *)

Section Headers.
Import Execution.

Lemma collectHeaders_snoc (hs : list (string * string)) (kv : string * string) :
  collectHeaders (hs ++ [kv]) = addHeader (collectHeaders hs) kv.
Proof. unfold collectHeaders. rewrite fold_left_app. reflexivity. Qed.


Lemma addHeader_other (acc : gmap string HeaderValue) (kv : string * string) (k : string) :
  Js.toLowerCase (fst kv) <> k -> addHeader acc kv !! k = acc !! k.
Proof.
  intros Hne. unfold addHeader.
  destruct (Js.startsWith _ internalPrefix); [reflexivity|].
  destruct (acc !! Js.toLowerCase (fst kv)) as [[v|vs]|];
    try destruct (Js.truthy v); apply lookup_insert_ne; exact Hne.
Qed.

(** No header whose name starts with x-open-runtimes- is surfaced. *)
Lemma headers_internal_absent (format : option string)
    (hs : list (string * string)) (k : string) :
  Js.startsWith k internalPrefix = true ->
  collectHeaders hs !! k = None /\ surfacedHeaders format hs !! k = None.
Proof.
  intros Hk.
  assert (H : collectHeaders hs !! k = None).
  { induction hs as [|kv hs IH] using rev_ind; [apply lookup_empty|].
    rewrite collectHeaders_snoc.
    destruct (String.eqb_spec (Js.toLowerCase (fst kv)) k) as [He|Hne].
    - unfold addHeader. rewrite He, Hk. exact IH.
    - rewrite addHeader_other by exact Hne. exact IH. }
  split; [exact H|]. unfold surfacedHeaders.
  destruct (Js.lt _ _); [|exact H]. rewrite lookup_fmap, H. reflexivity.
Qed.

(** Every surfaced key is the lower-cased name of a response header. *)
Lemma headers_keys_lowercase (format : option string)
    (hs : list (string * string)) (k : string) :
  is_Some (surfacedHeaders format hs !! k) ->
  exists k0, In k0 (List.map fst hs) /\ k = Js.toLowerCase k0.
Proof.
  intros Hs.
  assert (H : is_Some (collectHeaders hs !! k)).
  { unfold surfacedHeaders in Hs. destruct (Js.lt _ _); [|exact Hs].
    rewrite lookup_fmap in Hs. apply fmap_is_Some in Hs. exact Hs. }
  clear Hs. induction hs as [|kv hs IH] using rev_ind.
  - change (collectHeaders []) with (∅ : gmap string HeaderValue) in H.
    rewrite lookup_empty in H. destruct H as [? [=]].
  - rewrite collectHeaders_snoc in H. rewrite List.map_app.
    destruct (String.eqb_spec (Js.toLowerCase (fst kv)) k) as [He|Hne].
    + exists (fst kv). split; [apply in_or_app; right; left; reflexivity | auto].
    + rewrite addHeader_other in H by exact Hne.
      destruct (IH H) as (k0 & Hin & Hk0). exists k0.
      split; [apply in_or_app; left; exact Hin | exact Hk0].
Qed.


(** A format that precedes 0.11.0 (or none at all) collapses every
    list to its last value; any other format leaves the headers as
    collected. *)
Lemma headers_collapsed (format : option string) (hs : list (string * string))
    (k : string) :
  (Js.lt (Js.orElse format "0.10.0") "0.11.0" = true ->
   surfacedHeaders format hs !! k = collapse <$> collectHeaders hs !! k
   /\ forall vs, collectHeaders hs !! k = Some (Multi vs) ->
                 surfacedHeaders format hs !! k = Some (Single (List.last vs "")))
  /\ (Js.lt (Js.orElse format "0.10.0") "0.11.0" = false ->
      surfacedHeaders format hs = collectHeaders hs)
  /\ Js.lt (Js.orElse None "0.10.0") "0.11.0" = true.
Proof.
  unfold surfacedHeaders. split_and!.
  - intros ->. split; [apply lookup_fmap|].
    intros vs Hvs. rewrite lookup_fmap, Hvs. reflexivity.
  - intros ->. reflexivity.
  - reflexivity.
Qed.

End Headers.

(** ** The log size limit: what holds of it *)

Section LogLimit.
Import PodExec ExecutionLogs.

(** A decoded text within the limit is surfaced as it is. *)
Lemma limitSize_within (what : string) (content : list N) :
  jsLength content <= MAX_LOG_SIZE -> limitSize what content = content.
Proof.
  intros H. unfold limitSize.
  destruct (Z.ltb_spec MAX_LOG_SIZE (jsLength content)); [lia | reflexivity].
Qed.

(** A longer one is cut to its first 1048576 code units, and the notice
    follows. *)
Lemma limitSize_beyond (what : string) (content : list N) :
  MAX_LOG_SIZE < jsLength content ->
  limitSize what content = firstn (Z.to_nat MAX_LOG_SIZE) content ++ noticeFor what
  /\ jsLength (firstn (Z.to_nat MAX_LOG_SIZE) content) = MAX_LOG_SIZE.
Proof.
  intros H. unfold limitSize, sliceTo.
  destruct (Z.ltb_spec MAX_LOG_SIZE (jsLength content)); [|lia].
  split; [reflexivity|]. unfold jsLength in *. rewrite length_firstn.
  unfold MAX_LOG_SIZE in *. lia.
Qed.

(** A file that cannot be read is surfaced as the empty string. *)
Lemma surfaced_unreadable (what : string) (r : ExecResult) :
  exitStatus r <> "Success" -> surfaced what r = [].
Proof.
  intros H. unfold surfaced, readFileFromPod.
  destruct (String.eqb_spec (exitStatus r) "Success"); [contradiction | reflexivity].
Qed.

Lemma units_length (cp : N) : (length (Utf8.units cp) <= 2)%nat.
Proof. unfold Utf8.units. destruct (cp <? 65536)%N; cbn; lia. Qed.

Lemma lead_length (b : N) :
  (length (fst (Utf8.lead b))
   + match Utf8.needed (snd (Utf8.lead b)) with O => 0 | S _ => 1 end <= 1)%nat.
Proof.
  unfold Utf8.lead.
  destruct (b <=? 127)%N; [cbn; lia|].
  destruct ((194 <=? b) && (b <=? 223))%N; [cbn; lia|].
  destruct ((224 <=? b) && (b <=? 239))%N; [cbn; lia|].
  destruct ((240 <=? b) && (b <=? 244))%N; cbn; lia.
Qed.

(** Decoding never gives more code units than there are bytes. *)
Lemma decodeFrom_length (bs : list N) :
  forall st,
    (length (Utf8.decodeFrom st bs)
     <= length bs + match Utf8.needed st with O => 0 | S _ => 1 end)%nat.
Proof.
  induction bs as [|b bs IH]; intros st.
  - cbn [Utf8.decodeFrom]. destruct (Utf8.needed st); cbn; lia.
  - cbn [Utf8.decodeFrom].
    pose proof (lead_length b) as Hl.
    destruct (Utf8.needed st) as [|k] eqn:En.
    + destruct (Utf8.lead b) as [out st'] eqn:El. cbn [fst snd] in Hl.
      rewrite length_app. specialize (IH st'). cbn [length]. lia.
    + destruct ((Utf8.lower st <=? b)%N && (b <=? Utf8.upper st)%N).
      * destruct k as [|k].
        -- rewrite length_app. pose proof (units_length (Utf8.codePoint st * 64 + N.land b 63)).
           specialize (IH Utf8.idle). cbn [Utf8.needed Utf8.idle length] in *. lia.
        -- match goal with |- context [Utf8.decodeFrom ?x bs] => specialize (IH x) end.
           cbn [Utf8.needed Utf8.pending length] in *. lia.
      * destruct (Utf8.lead b) as [out st'] eqn:El. cbn [fst snd] in Hl.
        cbn [length]. rewrite length_app. specialize (IH st'). lia.
Qed.

Lemma decode_length (bs : list Byte.byte) :
  (length (Utf8.decode bs) <= length bs)%nat.
Proof.
  unfold Utf8.decode. pose proof (decodeFrom_length (List.map Byte.to_N bs) Utf8.idle) as H.
  rewrite length_map in H. cbn [Utf8.needed Utf8.idle] in H. lia.
Qed.

(** A file of at most 1048576 bytes is surfaced whole and unmodified. *)
Lemma surfaced_small_file (what : string) (r : ExecResult) :
  exitStatus r = "Success" ->
  byteSize r <= MAX_LOG_SIZE ->
  surfaced what r = List.concat (List.map Utf8.decode (stdoutChunks r)).
Proof.
  intros Hs Hb. unfold surfaced, readFileFromPod. rewrite Hs.
  change ("Success" =? "Success")%string with true. cbn iota.
  apply limitSize_within. unfold byteSize, jsLength in *.
  assert (H : (length (List.concat (List.map Utf8.decode (stdoutChunks r)))
               <= length (List.concat (stdoutChunks r)))%nat).
  { clear. induction (stdoutChunks r) as [|c cs IH]; [cbn; lia|].
    cbn [List.map List.concat]. rewrite !length_app.
    pose proof (decode_length c). lia. }
  lia.
Qed.

Lemma decodeFrom_ascii (bs : list N) :
  Forall (fun b => (b <= 127)%N) bs -> Utf8.decodeFrom Utf8.idle bs = bs.
Proof.
  induction 1 as [|b bs Hb _ IH]; [reflexivity|].
  cbn [Utf8.decodeFrom Utf8.needed Utf8.idle]. unfold Utf8.lead.
  destruct (N.leb_spec b 127); [|lia]. cbn [app]. f_equal. exact IH.
Qed.

(** On a file of ASCII text the limit is the one the claim states: a
    file longer than 1048576 bytes is surfaced as its first 1048576
    bytes followed by the notice. *)
Lemma surfaced_large_ascii_file (what : string) (bytes : list Byte.byte) :
  Forall (fun b => (Byte.to_N b <= 127)%N) bytes ->
  MAX_LOG_SIZE < Z.of_nat (length bytes) ->
  surfaced what {| stdoutChunks := [bytes]; stderrChunks := []; exitStatus := "Success" |}
  = List.map Byte.to_N (firstn (Z.to_nat MAX_LOG_SIZE) bytes) ++ noticeFor what.
Proof.
  intros Hascii Hlen. unfold surfaced, readFileFromPod.
  cbn [exitStatus stdoutChunks List.map List.concat].
  change ("Success" =? "Success")%string with true. cbn iota.
  rewrite app_nil_r. unfold Utf8.decode.
  rewrite decodeFrom_ascii by (apply Forall_map; exact Hascii).
  destruct (limitSize_beyond what (List.map Byte.to_N bytes)) as [-> _].
  - unfold jsLength. rewrite length_map. exact Hlen.
  - rewrite firstn_map. reflexivity.
Qed.

End LogLimit.

(** ** Numerals and text *)

Section Numbers.

Lemma digitOf_pretty_char (d : N) :
  (d < 10)%N -> Js.digitOf (pretty_N_char d) = Some (Z.of_N d).
Proof.
  intros H.
  assert (d = 0 \/ d = 1 \/ d = 2 \/ d = 3 \/ d = 4 \/ d = 5 \/ d = 6 \/ d = 7
          \/ d = 8 \/ d = 9)%N as Hd by lia.
  repeat (destruct Hd as [->|Hd]; [reflexivity|]). subst d. reflexivity.
Qed.

Lemma parseDigits_pretty_go (x : N) :
  forall (s : string) (acc : option Z),
    (0 < x)%N ->
    exists k : Z,
      0 <= k
      /\ Js.parseDigits acc (pretty_N_go x s)
         = Js.parseDigits (Some (default 0 acc * 10 ^ k + Z.of_N x)) s.
Proof.
  induction x as [x IH] using (well_founded_induction N.lt_wf_0).
  intros s acc Hx. rewrite pretty_N_go_step by exact Hx.
  assert (Hmod : (x `mod` 10 < 10)%N) by (apply N.mod_lt; lia).
  destruct (N.eq_dec (x `div` 10)%N 0%N) as [Hz|Hnz].
  - rewrite Hz, pretty_N_go_0. cbn [Js.parseDigits].
    rewrite digitOf_pretty_char by exact Hmod.
    exists 1. split; [lia|]. f_equal. f_equal.
    assert (x = x `mod` 10)%N by (rewrite (N.div_mod x 10) at 1 by lia; lia).
    rewrite Z.pow_1_r. rewrite <- H. lia.
  - destruct (IH (x `div` 10)%N) with (s := String (pretty_N_char (x `mod` 10)) s) (acc := acc)
      as (k & Hk & ->).
    + apply N.div_lt; lia.
    + apply N.neq_0_lt_0. exact Hnz.
    + cbn [Js.parseDigits]. rewrite digitOf_pretty_char by exact Hmod.
      exists (k + 1). split; [lia|]. f_equal. f_equal. cbn [default].
      rewrite Z.pow_add_r, Z.pow_1_r by lia.
      pose proof (N.div_mod x 10 ltac:(lia)) as Hdm.
      set (m := (x `mod` 10)%N) in *. set (q := (x `div` 10)%N) in *.
      clearbody m q. generalize (default 0 acc) (10 ^ k). intros. unfold id. lia.
Qed.

Lemma pretty_N_go_head (x : N) :
  forall s, (0 < x)%N ->
    exists c s', pretty_N_go x s = String c s' /\ Js.digitOf c <> None.
Proof.
  induction x as [x IH] using (well_founded_induction N.lt_wf_0).
  intros s Hx. rewrite pretty_N_go_step by exact Hx.
  assert (Hmod : (x `mod` 10 < 10)%N) by (apply N.mod_lt; lia).
  destruct (N.eq_dec (x `div` 10)%N 0%N) as [Hz|Hnz].
  - rewrite Hz, pretty_N_go_0. eexists _, _. split; [reflexivity|].
    rewrite digitOf_pretty_char by exact Hmod. discriminate.
  - apply IH; [apply N.div_lt; lia | apply N.neq_0_lt_0; exact Hnz].
Qed.

Lemma digit_not_space (c : ascii) :
  Js.digitOf c <> None ->
  Js.isWhiteSpace c = false /\ c <> "-"%char /\ c <> "+"%char.
Proof.
  unfold Js.digitOf, Js.isWhiteSpace. intros H.
  destruct ((48 <=? Js.code c) && (Js.code c <=? 57)) eqn:E; [|congruence].
  split_and!.
  - apply andb_true_iff in E. destruct E as [E1 E2].
    apply Z.leb_le in E1, E2.
    repeat (apply orb_false_iff; split); try (apply Z.eqb_neq; lia).
    apply andb_false_iff. right. apply Z.leb_gt. lia.
  - intros ->. vm_compute in E. discriminate.
  - intros ->. vm_compute in E. discriminate.
Qed.

Lemma parseInt_digits (c : ascii) (s : string) :
  Js.digitOf c <> None ->
  Js.parseInt (String c s) = Js.parseDigits None (String c s).
Proof.
  intros H. destruct (digit_not_space c H) as (Hw & Hm & Hp).
  unfold Js.parseInt. cbn [Js.trimStart]. rewrite Hw.
  destruct c as [[] [] [] [] [] [] [] []]; try reflexivity; congruence.
Qed.

Lemma parseInt_pretty_pos (p : positive) :
  Js.parseInt (pretty (Npos p)) = Some (Z.pos p)
  /\ Js.parseDigits None (pretty (Npos p)) = Some (Z.pos p).
Proof.
  unfold pretty, pretty_N. destruct (decide (N.pos p = 0%N)) as [|_]; [discriminate|].
  destruct (pretty_N_go_head (N.pos p) "" ltac:(lia)) as (c & s' & Hs & Hc).
  destruct (parseDigits_pretty_go (N.pos p) "" None ltac:(lia)) as (k & Hk & Hp).
  cbn [default Js.parseDigits] in Hp.
  assert (Hd : Js.parseDigits None (pretty_N_go (N.pos p) "") = Some (Z.pos p))
    by (rewrite Hp; f_equal; lia).
  split; [|exact Hd].
  rewrite Hs in *. rewrite parseInt_digits by exact Hc. exact Hd.
Qed.

(** A decimal rendering of an integer is read back by [parseInt]. *)
Lemma parseInt_toString (n : Z) : Js.parseInt (Js.toString n) = Some n.
Proof.
  unfold Js.toString. destruct n as [|p|p].
  - reflexivity.
  - apply (parseInt_pretty_pos p).
  - change (pretty (Z.neg p)) with (String "-"%char (pretty (N.pos p))).
    unfold Js.parseInt. cbn [Js.trimStart].
    change (Js.isWhiteSpace "-") with false. cbn iota.
    destruct (parseInt_pretty_pos p) as [_ ->]. reflexivity.
Qed.

End Numbers.

Section TextFacts.

Lemma isWhiteSpace_lit (c : ascii) :
  Text.isWhiteSpace (N_of_ascii c) = Js.isWhiteSpace c.
Proof. destruct c as [[] [] [] [] [] [] [] []]; reflexivity. Qed.

Lemma digitOf_lit (c : ascii) : Text.digitOf (N_of_ascii c) = Js.digitOf c.
Proof. destruct c as [[] [] [] [] [] [] [] []]; reflexivity. Qed.

Lemma lit_cons (c : ascii) (s : string) :
  ExecutionLogs.lit (String c s) = N_of_ascii c :: ExecutionLogs.lit s.
Proof. reflexivity. Qed.

Lemma parseDigits_lit (s : string) :
  forall acc, Text.parseDigits acc (ExecutionLogs.lit s) = Js.parseDigits acc s.
Proof.
  induction s as [|c s IH]; intros acc; [reflexivity|].
  rewrite lit_cons. cbn [Text.parseDigits Js.parseDigits].
  rewrite digitOf_lit. destruct (Js.digitOf c); [apply IH | reflexivity].
Qed.

Lemma trimStart_lit (s : string) :
  Text.trimStart (ExecutionLogs.lit s) = ExecutionLogs.lit (Js.trimStart s).
Proof.
  induction s as [|c s IH]; [reflexivity|].
  rewrite lit_cons. cbn [Text.trimStart Js.trimStart].
  rewrite isWhiteSpace_lit. destruct (Js.isWhiteSpace c); [exact IH | reflexivity].
Qed.

Lemma text_parseInt_other (n : N) (l : list N) :
  n <> 45%N -> n <> 43%N ->
  Text.parseInt (n :: l)
  = if Text.isWhiteSpace n then Text.parseInt l else Text.parseDigits None (n :: l).
Proof.
  intros H1 H2. unfold Text.parseInt. cbn [Text.trimStart].
  destruct (Text.isWhiteSpace n); [reflexivity|].
  destruct n as [|p]; [reflexivity|].
  do 6 (destruct p as [p|p|]; try reflexivity); congruence.
Qed.

Lemma js_parseInt_other (c : ascii) (s : string) :
  c <> "-"%char -> c <> "+"%char ->
  Js.parseInt (String c s)
  = if Js.isWhiteSpace c then Js.parseInt s else Js.parseDigits None (String c s).
Proof.
  intros H1 H2. unfold Js.parseInt. cbn [Js.trimStart].
  destruct (Js.isWhiteSpace c); [reflexivity|].
  destruct c as [[] [] [] [] [] [] [] []]; try reflexivity; congruence.
Qed.

(** On text of code units below 256 the two readings of [parseInt]
    agree. *)
Lemma parseInt_lit (s : string) :
  Text.parseInt (ExecutionLogs.lit s) = Js.parseInt s.
Proof.
  induction s as [|c s IH]; [reflexivity|].
  rewrite lit_cons.
  destruct (ascii_dec c "-") as [->|Hm].
  { change (N_of_ascii "-") with 45%N. unfold Text.parseInt, Js.parseInt.
    cbn [Text.trimStart Js.trimStart].
    change (Text.isWhiteSpace 45) with false. change (Js.isWhiteSpace "-") with false.
    cbn iota. rewrite parseDigits_lit. reflexivity. }
  destruct (ascii_dec c "+") as [->|Hp].
  { change (N_of_ascii "+") with 43%N. unfold Text.parseInt, Js.parseInt.
    cbn [Text.trimStart Js.trimStart].
    change (Text.isWhiteSpace 43) with false. change (Js.isWhiteSpace "+") with false.
    cbn iota. rewrite parseDigits_lit. reflexivity. }
  rewrite text_parseInt_other, js_parseInt_other, isWhiteSpace_lit, IH; try assumption.
  - rewrite <- lit_cons, parseDigits_lit. reflexivity.
  - intros E. apply Hm. apply (f_equal ascii_of_N) in E.
    rewrite ascii_N_embedding in E. exact E.
  - intros E. apply Hp. apply (f_equal ascii_of_N) in E.
    rewrite ascii_N_embedding in E. exact E.
Qed.

Lemma split_cons (sep : N) (s : list N) :
  exists p ps, Text.split sep s = p :: ps.
Proof.
  destruct s as [|u s]; cbn [Text.split]; [eauto|].
  destruct (u =? sep)%N; [eauto|]. destruct (Text.split sep s); eauto.
Qed.

Lemma split_none (sep : N) (a : list N) :
  ~ In sep a -> Text.split sep a = [a].
Proof.
  induction a as [|u a IH]; intros H; [reflexivity|].
  cbn [Text.split]. destruct (N.eqb_spec u sep) as [->|Hne].
  - exfalso. apply H. left. reflexivity.
  - rewrite IH; [reflexivity|]. intros Hin. apply H. right. exact Hin.
Qed.

Lemma split_app (sep : N) (a b : list N) :
  ~ In sep a -> Text.split sep (a ++ sep :: b) = a :: Text.split sep b.
Proof.
  induction a as [|u a IH]; intros H.
  - cbn [app Text.split]. rewrite N.eqb_refl. reflexivity.
  - cbn [app Text.split]. destruct (N.eqb_spec u sep) as [->|Hne].
    + exfalso. apply H. left. reflexivity.
    + rewrite IH; [reflexivity|]. intros Hin. apply H. right. exact Hin.
Qed.

Lemma trimStart_keeps (s : list N) :
  Exists (fun u => Text.isWhiteSpace u = false) s ->
  Text.trimStart s <> []
  /\ Exists (fun u => Text.isWhiteSpace u = false) (Text.trimStart s).
Proof.
  induction s as [|u s IH]; intros H; [inversion H|].
  cbn [Text.trimStart]. destruct (Text.isWhiteSpace u) eqn:E.
  - apply IH. inversion H as [? ? Hu|? ? Hs]; subst; [congruence | exact Hs].
  - split; [discriminate | exact H].
Qed.

(** A text that holds something other than white space is not blank. *)
Lemma trim_truthy (s : list N) :
  Exists (fun u => Text.isWhiteSpace u = false) s ->
  Text.truthy (Text.trim s) = true.
Proof.
  intros H. unfold Text.trim, Text.trimEnd.
  destruct (trimStart_keeps s H) as [_ H1].
  assert (H2 : Exists (fun u => Text.isWhiteSpace u = false) (rev (Text.trimStart s))).
  { apply Exists_exists in H1. destruct H1 as (u & Hin & Hu).
    apply Exists_exists. exists u. split; [|exact Hu].
    apply list_elem_of_In. apply -> in_rev. apply list_elem_of_In. exact Hin. }
  destruct (trimStart_keeps _ H2) as [H3 _].
  destruct (rev (Text.trimStart (rev (Text.trimStart s)))) eqn:E; [|reflexivity].
  exfalso. apply H3. apply (f_equal (@rev N)) in E. rewrite rev_involutive in E. exact E.
Qed.

End TextFacts.

Section DecimalText.

Import Text.

Lemma pretty_char_unit (d : N) :
  (d < 10)%N -> decimalUnit (N_of_ascii (pretty_N_char d)).
Proof.
  intros H.
  assert (d = 0 \/ d = 1 \/ d = 2 \/ d = 3 \/ d = 4 \/ d = 5 \/ d = 6 \/ d = 7
          \/ d = 8 \/ d = 9)%N as Hd by lia.
  unfold decimalUnit.
  repeat (destruct Hd as [->|Hd]; [cbn; lia|]). subst d. cbn. lia.
Qed.

Lemma pretty_go_units (x : N) :
  forall s, Forall decimalUnit (ExecutionLogs.lit s) ->
            Forall decimalUnit (ExecutionLogs.lit (pretty_N_go x s)).
Proof.
  induction x as [x IH] using (well_founded_induction N.lt_wf_0).
  intros s Hs. destruct (N.eq_dec x 0%N) as [->|Hx].
  - rewrite pretty_N_go_0. exact Hs.
  - rewrite pretty_N_go_step by (apply N.neq_0_lt_0; exact Hx).
    apply IH; [apply N.div_lt; lia|].
    rewrite lit_cons. constructor; [|exact Hs].
    apply pretty_char_unit. apply N.mod_lt. lia.
Qed.

(** The decimal text of an integer: digits, after a minus sign at
    most; never empty. *)
Lemma toString_units (n : Z) :
  Forall decimalUnit (ExecutionLogs.lit (Js.toString n))
  /\ ExecutionLogs.lit (Js.toString n) <> [].
Proof.
  assert (Hpos : forall p, Forall decimalUnit (ExecutionLogs.lit (pretty (N.pos p)))
                           /\ ExecutionLogs.lit (pretty (N.pos p)) <> []).
  { intros p. unfold pretty, pretty_N.
    destruct (decide (N.pos p = 0%N)) as [|_]; [discriminate|].
    split; [apply pretty_go_units; constructor|].
    destruct (pretty_N_go_head (N.pos p) "" ltac:(lia)) as (c & s' & -> & _).
    discriminate. }
  unfold Js.toString. destruct n as [|p|p].
  - change (ExecutionLogs.lit (pretty 0)) with [48%N]. split; [|discriminate].
    constructor; [right; lia | constructor].
  - apply (Hpos p).
  - change (pretty (Z.neg p)) with (String "-"%char (pretty (N.pos p))).
    rewrite lit_cons. split; [|discriminate].
    constructor; [left; reflexivity | apply Hpos].
Qed.

Lemma decimalUnit_plain (u : N) :
  decimalUnit u -> Text.isWhiteSpace u = false /\ u <> 32%N /\ u <> 10%N.
Proof.
  unfold decimalUnit. intros [->|H]; [split_and!; [reflexivity | lia | lia]|].
  split_and!; [|lia|lia]. unfold Text.isWhiteSpace.
  repeat (apply orb_false_iff; split); try (apply N.eqb_neq; lia).
  - apply andb_false_iff. right. apply N.leb_gt. lia.
  - apply andb_false_iff. left. apply N.leb_gt. lia.
Qed.

End DecimalText.

(** ** utils/logs.ts *)

Section LogOffset.

(** The offset ends the first line: it is one more than the number of
    code units before the first line break, so the text from the offset
    on is what follows that line break; a text without line break has
    its offset past its end. *)
Theorem log_offset_first_line (first rest : list N) :
  ~ In 10%N first ->
  Logs.getLogOffset (first ++ 10%N :: rest) = Z.of_nat (length first) + 1
  /\ skipn (Z.to_nat (Logs.getLogOffset (first ++ 10%N :: rest))) (first ++ 10%N :: rest)
     = rest
  /\ Logs.getLogOffset first = Z.of_nat (length first) + 1.
Proof.
  intros H. unfold Logs.getLogOffset, Text.splitLimit.
  rewrite (split_app 10 first rest H), (split_none 10 first H).
  destruct (split_cons 10 rest) as (p & ps & ->). cbn [firstn head default from_option].
  unfold id.
  split_and!; [reflexivity | | reflexivity].
  replace (Z.to_nat (Z.of_nat (length first) + 1)) with (length (first ++ [10%N]))
    by (rewrite length_app; cbn [length]; lia).
  change (first ++ 10%N :: rest) with (first ++ [10%N] ++ rest).
  rewrite app_assoc. apply drop_app_length.
Qed.

End LogOffset.

Section TimingFile.
Variable isoAfter : Z -> list N -> option (list N).

Lemma line_plain (t : list N) (n : Z) :
  Forall (fun u => Text.isWhiteSpace u = false) t ->
  ~ In 32%N t /\ ~ In 10%N (Timing.line t n)
  /\ ~ In 32%N (ExecutionLogs.lit (Js.toString n)).
Proof.
  intros Ht. destruct (toString_units n) as [Hd _].
  rewrite Forall_forall in Ht, Hd.
  assert (H32 : ~ In 32%N t).
  { intros Hin. apply list_elem_of_In, Ht in Hin. discriminate. }
  assert (Hd32 : ~ In 32%N (ExecutionLogs.lit (Js.toString n))).
  { intros Hin. apply list_elem_of_In, Hd, decimalUnit_plain in Hin. tauto. }
  split_and!; [exact H32 | | exact Hd32].
  unfold Timing.line. intros Hin. apply in_app_or in Hin.
  destruct Hin as [Hin|[Hin|Hin]].
  - apply list_elem_of_In, Ht in Hin. discriminate.
  - discriminate.
  - apply list_elem_of_In, Hd, decimalUnit_plain in Hin. tauto.
Qed.

Lemma split_file (entries : list (list N * Z)) :
  Forall (fun e => Forall (fun u => Text.isWhiteSpace u = false) (fst e)) entries ->
  Text.split 10 (Timing.file entries)
  = map (fun e => Timing.line (fst e) (snd e)) entries ++ [[]].
Proof.
  induction 1 as [|e es He _ IH]; [reflexivity|].
  unfold Timing.file in *. cbn [map List.concat].
  rewrite <- app_assoc. cbn [app].
  rewrite split_app by (apply line_plain; exact He).
  rewrite IH. reflexivity.
Qed.

Lemma parseRow_line (datetime : Z) (t : list N) (n : Z) :
  t <> [] ->
  Forall (fun u => Text.isWhiteSpace u = false) t ->
  Text.truthy (Text.trim (Timing.line t n)) = true
  /\ Logs.parseRow isoAfter datetime (Timing.line t n)
     = match isoAfter datetime t with
       | Some stamp => Some {| Logs.timestamp := stamp; Logs.length := Some n |}
       | None => None
       end.
Proof.
  intros Hne Ht. destruct (line_plain t n Ht) as (H32 & _ & Hd32).
  destruct (toString_units n) as [_ Hdne].
  split.
  - apply trim_truthy. unfold Timing.line. apply Exists_app. left.
    destruct t as [|u t]; [congruence|]. apply Forall_cons in Ht.
    apply Exists_cons_hd. tauto.
  - unfold Logs.parseRow, Text.splitLimit, Timing.line.
    rewrite split_app by exact H32. rewrite split_none by exact Hd32.
    cbn [firstn lookup list_lookup default from_option]. unfold id.
    destruct (ExecutionLogs.lit (Js.toString n)) as [|u l] eqn:E; [congruence|].
    cbn [Text.truthy]. rewrite <- E, parseInt_lit, parseInt_toString. reflexivity.
Qed.

(** [parseTiming] reads a timing file back: one part per line, in
    order, with the byte count of the line as its length; a blank text
    gives no part. *)
Theorem parseTiming_reads_timing_file (datetime : Z) (entries : list (list N * Z)) :
  Forall (fun e => fst e <> []
                   /\ Forall (fun u => Text.isWhiteSpace u = false) (fst e)
                   /\ is_Some (isoAfter datetime (fst e))) entries ->
  Logs.parseTiming isoAfter (Timing.file entries) datetime
  = Some (map (fun e => {| Logs.timestamp := default [] (isoAfter datetime (fst e));
                           Logs.length := Some (snd e) |}) entries).
Proof.
  intros H. unfold Logs.parseTiming.
  destruct entries as [|e0 es0] eqn:Een; [reflexivity|]. rewrite <- Een in *.
  assert (Htr : Text.truthy (Text.trim (Timing.file entries)) = true).
  { apply trim_truthy. rewrite Een in *. apply Forall_cons in H.
    destruct H as [(Hne & Ht & _) _].
    unfold Timing.file, Timing.line. cbn [map List.concat].
    destruct (fst e0) as [|u t]; [congruence|]. apply Forall_cons in Ht.
    cbn [app]. apply Exists_cons_hd. tauto. }
  rewrite Htr. cbn [negb]. clear Htr Een e0 es0.
  rewrite split_file by (eapply Forall_impl; [exact H|]; cbn beta; tauto).
  induction H as [|e es (Hne & Ht & [st Hst]) _ IH]; [reflexivity|].
  cbn [map app Logs.parseRows].
  destruct (parseRow_line datetime (fst e) (snd e) Hne Ht) as [-> ->].
  cbn [negb]. rewrite Hst, IH. reflexivity.
Qed.

End TimingFile.

Section BuildOutput.

Lemma slice_nonneg (a b : Z) (s : list N) :
  0 <= a -> 0 <= b ->
  Text.slice (Some a) (Some b) s
  = take (Z.to_nat (Z.min b (Z.of_nat (length s))) - Z.to_nat (Z.min a (Z.of_nat (length s))))
         (drop (Z.to_nat (Z.min a (Z.of_nat (length s)))) s).
Proof.
  intros Ha Hb. unfold Text.slice, Text.toIndex. cbn [default from_option]. unfold id.
  destruct (Z.ltb_spec a 0); [lia|]. destruct (Z.ltb_spec b 0); [lia|].
  f_equal. lia.
Qed.

Lemma slice_app (a b c : Z) (s : list N) :
  0 <= a <= b -> b <= c ->
  Text.slice (Some a) (Some b) s ++ Text.slice (Some b) (Some c) s
  = Text.slice (Some a) (Some c) s.
Proof.
  intros Hab Hbc. rewrite !slice_nonneg by lia.
  set (len := Z.of_nat (length s)).
  set (i := Z.to_nat (Z.min a len)). set (j := Z.to_nat (Z.min b len)).
  set (k := Z.to_nat (Z.min c len)).
  assert (i <= j <= k)%nat by (subst i j k; lia).
  replace (drop j s) with (drop (j - i) (drop i s))
    by (rewrite drop_drop; f_equal; lia).
  rewrite take_take_drop. f_equal. lia.
Qed.

Lemma total_cons (p : Logs.Part) (ps : list Logs.Part) :
  Timing.total (p :: ps) = default 0 (Logs.length p) + Timing.total ps.
Proof. reflexivity. Qed.

Lemma total_nonneg (ps : list Logs.Part) :
  Forall (fun p => exists n, Logs.length p = Some n /\ 0 <= n) ps ->
  0 <= Timing.total ps.
Proof.
  induction 1 as [|q qs (m & Hm & Hm0) _ IHq]; [cbn; lia|].
  rewrite total_cons, Hm. cbn [default from_option]. unfold id. lia.
Qed.

(** The build output cuts the log into consecutive pieces: when every
    part has a length that is a number and not negative, the contents
    of the entries, put end to end, are the log text from the first
    offset to the last, and each entry carries the timestamp of its
    part. *)
Theorem build_output_partitions_log (logs : list N) (introOffset offset : Z)
    (parts : list Logs.Part) :
  0 <= introOffset -> 0 <= offset ->
  Forall (fun p => exists n, Logs.length p = Some n /\ 0 <= n) parts ->
  let r := Logs.entriesFrom logs introOffset (Some offset) parts in
  List.concat (map Logs.content (fst r))
  = Text.slice (Some (introOffset + offset))
               (Some (introOffset + offset + Timing.total parts)) logs
  /\ snd r = Some (offset + Timing.total parts)
  /\ map Logs.stamp (fst r) = map Logs.timestamp parts.
Proof.
  intros Hi Ho Hp. revert offset Ho.
  induction Hp as [|p ps (n & Hn & Hn0) Hps IH]; intros offset Ho r; subst r.
  - cbn [Logs.entriesFrom fst snd map List.concat Timing.total fold_right].
    split_and!; [|f_equal; lia|reflexivity].
    rewrite slice_nonneg by lia. rewrite Z.add_0_r, Nat.sub_diag. reflexivity.
  - cbn [Logs.entriesFrom]. rewrite Hn. cbn [Logs.plus fmap option_fmap option_map].
    pose proof (total_nonneg ps Hps) as Htot.
    specialize (IH (offset + n) ltac:(lia)). cbn zeta in IH.
    destruct (Logs.entriesFrom logs introOffset (Some (offset + n)) ps) as [rest final].
    cbn [fst snd] in *. destruct IH as (IH1 & IH2 & IH3).
    cbn [map List.concat Logs.content Logs.stamp].
    rewrite total_cons, Hn. cbn [default from_option]. unfold id.
    rewrite (Z.abs_eq n) by lia.
    split_and!.
    + rewrite IH1.
      replace (introOffset + (offset + n)) with (introOffset + offset + n) by lia.
      replace (introOffset + offset + (n + Timing.total ps))
        with (introOffset + offset + n + Timing.total ps) by lia.
      apply slice_app; lia.
    + rewrite IH2. f_equal. lia.
    + f_equal. exact IH3.
Qed.

End BuildOutput.

(** The offset theorem at a log whose first line is script's own. *)
Lemma log_offset_first_line_witness :
  Logs.getLogOffset Inputs.scriptLog = 15
  /\ skipn (Z.to_nat (Logs.getLogOffset Inputs.scriptLog)) Inputs.scriptLog
     = ExecutionLogs.lit "abcdefgh".
Proof.
  destruct (log_offset_first_line (ExecutionLogs.lit "Script started")
              (ExecutionLogs.lit "abcdefgh")) as (H1 & H2 & _).
  - intros H. vm_compute in H. intuition discriminate.
  - split; [exact H1 | exact H2].
Defined.

(** The timing theorem at a file of two lines. *)
Lemma parseTiming_reads_timing_file_witness :
  Logs.parseTiming Inputs.echoDelay (Timing.file Inputs.timings) 0 = Some Inputs.twoParts.
Proof.
  apply (parseTiming_reads_timing_file Inputs.echoDelay 0 Inputs.timings).
  repeat constructor; try discriminate; cbn; eauto.
Defined.

(** The partition theorem at that log and these two parts: the two
    contents, put end to end, are the eight code units after the first
    line. *)
Lemma build_output_partitions_log_witness :
  List.concat (map Logs.content
                 (fst (Logs.entriesFrom Inputs.scriptLog 15 (Some 0) Inputs.twoParts)))
  = ExecutionLogs.lit "abcdefgh"
  /\ map Logs.content (fst (Logs.entriesFrom Inputs.scriptLog 15 (Some 0) Inputs.twoParts))
     = [ExecutionLogs.lit "abc"; ExecutionLogs.lit "defgh"].
Proof.
  destruct (build_output_partitions_log Inputs.scriptLog 15 0 Inputs.twoParts)
    as (H & _ & _); [lia | lia | |].
  - repeat constructor; eexists; (split; [reflexivity | lia]).
  - split; [rewrite H; reflexivity | reflexivity].
Defined.


(** ** middleware/auth.ts *)

Section AuthProperties.
Import Auth.

Lemma split_pieces (sep : ascii) (s : string) :
  Forall (fun p => Js.occurs sep p = false) (Js.split sep s).
Proof.
  induction s as [|c s IH]; cbn [Js.split]; [repeat constructor|].
  destruct (Ascii.eqb c sep) eqn:E; [constructor; [reflexivity | exact IH]|].
  destruct (Js.split sep s) as [|p ps]; [repeat constructor; cbn; rewrite E; reflexivity|].
  apply Forall_cons in IH. destruct IH as [Hp Hps].
  constructor; [|exact Hps]. cbn [Js.occurs]. rewrite E, Hp. reflexivity.
Qed.

Lemma js_split_none (sep : ascii) (a : string) :
  Js.occurs sep a = false -> Js.split sep a = [a].
Proof.
  induction a as [|c a IH]; [reflexivity|]. cbn [Js.occurs Js.split].
  intros H. apply orb_false_iff in H. destruct H as [-> H].
  rewrite (IH H). reflexivity.
Qed.

Lemma js_split_app (sep : ascii) (a b : string) :
  Js.occurs sep a = false ->
  Js.split sep (a +:+ String sep b) = a :: Js.split sep b.
Proof.
  induction a as [|c a IH]; cbn [Js.occurs]; intros H.
  - change ("" +:+ String sep b) with (String sep b).
    cbn [Js.split]. rewrite Ascii.eqb_refl. reflexivity.
  - apply orb_false_iff in H. destruct H as [Hc H].
    change (String c a +:+ String sep b) with (String c (a +:+ String sep b)).
    cbn [Js.split]. rewrite Hc, (IH H). reflexivity.
Qed.

(** Without a configured secret, or without an Authorization header,
    no request passes: an unset or empty OPR_EXECUTOR_SECRET is not
    matched by an empty key. *)
Theorem auth_closed_without_secret (authHeader expected : option string) :
  authMiddleware authHeader None = Unauthorized 401 "Missing executor key"
  /\ authMiddleware authHeader (Some "") = Unauthorized 401 "Missing executor key"
  /\ authMiddleware None expected = Unauthorized 401 "Missing executor key".
Proof.
  unfold authMiddleware. split_and!; [| |reflexivity].
  - cbn [Js.orElse].
    destruct (Js.orElse _ "") as [|c k]; reflexivity.
  - cbn [Js.orElse Js.truthy].
    destruct (Js.orElse _ "") as [|c k]; reflexivity.
Qed.

(** The key is the second of the pieces the header falls into at its
    spaces; the first piece (the scheme) and any further piece are not
    looked at.  A header of that shape passes exactly when the key is
    the configured secret. *)
Theorem auth_checks_second_piece (scheme key rest : string) (expected : option string) :
  Js.occurs " " scheme = false ->
  Js.occurs " " key = false ->
  key <> "" ->
  (authMiddleware (Some (scheme +:+ " " +:+ key)) expected = Next <-> expected = Some key)
  /\ authMiddleware (Some (scheme +:+ " " +:+ key +:+ " " +:+ rest)) expected
     = authMiddleware (Some (scheme +:+ " " +:+ key)) expected.
Proof.
  intros Hs Hk Hne.
  assert (H1 : Js.split " " (scheme +:+ " " +:+ key) !! 1%nat = Some key).
  { change (scheme +:+ " " +:+ key) with (scheme +:+ String " " key).
    rewrite js_split_app, js_split_none by assumption. reflexivity. }
  assert (H2 : Js.split " " (scheme +:+ " " +:+ key +:+ " " +:+ rest) !! 1%nat = Some key).
  { change (scheme +:+ " " +:+ key +:+ " " +:+ rest)
      with (scheme +:+ String " " (key +:+ String " " rest)).
    rewrite !js_split_app by assumption. reflexivity. }
  unfold authMiddleware. cbn [mbind option_bind]. rewrite H1, H2. split; [|reflexivity].
  assert (Hor : Js.orElse (Some key) "" = key)
    by (cbn [Js.orElse]; destruct key; [congruence | reflexivity]).
  assert (Htr : Js.truthy key = true) by (destruct key; [congruence | reflexivity]).
  rewrite Hor, Htr. cbn [negb orb]. split.
  - destruct (String.eqb_spec key (Js.orElse expected "")) as [He|]; cbn [negb];
      [|intros Hno; discriminate Hno].
    intros _. destruct expected as [e|]; cbn [Js.orElse] in He; [|congruence].
    destruct (Js.truthy e); congruence.
  - intros ->. rewrite Hor, String.eqb_refl. reflexivity.
Qed.

(** A secret that holds a space can never be presented: every request
    is refused. *)
Theorem auth_secret_with_space (authHeader : option string) (secret : string) :
  Js.occurs " " secret = true ->
  authMiddleware authHeader (Some secret) = Unauthorized 401 "Missing executor key".
Proof.
  intros Hsp. unfold authMiddleware.
  destruct (Js.truthy (Js.orElse _ "")) eqn:Et; [|reflexivity].
  cbn [negb orb].
  destruct (String.eqb_spec (Js.orElse (authHeader ≫= fun h => Js.split " " h !! 1%nat) "")
              (Js.orElse (Some secret) "")) as [He|]; [|reflexivity].
  exfalso.
  assert (Hsec : Js.orElse (Some secret) "" = secret)
    by (cbn [Js.orElse]; destruct secret; reflexivity).
  rewrite Hsec in He.
  destruct authHeader as [h|]; cbn [mbind option_bind] in He, Et.
  - destruct (Js.split " " h !! 1%nat) as [k|] eqn:Ek.
    + pose proof (split_pieces " " h) as Hp. rewrite Forall_forall in Hp.
      apply list_elem_of_lookup_2 in Ek. apply Hp in Ek.
      cbn [Js.orElse] in He. destruct (Js.truthy k); [congruence|].
      subst secret. discriminate.
    + cbn [Js.orElse] in He. subst secret. discriminate.
  - cbn [Js.orElse] in He. subst secret. discriminate.
Qed.

End AuthProperties.

(** The second-piece theorem at a Bearer header: the scheme may as well
    be Basic, and what follows the key is ignored. *)
Lemma auth_checks_second_piece_witness :
  Auth.authMiddleware (Some "Bearer s3cret") (Some "s3cret") = Auth.Next
  /\ Auth.authMiddleware (Some "Basic s3cret and more") (Some "s3cret") = Auth.Next.
Proof.
  split.
  - apply (proj1 (auth_checks_second_piece "Bearer" "s3cret" "" (Some "s3cret")
                    eq_refl eq_refl ltac:(discriminate))). reflexivity.
  - refine (eq_trans (proj2 (auth_checks_second_piece "Basic" "s3cret" "and more"
                                (Some "s3cret") eq_refl eq_refl ltac:(discriminate))) _).
    reflexivity.
Defined.

(** A secret with a space in it: the very header that spells it out is
    refused. *)
Lemma auth_secret_with_space_witness :
  Auth.authMiddleware (Some "Bearer top secret") (Some "top secret")
  = Auth.Unauthorized 401 "Missing executor key".
Proof. apply auth_secret_with_space. reflexivity. Defined.


(** ** utils/runtime.ts: waitForRuntimeReady *)

Section WaitReady.
Import K8s Runtime.
Variable env : Env.

Lemma status_read_spec (id : string) (s : Exec) :
  getRuntimeStatus env id s
  = (statusOf <$> deployments (env (tick s) (world s)) !! getDeploymentName id,
     {| world := env (tick s) (world s); tick := S (tick s);
        trace := trace s ++ [lookAt (now (world s)) (getDeploymentName id)
                               (deployments (env (tick s) (world s))
                                  !! getDeploymentName id)] |}).
Proof. rewrite getRuntimeStatus_spec. reflexivity. Qed.

Lemma waitLoop_S (fuel : nat) (id : string) (timeout : Q) (start : Z) (s : Exec) :
  waitLoop env (S fuel) id timeout start s
  = if Qltb (inject_Z (now (world s) - start)) (timeout * 1000)%Q then
      match getRuntimeStatus env id s with
      | (Some st, s1) =>
          if negb (String.eqb (status st) "pending") then Some (Returned, s1)
          else waitLoop env fuel id timeout start (sleep env 500 s1)
      | (None, s1) => waitLoop env fuel id timeout start (sleep env 500 s1)
      end
    else Some (Thrown readyTimeoutError, s).
Proof. reflexivity. Qed.

Lemma waitLoop_awaiting (id : string) (timeout : Q) (start : Z) (fuel : nat) :
  forall (s : Exec) (w : Waited) (s' : Exec),
    waitLoop env fuel id timeout start s = Some (w, s') ->
    exists evs b,
      trace s' = trace s ++ evs
      /\ Awaiting (getDeploymentName id) start timeout evs b
      /\ w = waitedOf b
      /\ (b = false -> (timeout * 1000 <= inject_Z (now (world s') - start))%Q).
Proof.
  induction fuel as [|fuel IH]; intros s w s' H; [discriminate|].
  rewrite waitLoop_S in H.
  destruct (Qltb (inject_Z (now (world s) - start)) (timeout * 1000)%Q) eqn:Hw.
  - apply Qltb_lt in Hw. rewrite status_read_spec in H.
    destruct (deployments (env (tick s) (world s)) !! getDeploymentName id) as [d|] eqn:Ed;
      cbn [fmap option_fmap option_map] in H.
    + destruct (String.eqb_spec (status (statusOf d)) "pending") as [Hp|Hp]; cbn [negb] in H.
      * apply IH in H. destruct H as (evs & b & Ht & Ha & Hwb & He).
        rewrite sleep_spec in Ht. cbn [trace world] in Ht.
        exists (lookAt (now (world s)) (getDeploymentName id) (Some d)
                  :: pauseAt (now (env (tick s) (world s))) 500 :: evs), b.
        split_and!;
          [|apply awaiting_again; [exact Hw | exact Hp | exact Ha]|exact Hwb|exact He].
        rewrite Ht, <- !app_assoc. reflexivity.
      * injection H as <- <-. eexists [_], true.
        split_and!; [reflexivity | apply awaiting_ready; assumption | reflexivity | discriminate].
    + apply IH in H. destruct H as (evs & b & Ht & Ha & Hwb & He).
      rewrite sleep_spec in Ht. cbn [trace world] in Ht.
      exists (lookAt (now (world s)) (getDeploymentName id) None
                :: pauseAt (now (env (tick s) (world s))) 500 :: evs), b.
      split_and!; [|apply awaiting_again; [exact Hw | exact I | exact Ha]|exact Hwb|exact He].
      rewrite Ht, <- !app_assoc. reflexivity.
  - apply Qltb_ge in Hw. injection H as <- <-.
    exists [], false.
    split_and!; [symmetry; apply app_nil_r | constructor | reflexivity | intros _; exact Hw].
Qed.

Lemma waitLoop_ends (id : string) (timeout : Q) (start : Z) (fuel : nat) :
  monotone env ->
  forall s : Exec,
    Qceiling (timeout * 1000)%Q - (now (world s) - start) <= 500 * Z.of_nat fuel ->
    exists r, waitLoop env (S fuel) id timeout start s = Some r.
Proof.
  intros Hm.
  assert (Hin : forall s : Exec,
             Qltb (inject_Z (now (world s) - start)) (timeout * 1000)%Q = true ->
             now (world s) - start < Qceiling (timeout * 1000)%Q).
  { intros s Hw. apply Qltb_lt in Hw. rewrite Zlt_Qlt.
    eapply Qlt_le_trans; [exact Hw | apply Qle_ceiling]. }
  assert (Hstep : forall fuel, (forall s : Exec,
              Qceiling (timeout * 1000)%Q - (now (world s) - start) <= 500 * Z.of_nat fuel ->
              exists r, waitLoop env (S fuel) id timeout start s = Some r) ->
            forall s : Exec,
              now (world s) - start < Qceiling (timeout * 1000)%Q ->
              Qceiling (timeout * 1000)%Q - (now (world s) - start) <= 500 * Z.of_nat (S fuel) ->
              exists r, waitLoop env (S fuel) id timeout start
                          (sleep env 500 (snd (getRuntimeStatus env id s))) = Some r).
  { intros f IH s Hw Hf. apply IH. rewrite status_read_spec, sleep_spec. cbn [snd world tick now].
    pose proof (Hm (tick s) (world s)) as H1.
    pose proof (Hm (S (tick s)) (setNow (now (env (tick s) (world s)) + 500)
                                   (env (tick s) (world s)))) as H2.
    cbn [now setNow] in H2. lia. }
  induction fuel as [|fuel IH]; intros s Hf.
  - rewrite waitLoop_S.
    destruct (Qltb (inject_Z (now (world s) - start)) (timeout * 1000)%Q) eqn:Hw; [|eauto].
    apply Hin in Hw. lia.
  - rewrite waitLoop_S.
    destruct (Qltb (inject_Z (now (world s) - start)) (timeout * 1000)%Q) eqn:Hw; [|eauto].
    apply Hin in Hw. specialize (Hstep fuel IH s Hw Hf).
    destruct (getRuntimeStatus env id s) as [[st|] s1]; cbn [snd] in Hstep.
    + destruct (negb (String.eqb (status st) "pending")); [eauto | exact Hstep].
    + exact Hstep.
Qed.

Lemma awaiting_true_iff (name : string) (start : Z) (timeout : Q)
    (evs : list Event) (b : bool) :
  Awaiting name start timeout evs b ->
  (b = true <-> exists ev d, In ev evs /\ call ev = ReadDeployment name (Some d)
                             /\ status (statusOf d) <> "pending").
Proof.
  induction 1 as [|t d Hw Hd|t t' res evs b Hw Hres Ha IH].
  - split; [discriminate | intros (ev & _ & [] & _)].
  - split; [|reflexivity]. intros _. eexists _, d.
    split_and!; [left; reflexivity | reflexivity | exact Hd].
  - rewrite IH. split.
    + intros (ev & d & Hin & Hc). exists ev, d. split; [right; right; exact Hin | exact Hc].
    + intros (ev & d & [<-|[<-|Hin]] & Hc & Hd).
      * cbn [call lookAt] in Hc. injection Hc as Hr. subst res.
        cbn [pendingOrGone] in Hres. destruct (Hd Hres).
      * discriminate.
      * exists ev, d. auto.
Qed.

(** waitForRuntimeReady reads the Deployment of the runtime, each time
    while less than [timeout] seconds have passed since the call began,
    and sleeps 500 ms after each read that found no Deployment or found
    it pending (a missing or empty status annotation counts as
    pending).  It returns if and only if one of these reads found a
    status other than pending; otherwise it throws runtime_timeout, and
    only once the window has passed.  With a clock that does not run
    backwards it always ends. *)
Theorem runtime_ready_wait (runtimeId : string) (timeout : Q) (s : Exec) :
  let name := getDeploymentName runtimeId in
  let start := now (world s) in
  (monotone env -> exists r, waitForRuntimeReady env runtimeId timeout s = Some r)
  /\ (forall w s',
        waitForRuntimeReady env runtimeId timeout s = Some (w, s') ->
        exists evs b,
          trace s' = trace s ++ evs
          /\ Awaiting name start timeout evs b
          /\ w = (if b then Returned else Thrown readyTimeoutError)
          /\ (b = true <->
              exists ev d, In ev evs /\ call ev = ReadDeployment name (Some d)
                           /\ status (statusOf d) <> "pending")
          /\ (b = false -> (timeout * 1000 <= inject_Z (now (world s') - start))%Q))
  /\ Errors.type readyTimeoutError = "runtime_timeout"
  /\ Errors.code readyTimeoutError = 500.
Proof.
  intros name start. split_and!; [| |reflexivity|reflexivity].
  - intros Hm. unfold waitForRuntimeReady, listenFuel.
    replace (Z.to_nat (Qceiling (timeout * 1000)%Q / 500) + 2)%nat
      with (S (Z.to_nat (Qceiling (timeout * 1000)%Q / 500) + 1)) by lia.
    apply waitLoop_ends; [exact Hm|].
    pose proof (Z.div_mod (Qceiling (timeout * 1000)%Q) 500 ltac:(lia)) as Hdm.
    pose proof (Z.mod_pos_bound (Qceiling (timeout * 1000)%Q) 500 ltac:(lia)) as Hmb.
    destruct (Z_lt_le_dec (Qceiling (timeout * 1000)%Q) 0) as [Hneg|Hpos]; [lia|].
    assert (0 <= Qceiling (timeout * 1000)%Q / 500) by (apply Z.div_pos; lia).
    lia.
  - intros w s' H. unfold waitForRuntimeReady in H.
    destruct (waitLoop_awaiting _ _ _ _ _ _ _ H) as (evs & b & Ht & Ha & Hw & He).
    exists evs, b. split_and!; [exact Ht | exact Ha | exact Hw | | exact He].
    eapply awaiting_true_iff. exact Ha.
Qed.

(** With no time left (a timeout of zero or less) waitForRuntimeReady
    throws at once: it reads nothing and does not wait. *)
Theorem runtime_ready_no_time_left (runtimeId : string) (timeout : Q) (s : Exec) :
  (timeout <= 0)%Q ->
  waitForRuntimeReady env runtimeId timeout s = Some (Thrown readyTimeoutError, s).
Proof.
  intros Hle. unfold waitForRuntimeReady, listenFuel.
  replace (Z.to_nat (Qceiling (timeout * 1000)%Q / 500) + 2)%nat
    with (S (Z.to_nat (Qceiling (timeout * 1000)%Q / 500) + 1)) by lia.
  rewrite waitLoop_S.
  replace (now (world s) - now (world s)) with 0 by lia.
  assert (Qltb (inject_Z 0) (timeout * 1000)%Q = false) as ->; [|reflexivity].
  apply Qltb_ge. change (inject_Z 0) with (0 * 1000)%Q.
  apply Qmult_le_compat_r; [exact Hle | discriminate].
Qed.

End WaitReady.

(** With no time left nothing is read: the trace stays empty. *)
Lemma runtime_ready_no_time_left_witness :
  Runtime.waitForRuntimeReady Inputs.still "r4" 0 Inputs.coldCluster
  = Some (Runtime.Thrown Runtime.readyTimeoutError, Inputs.coldCluster).
Proof. apply runtime_ready_no_time_left. discriminate. Defined.

(** A runtime that stays pending is read every 500 ms until the window
    of 2 s has passed: four reads, then the error. *)
Example runtime_ready_scenario :
  match Runtime.waitForRuntimeReady Inputs.still "r3" 2
          (Inputs.clusterOf 0 "dep-r3"
             (Inputs.runtimeDeployment "r3" Inputs.pendingAnnotations 0 None) K8s.Silent) with
  | Some (w, s') =>
      w = Runtime.Thrown Runtime.readyTimeoutError
      /\ Execution.polls (K8s.trace s') = 4%nat
      /\ K8s.now (K8s.world s') = 2000
  | None => False
  end.
Proof. vm_compute. split_and!; reflexivity. Qed.


(** ** utils/runtime.ts: updateRuntimeStatus *)

Section StatusUpdateProperties.
Import K8s Runtime StatusUpdate.
Variable env : Env.

Lemma toString_truthy (n : Z) : Js.orElse (Some (Js.toString n)) "0" = Js.toString n.
Proof.
  cbn [Js.orElse]. destruct (toString_units n) as [_ Hne].
  destruct (Js.toString n); [contradiction Hne; reflexivity | reflexivity].
Qed.

Lemma toString_is_one (n : Z) :
  (if bool_decide (Some (Js.toString n) = Some "1") then 1 else 0)
  = (if n =? 1 then 1 else 0).
Proof.
  destruct (Z.eqb_spec n 1) as [->|Hne].
  - reflexivity.
  - rewrite bool_decide_eq_false_2; [reflexivity|].
    intros [= H]. apply Hne. apply (pretty_Z_inj n 1). exact H.
Qed.

Lemma replace_annotation (key v : string) (k : string) (d : V1Deployment) :
  pointer ("/metadata/annotations/" ++ key)%string = Some ["metadata"; "annotations"; k] ->
  is_Some (annotations d !! k) ->
  applyOperation (replaceAnnotation key v) d = Some (setAnnotation k v d).
Proof.
  intros Hp Hk. unfold applyOperation, replaceAnnotation. cbn [op path value].
  rewrite Hp. cbn [String.eqb Ascii.eqb Bool.eqb andb].
  rewrite bool_decide_eq_true_2 by exact Hk. reflexivity.
Qed.

Lemma replace_pushed (field : option string) (key k : string) (d : V1Deployment)
    (rest : list PatchOp) :
  pointer ("/metadata/annotations/" ++ key)%string = Some ["metadata"; "annotations"; k] ->
  (is_Some field -> is_Some (annotations d !! k)) ->
  applyOperations (pushIf field key ++ rest) d
  = applyOperations rest (match field with Some v => setAnnotation k v d | None => d end).
Proof.
  intros Hp Hk. destruct field as [v|]; [|reflexivity].
  cbn [pushIf app applyOperations].
  rewrite (replace_annotation key v k d Hp) by (apply Hk; eauto). reflexivity.
Qed.

(** updateRuntimeStatus issues one patch that replaces the annotations
    named by the fields that are set, and no call at all when none is
    set.  On a Deployment that carries these annotations the patch is
    accepted, a status read then gives back what was written (an empty
    status reads as pending, a flag reads as 1 exactly when 1 was
    written, the time reads as the number written), and neither the
    labels nor the replica counts change. *)
Theorem status_update_read_back (runtimeId : string) (updates : Updates)
    (s : Exec) (d : V1Deployment) :
  let name := getDeploymentName runtimeId in
  let w1 := env (tick s) (world s) in
  (patchOf updates = [] -> updateRuntimeStatus env runtimeId updates s = (true, s))
  /\ (patchOf updates <> [] ->
      deployments w1 !! name = Some d ->
      present updates d ->
      exists d',
        updateRuntimeStatus env runtimeId updates s
        = (true,
           {| world := setDeployments (<[name := d']> (deployments w1)) w1;
              tick := S (tick s);
              trace := trace s ++ [{| issuedAt := now (world s);
                                      call := PatchDeployment name (patchOf updates) true |}] |})
        /\ statusOf d' = readBack updates (statusOf d)
        /\ metadataName d' = metadataName d
        /\ labels d' = labels d
        /\ specReplicas d' = specReplicas d
        /\ statusReadyReplicas d' = statusReadyReplicas d).
Proof.
  intros name w1. split.
  - intros He. unfold updateRuntimeStatus. rewrite He. reflexivity.
  - intros Hne Hd (Hp1 & Hp2 & Hp3 & Hp4).
    unfold updateRuntimeStatus.
    destruct (patchOf updates) as [|o os] eqn:Ep; [congruence|].
    cbn [length Nat.ltb Nat.leb]. rewrite <- Ep. clear Ep Hne o os.
    unfold patchNamespacedDeploymentJsonPatch. cbn [suspend world].
    fold w1. fold name. rewrite Hd.
    assert (Happ : exists d',
               applyOperations (patchOf updates) d = Some d'
               /\ statusOf d' = readBack updates (statusOf d)
               /\ metadataName d' = metadataName d
               /\ labels d' = labels d
               /\ specReplicas d' = specReplicas d
               /\ statusReadyReplicas d' = statusReadyReplicas d).
    { unfold patchOf.
      rewrite (replace_pushed _ _ "appwrite.io/status") by (reflexivity || exact Hp1).
      rewrite (replace_pushed _ _ "appwrite.io/initialised");
        [|reflexivity
         |intros Hs; apply fmap_is_Some, Hp2 in Hs;
          destruct (status updates); cbn [setAnnotation annotations];
          [rewrite lookup_insert_ne by discriminate|]; exact Hs].
      rewrite (replace_pushed _ _ "appwrite.io/listening");
        [|reflexivity
         |intros Hs; apply fmap_is_Some, Hp3 in Hs;
          destruct (status updates), (initialised updates);
          cbn [fmap option_fmap option_map setAnnotation annotations];
          rewrite ?lookup_insert_ne by discriminate; exact Hs].
      rewrite <- (app_nil_r (pushIf (Js.toString <$> updated updates) _)).
      rewrite (replace_pushed _ _ "appwrite.io/updated");
        [|reflexivity
         |intros Hs; apply fmap_is_Some, Hp4 in Hs;
          destruct (status updates), (initialised updates), (listening updates);
          cbn [fmap option_fmap option_map setAnnotation annotations];
          rewrite ?lookup_insert_ne by discriminate; exact Hs].
      cbn [applyOperations]. eexists. split; [reflexivity|].
      unfold readBack, statusOf.
      destruct (status updates) as [v1|], (initialised updates) as [n2|],
               (listening updates) as [n3|], (updated updates) as [n4|];
        cbn [fmap option_fmap option_map setAnnotation annotations metadataName labels
             specReplicas statusReadyReplicas];
        (split_and!; [|reflexivity..]);
        f_equal;
        repeat first [ rewrite lookup_insert_eq | rewrite lookup_insert_ne by discriminate ];
        rewrite ?toString_truthy, ?parseInt_toString, ?toString_is_one; reflexivity. }
    destruct Happ as (d' & -> & Hrest). exists d'. split; [reflexivity | exact Hrest].
Qed.

End StatusUpdateProperties.

(** The update the create handler makes, on the Deployment it has just
    created: the runtime then reads as up and initialised. *)
Lemma status_update_read_back_witness :
  exists s',
    StatusUpdate.updateRuntimeStatus Inputs.still "r9" Inputs.r9Up Inputs.r9Cluster = (true, s')
    /\ fst (Runtime.getRuntimeStatus Inputs.still "r9" s')
       = Some {| Runtime.status := "Up 1.50s"; Runtime.initialised := 1;
                 Runtime.listening := 0; Runtime.created := Some 5000;
                 Runtime.updated := Some 6500 |}.
Proof.
  destruct (proj2 (status_update_read_back Inputs.still "r9" Inputs.r9Up Inputs.r9Cluster
                     (Definitions.stored Inputs.r9Deployment)))
    as (d' & Hu & Hs & _).
  - discriminate.
  - reflexivity.
  - unfold StatusUpdate.present. split_and!; intros _; vm_compute; eauto.
  - eexists. split; [exact Hu|].
    rewrite getRuntimeStatus_spec. cbn [fst]. unfold Inputs.still. cbn [K8s.world K8s.tick].
    cbn [K8s.setDeployments K8s.deployments]. rewrite lookup_insert_eq.
    cbn [fmap option_fmap option_map]. rewrite Hs. reflexivity.
Defined.


(** ** k8s/definitions.ts *)

Section DefinitionsProperties.
Import Definitions.
Variables S3_ENDPOINT S3_BUCKET S3_ACCESS_KEY_ID S3_SECRET_ACCESS_KEY S3_REGION : string.
Variables getS3DownloadScript getS3DeleteScript : string.
Variable numberText : Q -> string.

Local Abbreviation deploymentOf :=
  (createRuntimeDeploymentDefinition S3_ENDPOINT S3_BUCKET S3_ACCESS_KEY_ID
     S3_SECRET_ACCESS_KEY S3_REGION getS3DownloadScript numberText).
Local Abbreviation buildJobOf :=
  (createBuildJobDefinition S3_ENDPOINT S3_BUCKET S3_ACCESS_KEY_ID
     S3_SECRET_ACCESS_KEY S3_REGION).
Local Abbreviation cleanupJobOf :=
  (createCleanupJobDefinition S3_ENDPOINT S3_BUCKET S3_ACCESS_KEY_ID
     S3_SECRET_ACCESS_KEY S3_REGION getS3DeleteScript).

(** Whatever the version, every volume that a container of the runtime
    Deployment, of the build Job or of the cleanup Job mounts is declared
    by its pod, and no volume is declared twice. *)
Theorem volume_mounts_declared (p : RuntimeResourcesParams) (now : Z)
    (b : BuildJobParams) (jobName runtimeId : string) :
  mountsDeclared (template (deploymentOf p now))
  /\ mountsDeclared (jobTemplate (buildJobOf b))
  /\ mountsDeclared (jobTemplate (cleanupJobOf jobName runtimeId))
  /\ NoDup (volumes (template (deploymentOf p now)))
  /\ NoDup (volumes (jobTemplate (buildJobOf b))).
Proof.
  unfold mountsDeclared,
    createRuntimeDeploymentDefinition, createBuildJobDefinition, createCleanupJobDefinition.
  cbn [template jobTemplate volumes initContainers containers volumeMounts app].
  destruct (String.eqb (version p) "v5"), (String.eqb (buildVersion b) "v5");
    cbn [app]; split_and!;
    repeat (first [ apply Forall_cons; split | apply Forall_nil_2
                  | apply NoDup_cons; split | apply NoDup_nil_2 ]);
    cbn [mountName In]; rewrite ?list_elem_of_In; cbn [In];
    try tauto; intuition discriminate.
Qed.

(** The Service selects exactly the pods of the Deployment (its
    selector is the Deployment's selector and pod labels), it forwards
    port 3000 to the port the runtime container exposes, and both
    objects carry the names under which utils/runtime.ts looks them
    up. *)
Theorem service_selects_runtime_pods (p : RuntimeResourcesParams) (now : Z) :
  let service := createRuntimeServiceDefinition (runtimeId p) in
  let deployment := deploymentOf p now in
  selector service = templateLabels deployment
  /\ matchLabels deployment = templateLabels deployment
  /\ templateLabels deployment !! "appwrite.io/runtime-id" = Some (runtimeId p)
  /\ templateLabels deployment !! "appwrite.io/role" = Some "runtime"
  /\ ports service = [(3000, 3000)]
  /\ Forall (fun c => containerPorts c = [3000]) (containers (template deployment))
  /\ serviceName service = Runtime.getServiceName (runtimeId p)
  /\ deploymentName deployment = Runtime.getDeploymentName (runtimeId p).
Proof.
  intros service deployment. split_and!; try reflexivity.
  repeat constructor.
Qed.

Section WithCluster.
Import K8s Runtime.
Variable env : Env.

Lemma fresh_annotations (p : RuntimeResourcesParams) (now : Z) (k : string) :
  is_Some (Definitions.annotations (deploymentOf p now) !! k) <->
  In k ["appwrite.io/status"; "appwrite.io/initialised"; "appwrite.io/listening";
        "appwrite.io/created"; "appwrite.io/updated"; "appwrite.io/version";
        "appwrite.io/secret"; "appwrite.io/hostname"].
Proof.
  unfold createRuntimeDeploymentDefinition. cbn [Definitions.annotations In].
  rewrite !lookup_insert_is_Some, lookup_empty, is_Some_alt. intuition congruence.
Qed.

(** A Deployment as createRuntimeDeploymentDefinition builds it, once
    stored, is found by runtimeExists and read by getRuntimeStatus as
    pending, not initialised, not listening, created and updated at the
    time of its construction; the reaper's selector matches it, and its
    guard skips it while it has no replica; every annotation that
    updateRuntimeStatus replaces is there; it carries no
    last-execution-time annotation. *)
Theorem created_runtime_reads_pending (p : RuntimeResourcesParams) (now : Z)
    (s : Exec) (updates : StatusUpdate.Updates) :
  let d := stored (deploymentOf p now) in
  deployments (env (tick s) (world s)) !! getDeploymentName (runtimeId p) = Some d ->
  fst (runtimeExists env (runtimeId p) s) = true
  /\ fst (getRuntimeStatus env (runtimeId p) s)
     = Some {| status := "pending"; initialised := 0; listening := 0;
               created := Some now; updated := Some now |}
  /\ metadataName d = Some (getDeploymentName (runtimeId p))
  /\ hasLabel "appwrite.io/role" "runtime" d = true
  /\ Maintenance.candidate d = false
  /\ StatusUpdate.present updates d
  /\ K8s.annotations d !! "appwrite.io/last-execution-time" = None.
Proof.
  intros d Hd. rewrite runtimeExists_spec, getRuntimeStatus_spec, Hd.
  cbn [fst fmap option_fmap option_map].
  split_and!.
  - apply bool_decide_eq_true_2. eauto.
  - f_equal. unfold statusOf, d, stored, createRuntimeDeploymentDefinition.
    cbn [K8s.annotations Definitions.annotations].
    repeat first [ rewrite lookup_insert_eq | rewrite lookup_insert_ne by discriminate ].
    rewrite !toString_truthy, !parseInt_toString. reflexivity.
  - reflexivity.
  - reflexivity.
  - unfold Maintenance.candidate. apply andb_false_iff. right.
    apply bool_decide_eq_false_2. discriminate.
  - unfold StatusUpdate.present, d, stored. cbn [K8s.annotations].
    split_and!; intros _; apply fresh_annotations; cbn [In]; tauto.
  - reflexivity.
Qed.

End WithCluster.

End DefinitionsProperties.

(** The theorem at runtime r9, just created. *)
Lemma created_runtime_reads_pending_witness :
  fst (Runtime.runtimeExists Inputs.still "r9" Inputs.r9Cluster) = true
  /\ fst (Runtime.getRuntimeStatus Inputs.still "r9" Inputs.r9Cluster)
     = Some {| Runtime.status := "pending"; Runtime.initialised := 0; Runtime.listening := 0;
               Runtime.created := Some 5000; Runtime.updated := Some 5000 |}
  /\ Maintenance.candidate (Definitions.stored Inputs.r9Deployment) = false.
Proof.
  destruct (created_runtime_reads_pending "" "" "" "" "" "" (fun _ => "1") Inputs.still
              Inputs.r9 5000 Inputs.r9Cluster Inputs.r9Up eq_refl)
    as (H1 & H2 & _ & _ & H5 & _).
  split_and!; [exact H1 | exact H2 | exact H5].
Defined.


(** ** The last-execution stamp and the reaper *)

Section Stamp.
Import K8s Runtime Execution.
Variable env : Env.

(** The stamp replaces the last-execution-time annotation by the
    current time.  On a Deployment that carries the annotation the
    reaper then reads that time back, and does not count the runtime
    inactive until more than the threshold has passed since.  On a
    Deployment without the annotation the replace has no target: the
    patch is refused, the error is swallowed, nothing changes, and the
    reaper goes on reading a last execution time of 0. *)
Theorem last_execution_stamp (runtimeId : string) (s : Exec) (d : V1Deployment) :
  let name := getDeploymentName runtimeId in
  let w1 := env (tick s) (world s) in
  let s' := stampLastExecution env runtimeId s in
  deployments w1 !! name = Some d ->
  (is_Some (annotations d !! "appwrite.io/last-execution-time") ->
   exists d',
     deployments (world s') !! name = Some d'
     /\ Maintenance.lastExecutionTime d' = Some (now (world s))
     /\ (forall th t, Maintenance.inactive (Some th) t d' = (th <? t - now (world s)))
     /\ specReplicas d' = specReplicas d /\ labels d' = labels d)
  /\ (annotations d !! "appwrite.io/last-execution-time" = None ->
      world s' = w1
      /\ trace s' = trace s ++ [{| issuedAt := now (world s);
                                   call := PatchDeployment name (stampBody (now (world s)))
                                             false |}]
      /\ Maintenance.lastExecutionTime d = Some 0).
Proof.
  intros name w1 s' Hd.
  assert (Hop : applyOperation
                  {| op := "replace";
                     path := "/metadata/annotations/appwrite.io~1last-execution-time";
                     value := JStr (Js.toString (now (world s))) |} d
                = if bool_decide (is_Some (annotations d !! "appwrite.io/last-execution-time"))
                  then Some (setAnnotation "appwrite.io/last-execution-time"
                               (Js.toString (now (world s))) d)
                  else None) by reflexivity.
  subst s'. unfold stampLastExecution, patchNamespacedDeploymentJsonPatch.
  cbn [suspend world]. fold w1. fold name. rewrite Hd.
  unfold stampBody. cbn [applyOperations]. rewrite Hop. split.
  - intros Hsome. rewrite bool_decide_eq_true_2 by exact Hsome.
    cbn [snd world record onWorld setDeployments deployments].
    rewrite lookup_insert_eq. eexists. split; [reflexivity|].
    assert (Hl : Maintenance.lastExecutionTime
                   (setAnnotation "appwrite.io/last-execution-time"
                      (Js.toString (now (world s))) d) = Some (now (world s))).
    { unfold Maintenance.lastExecutionTime. cbn [setAnnotation annotations].
      rewrite lookup_insert_eq. cbn [Js.truthyOpt default from_option]. unfold id.
      destruct (toString_units (now (world s))) as [_ Hne].
      destruct (Js.toString (now (world s))) eqn:E; [contradiction Hne; reflexivity|].
      cbn [Js.truthy]. rewrite <- E. apply parseInt_toString. }
    split_and!; [exact Hl | | reflexivity | reflexivity].
    intros th t. unfold Maintenance.inactive. rewrite Hl. reflexivity.
  - intros Hnone. rewrite bool_decide_eq_false_2 by (rewrite Hnone; intros [? [=]]).
    cbn [snd world record trace]. split_and!; [reflexivity | reflexivity |].
    unfold Maintenance.lastExecutionTime. rewrite Hnone. reflexivity.
Qed.

End Stamp.

(** The stamp on runtime r9, created by the executor and scaled to one
    replica: the patch is refused, the cluster stays as it is, and with
    the default threshold the reaper counts the runtime inactive. *)
Lemma last_execution_stamp_witness :
  K8s.world (Execution.stampLastExecution Inputs.still "r9" Inputs.r9Warm)
  = K8s.world Inputs.r9Warm
  /\ Maintenance.lastExecutionTime (K8s.setReplicas 1 (Definitions.stored Inputs.r9Deployment))
     = Some 0
  /\ Maintenance.inactive (Maintenance.INACTIVE_THRESHOLD None) 900000
       (K8s.setReplicas 1 (Definitions.stored Inputs.r9Deployment)) = true.
Proof.
  destruct (last_execution_stamp Inputs.still "r9" Inputs.r9Warm
              (K8s.setReplicas 1 (Definitions.stored Inputs.r9Deployment)) eq_refl)
    as [_ Hnone].
  destruct (Hnone eq_refl) as (Hw & _ & Hl).
  split_and!; [exact Hw | exact Hl | reflexivity].
Defined.

(** The same on a Deployment that carries the annotation: the time is
    written and read back. *)
Example stamp_scenario :
  let s' := Execution.stampLastExecution Inputs.still "r5" Inputs.idleCluster in
  (Maintenance.lastExecutionTime <$> K8s.deployments (K8s.world s') !! "dep-r5")
  = Some (Some 1000000).
Proof. vm_compute. reflexivity. Qed.


(** ** POST /v1/runtimes: the secret and the variables *)

Section CreateVariables.
Import Create.
Variable numberText : Q -> string.

Lemma hex_byte (b : Byte.byte) :
  padStart 2 "0" (toString16 b)
  = String (hexDigit (Byte.to_N b / 16)) (String (hexDigit (Byte.to_N b mod 16)) "").
Proof. destruct b; reflexivity. Qed.

Lemma hexDigit_inj (m n : N) :
  (m < 16)%N -> (n < 16)%N -> hexDigit m = hexDigit n -> m = n.
Proof.
  intros Hm Hn H. apply (f_equal N_of_ascii) in H. unfold hexDigit in H.
  destruct (N.ltb_spec m 10), (N.ltb_spec n 10);
    rewrite !N_ascii_embedding in H by lia; lia.
Qed.

Lemma hexDigit_ok (n : N) : (n < 16)%N -> isHexDigit (hexDigit n) = true.
Proof.
  intros Hn. unfold isHexDigit, hexDigit.
  destruct (N.ltb_spec n 10); rewrite N_ascii_embedding by lia;
    apply orb_true_iff; [left|right]; apply andb_true_iff; split; apply N.leb_le; lia.
Qed.

Lemma hex_cons (b : Byte.byte) (bs : list Byte.byte) :
  hex (b :: bs)
  = String (hexDigit (Byte.to_N b / 16)) (String (hexDigit (Byte.to_N b mod 16)) (hex bs)).
Proof.
  unfold hex. cbn [List.map]. rewrite hex_byte.
  destruct bs as [|b' bs]; [reflexivity|].
  cbn [List.map String.concat]. rewrite hex_byte. reflexivity.
Qed.

Lemma byte_bound (b : Byte.byte) : (Byte.to_N b < 256)%N.
Proof. destruct b; reflexivity. Qed.

(** The secret is two lower-case hexadecimal digits per random byte (32
    for the 16 bytes drawn), and distinct bytes give distinct secrets:
    nothing of the randomness is lost. *)
Theorem secret_is_hex (bytes bytes' : list Byte.byte) :
  String.length (hex bytes) = (2 * length bytes)%nat
  /\ Forall (fun c => isHexDigit c = true) (list_ascii_of_string (hex bytes))
  /\ (hex bytes = hex bytes' -> bytes = bytes')
  /\ (bytes <> [] -> Js.truthy (hex bytes) = true).
Proof.
  split_and!.
  - induction bytes as [|b bs IH]; [reflexivity|].
    rewrite hex_cons. cbn [String.length length]. rewrite IH. lia.
  - induction bytes as [|b bs IH]; [constructor|].
    rewrite hex_cons. cbn [list_ascii_of_string].
    pose proof (byte_bound b).
    repeat constructor; try exact IH; apply hexDigit_ok.
    + apply N.Div0.div_lt_upper_bound. lia.
    + apply N.mod_lt. lia.
  - revert bytes'. induction bytes as [|b bs IH]; intros [|b' bs'].
    + reflexivity.
    + rewrite hex_cons. discriminate.
    + rewrite hex_cons. discriminate.
    + rewrite !hex_cons. intros [= H1 H2 H3].
      pose proof (byte_bound b). pose proof (byte_bound b').
      apply hexDigit_inj in H1;
        [|apply N.Div0.div_lt_upper_bound; lia|apply N.Div0.div_lt_upper_bound; lia].
      apply hexDigit_inj in H2; [|apply N.mod_lt; lia|apply N.mod_lt; lia].
      f_equal; [|apply IH; exact H3].
      assert (Hn : Byte.to_N b = Byte.to_N b').
      { rewrite (N.div_mod (Byte.to_N b) 16), (N.div_mod (Byte.to_N b') 16) by lia.
        rewrite H1, H2. reflexivity. }
      apply (f_equal Byte.of_N) in Hn. rewrite !Byte.of_to_N in Hn.
      injection Hn as ->. reflexivity.
  - intros Hne. destruct bytes as [|b bs]; [congruence|]. rewrite hex_cons. reflexivity.
Qed.


End CreateVariables.


(** ** maintenance/loop.ts: a threshold that is not a number *)

Section ReaperThreshold.
Import K8s Maintenance.
Variable env : Env.

(** When OPR_EXECUTOR_INACTIVE_THRESHOLD does not start with a number
    the threshold is NaN, every comparison with it is false, and a
    maintenance cycle lists the Deployments and patches none of them,
    whatever they are. *)
Theorem reaper_disabled_by_threshold (envVar : option string) (s : Exec) :
  Js.parseInt (Js.orElse envVar "300") = None ->
  INACTIVE_THRESHOLD envVar = None
  /\ (forall t dep, inactive (INACTIVE_THRESHOLD envVar) t dep = false)
  /\ exists items,
       trace (snd (maintenanceCycle env (INACTIVE_THRESHOLD envVar) s))
       = trace s ++ [{| issuedAt := now (world s);
                        call := ListDeployments "appwrite.io/role" "runtime" items |}].
Proof.
  intros Hnan.
  assert (Hth : INACTIVE_THRESHOLD envVar = None)
    by (unfold INACTIVE_THRESHOLD; rewrite Hnan; reflexivity).
  assert (Hin : forall t dep, inactive (INACTIVE_THRESHOLD envVar) t dep = false).
  { intros t dep. rewrite Hth. unfold inactive. destruct (lastExecutionTime dep); reflexivity. }
  split_and!; [exact Hth | exact Hin |].
  unfold maintenanceCycle.
  destruct (listNamespacedDeployment env "appwrite.io/role" "runtime" s) as [items s1] eqn:El.
  assert (Hs1 : trace s1 = trace s ++ [{| issuedAt := now (world s);
                                          call := ListDeployments "appwrite.io/role"
                                                    "runtime" items |}]).
  { unfold listNamespacedDeployment in El. injection El as <- <-. reflexivity. }
  exists items.
  destruct (reapItems_issues env (INACTIVE_THRESHOLD envVar) items s1) as (evs & Ht & Hf).
  destruct evs as [|ev evs].
  - rewrite Ht, app_nil_r. exact Hs1.
  - apply Forall_cons in Hf. destruct Hf as [(dep & ok & _ & _ & Hi & _) _].
    rewrite Hin in Hi. discriminate.
Qed.

End ReaperThreshold.

(** A threshold given in words: the idle runtime of scenario S5, which
    the default threshold has scaled down, is left alone. *)
Lemma reaper_disabled_by_threshold_witness :
  Maintenance.INACTIVE_THRESHOLD (Some "five minutes") = None
  /\ length (K8s.trace (snd (Maintenance.maintenanceCycle Inputs.still
                               (Maintenance.INACTIVE_THRESHOLD (Some "five minutes"))
                               Inputs.idleCluster))) = 1%nat.
Proof.
  destruct (reaper_disabled_by_threshold Inputs.still (Some "five minutes") Inputs.idleCluster
              eq_refl) as (H1 & _ & items & Ht).
  split; [exact H1|]. rewrite Ht. reflexivity.
Defined.


(** ** maintenance/loop.ts: acquireLease *)

Section LeaseProperties.
Import Lease.

Lemma acquireLease_shape (identity : string) (t0 t1 : Z) (read : ReadResult)
    (writeOk : bool) :
  acquireLease identity t0 t1 read writeOk = (false, [Read])
  \/ exists body,
       holderIdentity body = Some identity
       /\ (acquireLease identity t0 t1 read writeOk = (writeOk, [Read; Create body])
           \/ acquireLease identity t0 t1 read writeOk = (writeOk, [Read; Replace body])).
Proof.
  unfold acquireLease. destruct read as [|code spec]; [left; reflexivity|].
  destruct (bool_decide (code = Some 404)).
  { right. eexists. split; [|left; reflexivity]. reflexivity. }
  destruct (400 <=? default 0 code); [left; reflexivity|].
  destruct (bool_decide (spec ≫= holderIdentity = Some identity)) eqn:Eh.
  { right. eexists. split; [|right; reflexivity]. cbn [holderIdentity].
    apply bool_decide_eq_true_1 in Eh.
    destruct spec as [sp|]; [exact Eh | discriminate]. }
  destruct (_ <? _); [|left; reflexivity].
  right. eexists. split; [|right; reflexivity]. reflexivity.
Qed.

(** acquireLease answers true only after a write that succeeded and
    that names this instance as the holder.  While another holder's
    lease was renewed no longer ago than its duration (30 s when the
    lease names none, or 0) it answers false and writes nothing; so it
    does when the read throws or answers an error status other than
    404.  A lease taken over keeps the duration and the transition count
    it had. *)
Theorem lease_acquired_only_by_write (identity : string) (t0 t1 : Z)
    (read : ReadResult) (writeOk : bool) :
  let r := acquireLease identity t0 t1 read writeOk in
  (fst r = true ->
   writeOk = true
   /\ exists body, List.last (snd r) Read = Create body \/ List.last (snd r) Read = Replace body)
  /\ (forall c body, In c (snd r) -> written c = Some body ->
                     holderIdentity body = Some identity)
  /\ (forall code spec other duration renewed,
        read = ReadInfo code spec ->
        default 0 code < 400 ->
        spec ≫= holderIdentity = Some other -> other <> identity ->
        duration = match spec ≫= leaseDurationSeconds with
                   | Some n => if n =? 0 then 30 else n
                   | None => 30
                   end ->
        renewed = default 0 (spec ≫= renewTime) ->
        (t0 - renewed <= duration * 1000 -> r = (false, [Read]))
        /\ (duration * 1000 < t0 - renewed ->
            exists body,
              r = (writeOk, [Read; Replace body])
              /\ leaseDurationSeconds body = spec ≫= leaseDurationSeconds
              /\ leaseTransitions body = spec ≫= leaseTransitions
              /\ renewTime body = Some t1))
  /\ (read = ReadThrows -> r = (false, [Read]))
  /\ (forall code spec, read = ReadInfo (Some code) spec -> 400 <= code -> code <> 404 ->
                        r = (false, [Read])).
Proof.
  intros r. subst r. split_and!.
  - destruct (acquireLease_shape identity t0 t1 read writeOk)
      as [->|(body & _ & [->| ->])]; cbn [fst snd List.last]; [discriminate | |];
      intros ->; split; eauto.
  - intros c body Hin Hw.
    destruct (acquireLease_shape identity t0 t1 read writeOk)
      as [E|(body' & Hb & [E|E])]; rewrite E in Hin; cbn [snd In] in Hin;
      repeat (destruct Hin as [<-|Hin]; [cbn [written] in Hw; try discriminate|]);
      try contradiction; injection Hw as <-; exact Hb.
  - intros code spec other duration renewed -> Hcode Hh Hne -> ->.
    unfold acquireLease.
    rewrite bool_decide_eq_false_2 by (intros ->; cbn in Hcode; lia).
    destruct (Z.leb_spec 400 (default 0 code)); [lia|].
    rewrite Hh. rewrite bool_decide_eq_false_2 by congruence.
    change LEASE_DURATION with 30. split.
    + intros Hle.
      match goal with |- context [?a <? ?b] => destruct (Z.ltb_spec a b) end;
        [lia | reflexivity].
    + intros Hlt.
      match goal with |- context [?a <? ?b] => destruct (Z.ltb_spec a b) end; [|lia].
      eexists. split; [reflexivity|]. cbn [leaseDurationSeconds leaseTransitions renewTime].
      destruct spec; split_and!; reflexivity.
  - intros ->. reflexivity.
  - intros code spec -> Hcode Hne. unfold acquireLease.
    rewrite bool_decide_eq_false_2 by congruence.
    cbn [default from_option]. unfold id. destruct (Z.leb_spec 400 code); [reflexivity | lia].
Qed.

End LeaseProperties.


(** ** maintenance/loop.ts: starting and stopping the loop *)

Section LoopProperties.
Import Loop.

Lemma clearTimeout_gone (timer : nat) (timers : list nat) :
  ~ In timer (clearTimeout timer timers).
Proof.
  unfold clearTimeout. rewrite filter_In. intros [_ H].
  rewrite Nat.eqb_refl in H. discriminate.
Qed.

Lemma clearTimeout_sub (t timer : nat) (timers : list nat) :
  In t (clearTimeout timer timers) -> In t timers.
Proof. unfold clearTimeout. rewrite filter_In. tauto. Qed.

Lemma loopHead_invariant (st : State) :
  isRunning st = true -> loopInvariant (loopHead st).
Proof.
  intros Hr. unfold loopHead, loopInvariant.
  destruct (shutdownRequested st); cbn [leave pc isRunning maintenanceTimeoutId].
  - reflexivity.
  - split; [exact Hr | left; reflexivity].
Qed.

Lemma step_invariant (st : State) (e : Event) :
  loopInvariant st -> loopInvariant (step st e).
Proof.
  intros Hi. destruct e as [| |timer|]; cbn [step].
  - unfold runMaintenanceLoop. destruct (isRunning st) eqn:Er; [exact Hi|].
    apply loopHead_invariant. reflexivity.
  - unfold stopMaintenanceLoop. destruct (isRunning st) eqn:Er; cbn [negb]; [|exact Hi].
    unfold loopInvariant in *. cbn [pc isRunning maintenanceTimeoutId armed].
    destruct (pc st) as [|t| |]; try congruence.
    destruct Hi as [_ [-> | Hnot]]; (split; [reflexivity|]); right.
    + apply clearTimeout_gone.
    + destruct (maintenanceTimeoutId st); [|exact Hnot].
      intros Hin. apply Hnot. eapply clearTimeout_sub. exact Hin.
  - unfold fire. destruct (existsb (Nat.eqb timer) (armed st)); [|exact Hi].
    unfold loopInvariant in Hi.
    destruct (pc st) as [|t| |] eqn:Ep;
      try (unfold loopInvariant; cbn [pc isRunning]; rewrite ?Ep; exact Hi).
    destruct (Nat.eqb_spec t timer) as [->|Hne].
    + unfold afterSleep, loopInvariant. cbn [shutdownRequested].
      destruct (shutdownRequested st); cbn [leave pc isRunning]; [reflexivity | tauto].
    + unfold loopInvariant. cbn [pc isRunning maintenanceTimeoutId armed]. rewrite ?Ep.
      destruct Hi as [Hr [Hid | Hnot]]; (split; [exact Hr|]); [left; exact Hid | right].
      intros Hin. apply Hnot. eapply clearTimeout_sub. exact Hin.
  - destruct (pc st) eqn:Ep; try exact Hi. apply loopHead_invariant.
    unfold loopInvariant in Hi. rewrite Ep in Hi. exact Hi.
Qed.

Lemma run_invariant (events : list Event) : loopInvariant (run events).
Proof.
  unfold run. induction events as [|e events IH] using rev_ind; [reflexivity|].
  rewrite fold_left_app. apply step_invariant. exact IH.
Qed.

Lemma hung_step (timer : nat) (st : State) (e : Event) :
  hung timer st -> hung timer (step st e).
Proof.
  intros (Hp & Hr & Hs & Hn). destruct e as [| |t|]; cbn [step].
  - unfold runMaintenanceLoop. rewrite Hr. unfold hung. auto.
  - unfold stopMaintenanceLoop. rewrite Hr. cbn [negb]. unfold hung.
    cbn [pc isRunning shutdownRequested armed]. split_and!; auto.
    destruct (maintenanceTimeoutId st); [|exact Hn].
    intros Hin. apply Hn. eapply clearTimeout_sub. exact Hin.
  - unfold fire. destruct (existsb (Nat.eqb t) (armed st)) eqn:Ee; [|unfold hung; auto].
    rewrite Hp. destruct (Nat.eqb_spec timer t) as [->|Hne].
    + exfalso. apply Hn. apply existsb_exists in Ee. destruct Ee as (x & Hx & Hxe).
      apply Nat.eqb_eq in Hxe. subst x. exact Hx.
    + unfold hung. cbn [pc isRunning shutdownRequested armed]. split_and!; auto.
      intros Hin. apply Hn. eapply clearTimeout_sub. exact Hin.
  - rewrite Hp. unfold hung. auto.
Qed.

(** stopMaintenanceLoop, called while the loop sleeps between two
    cycles, clears the timer that would have ended the sleep: whatever
    happens afterwards the loop never wakes, the function never
    returns, isRunning stays true, and a later runMaintenanceLoop finds
    the loop already running. *)
Theorem stop_while_sleeping_never_returns (before after : list Event) (timer : nat) :
  pc (run before) = Sleeping timer ->
  let st := run (before ++ Stop :: after) in
  pc st = Sleeping timer
  /\ isMaintenanceLoopRunning st = true
  /\ step st Run = st.
Proof.
  intros Hp st.
  assert (Hh : hung timer (step (run before) Stop)).
  { pose proof (run_invariant before) as Hi. unfold loopInvariant in Hi. rewrite Hp in Hi.
    destruct Hi as [Hr Hid]. cbn [step]. unfold stopMaintenanceLoop. rewrite Hr. cbn [negb].
    unfold hung. cbn [pc isRunning shutdownRequested armed]. split_and!; auto.
    destruct Hid as [-> | Hnot]; [apply clearTimeout_gone|].
    destruct (maintenanceTimeoutId (run before)); [|exact Hnot].
    intros Hin. apply Hnot. eapply clearTimeout_sub. exact Hin. }
  assert (Hst : hung timer st).
  { subst st. unfold run in *. rewrite fold_left_app. cbn [fold_left].
    generalize dependent (step (fold_left step before initial) Stop).
    induction after as [|e after IH]; intros s0 Hs0; [exact Hs0|].
    cbn [fold_left]. apply IH. apply hung_step. exact Hs0. }
  destruct Hst as (Hpc & Hr & _ & _). split_and!; [exact Hpc | exact Hr |].
  cbn [step]. unfold runMaintenanceLoop. unfold isMaintenanceLoopRunning in Hr.
  rewrite Hr. reflexivity.
Qed.

(** Called while a cycle is under way, stopMaintenanceLoop lets the
    loop end: once the cycle is over the function returns and isRunning
    is false. *)
Theorem stop_while_working_returns (before : list Event) :
  pc (run before) = Working ->
  let st := run (before ++ [Stop; CycleDone]) in
  pc st = Finished /\ isMaintenanceLoopRunning st = false.
Proof.
  intros Hp st. subst st. unfold run in *. rewrite fold_left_app. cbn [fold_left step].
  pose proof (run_invariant before) as Hi. unfold loopInvariant, run in Hi. rewrite Hp in Hi.
  unfold stopMaintenanceLoop. rewrite Hi. cbn [negb pc]. rewrite Hp.
  unfold loopHead. cbn [shutdownRequested leave pc isRunning isMaintenanceLoopRunning].
  split; reflexivity.
Qed.

End LoopProperties.

(** The loop is started and sleeps on timer 0; it is stopped; the timer
    never fires, and neither a cycle ending nor a new start changes
    anything. *)
Lemma stop_while_sleeping_never_returns_witness :
  Loop.pc (Loop.run [Loop.Run]) = Loop.Sleeping 0
  /\ Loop.pc (Loop.run [Loop.Run; Loop.Stop; Loop.Fire 0; Loop.CycleDone; Loop.Run])
     = Loop.Sleeping 0
  /\ Loop.isMaintenanceLoopRunning
       (Loop.run [Loop.Run; Loop.Stop; Loop.Fire 0; Loop.CycleDone; Loop.Run]) = true.
Proof.
  destruct (stop_while_sleeping_never_returns [Loop.Run]
              [Loop.Fire 0; Loop.CycleDone; Loop.Run] 0 eq_refl) as (H1 & H2 & _).
  split_and!; [reflexivity | exact H1 | exact H2].
Defined.

(** The loop is stopped during its first cycle and ends with it. *)
Lemma stop_while_working_returns_witness :
  Loop.pc (Loop.run [Loop.Run; Loop.Fire 0]) = Loop.Working
  /\ Loop.pc (Loop.run [Loop.Run; Loop.Fire 0; Loop.Stop; Loop.CycleDone]) = Loop.Finished
  /\ Loop.isMaintenanceLoopRunning
       (Loop.run [Loop.Run; Loop.Fire 0; Loop.Stop; Loop.CycleDone]) = false.
Proof.
  destruct (stop_while_working_returns [Loop.Run; Loop.Fire 0] eq_refl) as (H1 & H2).
  split_and!; [reflexivity | exact H1 | exact H2].
Defined.

(** Without a stop the loop goes on: sleep, cycle, sleep. *)
Example loop_scenario :
  List.map (fun events => Loop.pc (Loop.run events))
    [[Loop.Run]; [Loop.Run; Loop.Fire 0]; [Loop.Run; Loop.Fire 0; Loop.CycleDone];
     [Loop.Run; Loop.Fire 0; Loop.CycleDone; Loop.Fire 1]]
  = [Loop.Sleeping 0; Loop.Working; Loop.Sleeping 1; Loop.Working].
Proof. reflexivity. Qed.


(** ** GET /v1/runtimes/:runtimeId/logs: the wait for the Deployment *)

Section LogStreamProperties.
Import K8s Runtime Errors LogStream.
Variable env : Env.

Lemma awaitFrom_attempts (name : string) (rounds : nat) :
  forall (i : Z) (s : Exec),
    0 <= i -> i + Z.of_nat rounds = 10 -> (0 < rounds)%nat ->
    exists evs,
      trace (snd (awaitFrom env rounds i name s)) = trace s ++ evs
      /\ Attempts name i evs (fst (awaitFrom env rounds i name s)).
Proof.
  induction rounds as [|rounds IH]; intros i s Hi Hsum Hpos; [lia|].
  cbn [awaitFrom]. rewrite read_spec.
  destruct (deployments (env (tick s) (world s)) !! name) as [d|].
  - cbn [fst snd trace]. eexists. split; [reflexivity | apply attempts_found].
  - destruct (Z.eqb_spec i 9) as [->|Hne].
    + cbn [fst snd trace]. eexists. split; [reflexivity | apply attempts_last].
    + match goal with |- context [awaitFrom env rounds (i + 1) name ?s1] =>
        destruct (IH (i + 1) s1 ltac:(lia) ltac:(lia) ltac:(lia)) as (evs & Ht & Ha);
        set (s2 := s1) in * end.
      exists (lookAt (now (world s)) name None
                :: pauseAt (now (env (tick s) (world s))) 500 :: evs). split.
      * rewrite Ht. subst s2. rewrite delay_spec. cbn [trace world].
        rewrite <- !app_assoc. reflexivity.
      * apply attempts_again; [exact Hne | exact Ha].
Qed.

Lemma attempts_count (name : string) (i : Z) (evs : list Event) (r : Awaited) :
  Attempts name i evs r ->
  0 <= i <= 9 ->
  r <> RanOut
  /\ Z.of_nat (length (List.filter isLook evs)) <= 10 - i
  /\ length (List.filter isPause evs) = (length (List.filter isLook evs) - 1)%nat
  /\ (r = GaveUp -> Z.of_nat (length (List.filter isLook evs)) = 10 - i)
  /\ (r = GaveUp <->
      Forall (fun ev => forall result, call ev = ReadDeployment name result -> result = None) evs).
Proof.
  induction 1 as [i t d|t|i t t' evs r Hne Ha IH]; intros Hi.
  - cbn. split_and!; try discriminate; try lia.
    split; [discriminate|]. intros Hf. apply Forall_cons in Hf. destruct Hf as [Hf _].
    specialize (Hf _ eq_refl). discriminate.
  - cbn. split_and!; try discriminate; try lia; try reflexivity.
    split; [|reflexivity]. intros _. constructor; [|constructor].
    intros result [= <-]. reflexivity.
  - destruct (IH ltac:(lia)) as (H1 & H2 & H3 & H4 & H5).
    cbn [List.filter isLook isPause call lookAt pauseAt length].
    assert (Hpos : (0 < length (List.filter isLook evs))%nat).
    { clear - Ha. inversion Ha; cbn; lia. }
    split_and!; [exact H1 | lia | lia | intros Hr; specialize (H4 Hr); lia |].
    rewrite H5. split.
    + intros Hf. constructor; [intros result [= <-]; reflexivity|].
      constructor; [intros result [=]|exact Hf].
    + intros Hf. apply Forall_cons in Hf. destruct Hf as [_ Hf].
      apply Forall_cons in Hf. destruct Hf as [_ Hf]. exact Hf.
Qed.

(** The logs handler waits for the Deployment with at most ten reads,
    500 ms apart.  It answers 404 runtime_not_found exactly when all
    ten reads miss the Deployment, after nine sleeps; the other 404 of
    this part, with the message Runtime not found, is never sent.  For
    a Deployment annotated with version v2 it answers an empty text and
    issues no further call. *)
Theorem logs_wait_for_deployment (runtimeId : string) (s : Exec) :
  let name := getDeploymentName runtimeId in
  let r := awaitDeployment env name s in
  (exists evs,
     trace (snd r) = trace s ++ evs
     /\ Attempts name 0 evs (fst r)
     /\ (length (List.filter isLook evs) <= 10)%nat
     /\ length (List.filter isPause evs) = (length (List.filter isLook evs) - 1)%nat
     /\ (fst r = GaveUp -> length (List.filter isLook evs) = 10%nat)
     /\ (fst r = GaveUp <->
         Forall (fun ev => forall result, call ev = ReadDeployment name result ->
                                          result = None) evs))
  /\ fst r <> RanOut
  /\ (fst r = GaveUp ->
      logsPrelude env runtimeId s
      = Some (Respond (jsonError RUNTIME_NOT_FOUND "Runtime not ready. Deployment not found."
                         404), snd r))
  /\ (forall d, fst r = Broke d ->
                annotations d !! "appwrite.io/version" = Some "v2" ->
                logsPrelude env runtimeId s = Some (EmptyText, snd r)).
Proof.
  intros name r.
  destruct (awaitFrom_attempts name 10 0 s ltac:(lia) ltac:(lia) ltac:(lia)) as (evs & Ht & Ha).
  fold (awaitDeployment env name s) in Ht, Ha. fold r in Ht, Ha.
  destruct (attempts_count name 0 evs (fst r) Ha ltac:(lia)) as (H1 & H2 & H3 & H4 & H5).
  split_and!.
  - exists evs. split_and!; [exact Ht | exact Ha | lia | exact H3 | intros Hr; specialize (H4 Hr); lia | exact H5].
  - exact H1.
  - intros Hg. unfold logsPrelude. fold name. fold r.
    destruct r as [a s1]. cbn [fst snd] in *. subst a. reflexivity.
  - intros d Hb Hv. unfold logsPrelude. fold name. fold r.
    destruct r as [a s1]. cbn [fst snd] in *. subst a. rewrite Hv. reflexivity.
Qed.

End LogStreamProperties.


(** ** utils/pod-exec.ts: what is delivered *)

Section TailDelivery.
Import PodExec.

Lemma tail_step (hasOnError : bool) (c : Tail) (a : Action) :
  connected c = true ->
  a <> Transport Closed ->
  let c' := act hasOnError c a in
  connected c' = true
  /\ onDataCalls c' = onDataCalls c ++ stdoutOf [a]
  /\ onErrorCalls c' = onErrorCalls c ++ (if hasOnError then errorsOf [a] else []).
Proof.
  intros Hc Ha c'. subst c'.
  destruct a as [[chunk|chunk|status|]|]; cbn [act]; unfold deliver, cleanup;
    try congruence; rewrite ?Hc; unfold stdoutOf, errorsOf; cbn [List.map List.concat app].
  - cbn [connected onDataCalls onErrorCalls].
    destruct hasOnError; rewrite ?app_nil_r; split_and!; first [reflexivity | exact Hc].
  - destruct hasOnError; cbn [connected onDataCalls onErrorCalls];
      rewrite ?app_nil_r; split_and!; first [reflexivity | exact Hc].
  - destruct (String.eqb status "Success"), hasOnError;
      cbn [negb andb connected onDataCalls onErrorCalls app]; rewrite ?app_nil_r; split_and!; first [reflexivity | exact Hc].
  - destruct hasOnError; rewrite ?app_nil_r; split_and!; first [reflexivity | exact Hc].
Qed.

Lemma tail_fold (hasOnError : bool) (h : list Action) :
  forall c,
    connected c = true ->
    let c' := fold_left (act hasOnError) h c in
    onDataCalls c' = onDataCalls c ++ stdoutOf (untilClosed h)
    /\ onErrorCalls c'
       = onErrorCalls c ++ (if hasOnError then errorsOf (untilClosed h) else []).
Proof.
  induction h as [|a h IH]; intros c Hc.
  - unfold stdoutOf, errorsOf. cbn [fold_left untilClosed List.map List.concat].
    destruct hasOnError; rewrite ?app_nil_r; split; reflexivity.
  - cbn [fold_left].
    assert (Hdec : a = Transport Closed \/ a <> Transport Closed)
      by (destruct a as [[| | |]|]; first [left; reflexivity | right; discriminate]).
    destruct Hdec as [->|Ha].
    + cbn [untilClosed act].
      assert (Hcl : deliver hasOnError Closed c
                    = {| connected := false; onDataCalls := onDataCalls c;
                         onErrorCalls := onErrorCalls c |})
        by (unfold deliver; rewrite Hc; reflexivity).
      rewrite Hcl, tail_closed_stays by reflexivity.
      unfold stdoutOf, errorsOf. cbn [List.map List.concat onDataCalls onErrorCalls].
      destruct hasOnError; rewrite ?app_nil_r; split; reflexivity.
    + destruct (tail_step hasOnError c a Hc Ha) as (Hc' & Hd & He).
      destruct (IH _ Hc') as [IHd IHe]. cbn zeta in *.
      assert (Hu : untilClosed (a :: h) = a :: untilClosed h).
      { destruct a as [[| | |]|]; try reflexivity. congruence. }
      rewrite Hu, IHd, IHe, Hd, He.
      unfold stdoutOf, errorsOf. cbn [List.map List.concat].
      rewrite !app_nil_r, <- !app_assoc.
      destruct hasOnError; rewrite ?app_nil_r; split; reflexivity.
Qed.

(** Up to the moment the connection goes away, every stdout chunk is
    passed to the data callback once and in order, and nothing else is;
    the error callback gets every stderr chunk and one message for a
    final status other than Success, or nothing at all when no error
    callback was given.  What arrives afterwards is dropped. *)
Theorem tail_delivers_in_order (hasOnError : bool) (history : list Action) :
  onDataCalls (tailFileInPod hasOnError history) = stdoutOf (untilClosed history)
  /\ onErrorCalls (tailFileInPod hasOnError history)
     = (if hasOnError then errorsOf (untilClosed history) else []).
Proof.
  unfold tailFileInPod.
  destruct (tail_fold hasOnError history started eq_refl) as [Hd He].
  split; [exact Hd | exact He].
Qed.

(** A file of ASCII text is read back byte for byte, however the exec
    stream cuts it into chunks; a command that does not end in Success
    rejects. *)
Theorem read_ascii_file (chunks errs : list (list Byte.byte)) (status : string) :
  Forall (fun b => (Byte.to_N b <= 127)%N) (List.concat chunks) ->
  readFileFromPod {| stdoutChunks := chunks; stderrChunks := errs; exitStatus := status |}
  = if String.eqb status "Success"
    then Some (List.map Byte.to_N (List.concat chunks))
    else None.
Proof.
  intros Hascii. unfold readFileFromPod. cbn [exitStatus stdoutChunks].
  destruct (String.eqb status "Success"); [|reflexivity]. f_equal.
  induction chunks as [|c cs IH]; [reflexivity|].
  cbn [List.map List.concat] in *. apply Forall_app in Hascii. destruct Hascii as [Hc Hcs].
  rewrite List.map_app, IH by exact Hcs. f_equal.
  unfold Utf8.decode. apply decodeFrom_ascii. apply Forall_map. exact Hc.
Qed.

End TailDelivery.

(** ** The log stream: one line per entry *)

Section StreamLines.

Lemma escapeNewlines_plain (s : list N) : ~ In 10%N (Text.escapeNewlines s).
Proof.
  induction s as [|u s IH]; [intros []|].
  cbn [Text.escapeNewlines]. destruct (N.eqb_spec u 10) as [->|Hne].
  - intros [H|[H|H]]; [discriminate | discriminate | exact (IH H)].
  - intros [H|H]; [congruence | exact (IH H)].
Qed.

(** The text the log stream sends for a chunk of timings holds one line
    per entry, in order: the line breaks inside an entry's content are
    escaped, so a reader that cuts the text at line breaks gets back
    each entry's timestamp, a space, and its escaped content. *)
Theorem stream_one_line_per_entry (entries : list Logs.Entry) :
  Forall (fun e => ~ In 10%N (Logs.stamp e)) entries ->
  Text.split 10 (Logs.streamText entries)
  = map (fun e => Logs.stamp e ++ 32%N :: Text.escapeNewlines (Logs.content e)) entries
    ++ [[]].
Proof.
  induction 1 as [|e es He _ IH]; [reflexivity|].
  unfold Logs.streamText in *. cbn [map List.concat]. unfold Logs.streamLine at 1.
  change (Logs.stamp e ++ 32%N :: Text.escapeNewlines (Logs.content e) ++ [10%N])
    with (Logs.stamp e ++ (32%N :: Text.escapeNewlines (Logs.content e)) ++ [10%N]).
  rewrite app_assoc, <- app_assoc. cbn [app].
  rewrite split_app, IH; [reflexivity|].
  intros Hin. apply in_app_or in Hin. destruct Hin as [Hin|[Hin|Hin]].
  - exact (He Hin).
  - discriminate.
  - exact (escapeNewlines_plain _ Hin).
Qed.

End StreamLines.

(** An ASCII file that arrives in two chunks. *)
Lemma read_ascii_file_witness :
  PodExec.readFileFromPod
    {| PodExec.stdoutChunks := Inputs.hiChunks; PodExec.stderrChunks := [];
       PodExec.exitStatus := "Success" |}
  = Some (ExecutionLogs.lit "hi!").
Proof.
  refine (eq_trans (read_ascii_file Inputs.hiChunks [] "Success" _) _); [|reflexivity].
  unfold Inputs.hiChunks. cbn [List.concat app].
  repeat (apply Forall_cons; split; [vm_compute; discriminate|]). apply Forall_nil_2.
Defined.

(** Two entries, the first with a line break in its content. *)
Lemma stream_one_line_per_entry_witness :
  Text.split 10 (Logs.streamText Inputs.twoEntries)
  = [ExecutionLogs.lit "t1 a\nb"; ExecutionLogs.lit "t2 c"; []].
Proof.
  refine (eq_trans (stream_one_line_per_entry Inputs.twoEntries _) _); [|reflexivity].
  repeat constructor; intros H; vm_compute in H; intuition discriminate.
Defined.

(** ** Response headers and log files, at concrete inputs *)

(** The internal header of the response is not surfaced, under either
    format. *)
Lemma headers_internal_absent_witness :
  Execution.collectHeaders Inputs.responseHeaders !! "x-open-runtimes-log-id" = None
  /\ Execution.surfacedHeaders (Some "0.11.0") Inputs.responseHeaders
       !! "x-open-runtimes-log-id" = None.
Proof.
  apply (headers_internal_absent (Some "0.11.0") Inputs.responseHeaders
           "x-open-runtimes-log-id").
  reflexivity.
Defined.

(** The surfaced key content-type is the lower-cased Content-Type. *)
Lemma headers_keys_lowercase_witness :
  exists k0, In k0 (List.map fst Inputs.responseHeaders)
             /\ "content-type" = Js.toLowerCase k0.
Proof.
  apply (headers_keys_lowercase None Inputs.responseHeaders "content-type").
  vm_compute. eauto.
Defined.


(** A file of three two-byte letters is surfaced whole. *)
Lemma surfaced_small_file_witness :
  ExecutionLogs.surfaced "Log" (Inputs.accentedFile 3) = [233%N; 233%N; 233%N].
Proof.
  refine (eq_trans (surfaced_small_file "Log" (Inputs.accentedFile 3) _ _) _);
    [reflexivity | vm_compute; discriminate | reflexivity].
Defined.

(** An ASCII file of 1048577 bytes is cut to its first 1048576 bytes,
    and the notice follows. *)
Lemma surfaced_large_ascii_file_witness :
  ExecutionLogs.surfaced "Log"
    {| PodExec.stdoutChunks := [Inputs.longAscii]; PodExec.stderrChunks := [];
       PodExec.exitStatus := "Success" |}
  = List.map Byte.to_N (firstn (Z.to_nat ExecutionLogs.MAX_LOG_SIZE) Inputs.longAscii)
    ++ ExecutionLogs.noticeFor "Log".
Proof.
  apply surfaced_large_ascii_file.
  - apply Forall_forall. intros b Hb. apply list_elem_of_In in Hb.
    apply repeat_spec in Hb. subst b. vm_compute. discriminate.
  - unfold Inputs.longAscii, ExecutionLogs.MAX_LOG_SIZE. rewrite repeat_length. lia.
Defined.


(** ** Further instances *)

(** Under an environment that leaves the clock alone the wait for the
    pending runtime r4 ends. *)
Lemma runtime_ready_wait_witness :
  exists r, Runtime.waitForRuntimeReady Inputs.still "r4" 2 Inputs.coldCluster = Some r.
Proof.
  apply (proj1 (runtime_ready_wait Inputs.still "r4" 2 Inputs.coldCluster)).
  intros k w. unfold Inputs.still. lia.
Defined.

(** Two random bytes: four digits, and a text that counts as set. *)
Lemma secret_is_hex_witness :
  String.length (Create.hex [Byte.xde; Byte.xad]) = 4%nat
  /\ Js.truthy (Create.hex [Byte.xde; Byte.xad]) = true.
Proof.
  destruct (secret_is_hex [Byte.xde; Byte.xad] []) as (H1 & _ & _ & H4).
  split; [exact H1 | apply H4; discriminate].
Defined.


(** A lease that another instance renewed 10 s ago is left alone; one
    that it renewed 31 s ago is taken over. *)
Lemma lease_acquired_only_by_write_witness :
  Lease.acquireLease "me-1" 40000 40005
    (Lease.ReadInfo (Some 200)
       (Some {| Lease.holderIdentity := Some "other-7"; Lease.leaseDurationSeconds := Some 30;
                Lease.acquireTime := Some 1000; Lease.renewTime := Some 30000;
                Lease.leaseTransitions := Some 2 |})) true
  = (false, [Lease.Read])
  /\ fst (Lease.acquireLease "me-1" 40000 40005
            (Lease.ReadInfo (Some 200)
               (Some {| Lease.holderIdentity := Some "other-7";
                        Lease.leaseDurationSeconds := Some 30;
                        Lease.acquireTime := Some 1000; Lease.renewTime := Some 9000;
                        Lease.leaseTransitions := Some 2 |})) true) = true.
Proof.
  split.
  - destruct (lease_acquired_only_by_write "me-1" 40000 40005
                (Lease.ReadInfo (Some 200)
                   (Some {| Lease.holderIdentity := Some "other-7";
                            Lease.leaseDurationSeconds := Some 30;
                            Lease.acquireTime := Some 1000; Lease.renewTime := Some 30000;
                            Lease.leaseTransitions := Some 2 |})) true)
      as (_ & _ & H & _).
    apply (H (Some 200) _ "other-7" 30 30000 eq_refl); cbn; try reflexivity; try lia.
    discriminate.
  - destruct (lease_acquired_only_by_write "me-1" 40000 40005
                (Lease.ReadInfo (Some 200)
                   (Some {| Lease.holderIdentity := Some "other-7";
                            Lease.leaseDurationSeconds := Some 30;
                            Lease.acquireTime := Some 1000; Lease.renewTime := Some 9000;
                            Lease.leaseTransitions := Some 2 |})) true)
      as (_ & _ & H & _).
    assert (Htake : 30 * 1000 < 40000 - 9000 -> _)
      by (apply (H (Some 200) _ "other-7" 30 9000 eq_refl);
          cbn; try reflexivity; try lia; discriminate).
    destruct Htake as (body & -> & _); [lia | reflexivity].
Defined.

(** The logs of a runtime that has no Deployment: ten reads, then the
    404. *)
Lemma logs_wait_for_deployment_witness :
  exists s',
    LogStream.logsPrelude Inputs.still "zz" Inputs.coldCluster
    = Some (LogStream.Respond
              (Errors.jsonError Errors.RUNTIME_NOT_FOUND
                 "Runtime not ready. Deployment not found." 404), s')
    /\ length (K8s.trace s') = 19%nat.
Proof.
  destruct (logs_wait_for_deployment Inputs.still "zz" Inputs.coldCluster)
    as (_ & _ & H & _).
  eexists. split; [apply H; reflexivity|]. reflexivity.
Defined.
